(** * Zone Query Service (GeohashingService.ts): validators and region queries

    A shallow embedding of [src/services/GeohashingService.ts].

    - JavaScript numbers are IEEE 754 binary64 values, modelled by
      [spec_float] with precision 53 and maximal exponent 1024; the
      comparison operators are the IEEE ones ([SFltb]), so every comparison
      with [NaN] is false.
    - Run-time values reaching the validators are the values an HTTP request
      can carry (JSON data, [undefined], and the numbers produced by
      [parseFloat]/[parseInt]); they are modelled by [JsValue].  They are
      data: none of their properties is a function.
    - Operations that raise [TypeError] in JavaScript (property access on
      [null]/[undefined], iteration of a non-iterable, the conversion to a
      primitive of an object whose own [toString] hides the inherited one)
      return [Throw]; code that uses them lives in the [Completion] monad.
      [Throw] carries the kind of the exception, not its message text.
    - The h3-js functions, [isValidCell] included, are external; every call
      is an event of the free monad [Prog], interpreted against an arbitrary
      library that may throw. *)

From Stdlib Require Import ZArith List String Bool Lia.
From Stdlib Require Import Floats.SpecFloat.
Import ListNotations.

Local Open Scope Z_scope.

(* ================================================================== *)
(** ** JavaScript numbers *)

Module JS.

Definition prec : Z := 53.
Definition emax : Z := 1024.

Definition number : Type := spec_float.

(** The binary64 values among the [spec_float]s. *)
Definition is_double (x : number) : bool := valid_binary prec emax x.

Definition NaN : number := S754_nan.

(** An integer literal of the source text. *)
Definition of_Z (z : Z) : number := binary_normalize prec emax z 0 false.

(** [x < y] and [x > y] on numbers. *)
Definition lt (x y : number) : bool := SFltb x y.
Definition gt (x y : number) : bool := SFltb y x.
(** [x >= y] and [x <= y] on numbers. *)
Definition ge (x y : number) : bool := SFleb y x.
Definition le (x y : number) : bool := SFleb x y.

Definition add (x y : number) : number := SFadd prec emax x y.
Definition sub (x y : number) : number := SFsub prec emax x y.
Definition div (x y : number) : number := SFdiv prec emax x y.

(** The integer a number denotes, when it denotes one. *)
Definition int_value (x : number) : option Z :=
match x with
| S754_zero _ => Some 0
| S754_finite s m e =>
    if 0 <=? e then Some (cond_Zopp s (Z.pos m * 2 ^ e))
    else if Z.pos m mod 2 ^ (- e) =? 0
         then Some (cond_Zopp s (Z.pos m / 2 ^ (- e)))
         else None
| _ => None
end.

(** [Number.isInteger] on a number: finite and without fractional part. *)
Definition isInteger (x : number) : bool :=
match x with
| S754_zero _ => true
| S754_finite _ m e => (0 <=? e) || (Z.pos m mod 2 ^ (- e) =? 0)
| _ => false
end.

(** [Math.ceil]: the least integer not below [x]; zeros, infinities and
  [NaN] are returned unchanged, and a negative [x] above [-1] gives [-0]. *)
Definition Math_ceil (x : number) : number :=
match x with
| S754_finite s m e =>
    if 0 <=? e then x
    else
      let d := 2 ^ (- e) in
      let q := Z.pos m / d in
      let n := if s then q
               else if Z.pos m mod d =? 0 then q else q + 1 in
      binary_normalize prec emax (cond_Zopp s n) 0 s
| _ => x
end.

(** [Math.max] and [Math.min] of two numbers: [NaN] if either is [NaN],
  and [+0] counts as larger than [-0]. *)
Definition Math_max (a b : number) : number :=
match SFcompare a b with
| None => NaN
| Some Lt => b
| Some Gt => a
| Some Eq => match a with S754_zero true => b | _ => a end
end.

Definition Math_min (a b : number) : number :=
match SFcompare a b with
| None => NaN
| Some Lt => a
| Some Gt => b
| Some Eq => match a with S754_zero false => b | _ => a end
end.

End JS.

(* ================================================================== *)
(** ** Run-time values and completions *)

#[local] Set Warnings "-register-all".

Inductive JsValue : Type :=
| JUndefined
| JNull
| JBool (b : bool)
| JNum (n : JS.number)
| JStr (s : string)
| JArr (elems : list JsValue)
| JObj (fields : list (string * JsValue)).

(** A value that, when it is a number, is a binary64 value. *)
Definition number_ok (v : JsValue) : bool :=
  match v with
  | JNum x => JS.is_double x
  | _ => true
  end.

Inductive Completion (A : Type) : Type :=
| Normal (a : A)
| Throw (e : string).

Arguments Normal {A} a.
Arguments Throw {A} e.

Definition cbind {A B} (c : Completion A) (f : A -> Completion B) : Completion B :=
  match c with
  | Normal a => f a
  | Throw e => Throw e
  end.

Declare Scope completion_scope.
Delimit Scope completion_scope with completion.
Notation "x <- c ;; k" := (cbind c (fun x => k))
  (at level 61, c at next level, right associativity) : completion_scope.
Notation "' pat <- c ;; k" := (cbind c (fun x => match x with pat => k end))
  (at level 61, pat pattern, c at next level, right associativity) : completion_scope.

Local Open Scope string_scope.

Definition TypeError : string := "TypeError".

Definition Array_isArray (v : JsValue) : bool :=
  match v with
  | JArr _ => true
  | _ => false
  end.

(** Strings are iterated character by character. *)
Fixpoint chars (s : string) : list JsValue :=
  match s with
  | EmptyString => []
  | String c rest => JStr (String c EmptyString) :: chars rest
  end.

(** The sequence a [for ... of] loop or an array pattern walks through;
    [TypeError] when the value is not iterable. *)
Definition iterate (v : JsValue) : Completion (list JsValue) :=
  match v with
  | JArr l => Normal l
  | JStr s => Normal (chars s)
  | _ => Throw TypeError
  end.

(** [const [a, b] = v]. *)
Definition destructure2 (v : JsValue) : Completion (JsValue * JsValue) :=
  (l <- iterate v ;;
   Normal (nth 0 l JUndefined, nth 1 l JUndefined))%completion.

Fixpoint lookup_field (key : string) (fields : list (string * JsValue)) : JsValue :=
  match fields with
  | [] => JUndefined
  | (k, v) :: rest => if String.eqb k key then v else lookup_field key rest
  end.

(** [Object.hasOwn(obj, key)]. *)
Definition has_own (key : string) (fields : list (string * JsValue)) : bool :=
  existsb (fun kv => String.eqb (fst kv) key) fields.

Section MapC.

Context {A B : Type}.
Variable f : A -> Completion B.

(** [f] on every element, from left to right, until one throws. *)
Fixpoint mapC (l : list A) : Completion (list B) :=
  match l with
  | [] => Normal []
  | a :: rest =>
      (b <- f a ;;
       bs <- mapC rest ;;
       Normal (b :: bs))%completion
  end.

End MapC.

(** [a || b] and [a && b] on conditions that may throw: [b] is evaluated
    only when [a] does not decide. *)
Definition or_else (a b : Completion bool) : Completion bool :=
  (x <- a ;; if x then Normal true else b)%completion.
Definition and_then (a b : Completion bool) : Completion bool :=
  (x <- a ;; if x then b else Normal false)%completion.

Notation "a ||| b" := (or_else a b)
  (at level 50, left associativity) : completion_scope.
Notation "a &&& b" := (and_then a b)
  (at level 40, left associativity) : completion_scope.

(** Coercions and comparisons against numeric literals. *)
Section Coercions.

(** [StringToNumber] and [Number::toString] of ECMAScript, both total. *)
Variable StringToNumber : string -> JS.number.
Variable NumberToString : JS.number -> string.

(** [ToString].  An object is converted through [OrdinaryToPrimitive],
    which calls the first callable of [toString] and [valueOf] that returns
    a primitive.  No own property of a data value is callable, and the
    inherited [valueOf] returns the object itself; so the conversion is
    done by the inherited [Object.prototype.toString], unless an own
    property named [toString] hides it, and then [TypeError] is thrown.
    An array is converted by [Array.prototype.join], which converts its
    elements in turn. *)
Fixpoint ToString (v : JsValue) : Completion string :=
  match v with
  | JUndefined => Normal "undefined"
  | JNull => Normal "null"
  | JBool b => Normal (if b then "true" else "false")
  | JNum n => Normal (NumberToString n)
  | JStr s => Normal s
  | JArr l =>
      (pieces <- mapC (fun x => match x with
                                | JUndefined | JNull => Normal ""
                                | _ => ToString x
                                end) l ;;
       Normal (String.concat "," pieces))%completion
  | JObj fields =>
      if has_own "toString" fields then Throw TypeError
      else Normal "[object Object]"
  end.

(** [ToNumber]: an array or object is first converted to a primitive, with
    the same outcome as in [ToString]. *)
Definition ToNumber (v : JsValue) : Completion JS.number :=
  match v with
  | JUndefined => Normal JS.NaN
  | JNull => Normal (JS.of_Z 0)
  | JBool b => Normal (if b then JS.of_Z 1 else JS.of_Z 0)
  | JNum n => Normal n
  | JStr s => Normal (StringToNumber s)
  | JArr _ | JObj _ => (s <- ToString v ;; Normal (StringToNumber s))%completion
  end.

(** [v < c] and [v > c] for a numeric literal [c]. *)
Definition js_lt (v : JsValue) (c : JS.number) : Completion bool :=
  (x <- ToNumber v ;; Normal (JS.lt x c))%completion.
Definition js_gt (v : JsValue) (c : JS.number) : Completion bool :=
  (x <- ToNumber v ;; Normal (JS.gt x c))%completion.
(** [v >= c] and [v <= c] for a numeric literal [c]. *)
Definition js_ge (v : JsValue) (c : JS.number) : Completion bool :=
  (x <- ToNumber v ;; Normal (JS.ge x c))%completion.
Definition js_le (v : JsValue) (c : JS.number) : Completion bool :=
  (x <- ToNumber v ;; Normal (JS.le x c))%completion.

(** [Number.isInteger(v)]: false for every value that is not a number. *)
Definition Number_isInteger (v : JsValue) : bool :=
  match v with
  | JNum x => JS.isInteger x
  | _ => false
  end.

(** [v.length < n] for an integer literal [n].  Array and string lengths
    are exact integers below 2^32, so they are compared as integers. *)
Definition length_lt (v : JsValue) (n : nat) : Completion bool :=
  match v with
  | JUndefined | JNull => Throw TypeError
  | JArr l => Normal (Nat.ltb (List.length l) n)
  | JStr s => Normal (Nat.ltb (String.length s) n)
  | JObj fields => js_lt (lookup_field "length" fields) (JS.of_Z (Z.of_nat n))
  | JBool _ | JNum _ => Normal false
  end.

(** [v.length !== n] for an integer literal [n]. *)
Definition length_neq (v : JsValue) (n : nat) : Completion bool :=
  match v with
  | JUndefined | JNull => Throw TypeError
  | JArr l => Normal (negb (Nat.eqb (List.length l) n))
  | JStr s => Normal (negb (Nat.eqb (String.length s) n))
  | JObj fields =>
      Normal (match lookup_field "length" fields with
              | JNum x => negb (SFeqb x (JS.of_Z (Z.of_nat n)))
              | _ => true
              end)
  | JBool _ | JNum _ => Normal true
  end.

End Coercions.

(** Induction on values, with the elements of an array as premises. *)
Section JsValue_induction.

Variable P : JsValue -> Prop.
Hypothesis PUndefined : P JUndefined.
Hypothesis PNull : P JNull.
Hypothesis PBool : forall b, P (JBool b).
Hypothesis PNum : forall n, P (JNum n).
Hypothesis PStr : forall s, P (JStr s).
Hypothesis PArr : forall l, Forall P l -> P (JArr l).
Hypothesis PObj : forall fields, P (JObj fields).

Fixpoint JsValue_elements_ind (v : JsValue) : P v :=
  match v with
  | JUndefined => PUndefined
  | JNull => PNull
  | JBool b => PBool b
  | JNum n => PNum n
  | JStr s => PStr s
  | JArr l =>
      PArr l ((fix all (l : list JsValue) : Forall P l :=
                 match l with
                 | [] => Forall_nil P
                 | x :: rest => Forall_cons x (JsValue_elements_ind x) (all rest)
                 end) l)
  | JObj fields => PObj fields
  end.

End JsValue_induction.

(** A value whose conversion to a string or a number cannot throw: no
    object in it, at the positions [Array.prototype.join] visits, has an
    own property named [toString]. *)
Fixpoint coercible (v : JsValue) : bool :=
  match v with
  | JArr l => forallb coercible l
  | JObj fields => negb (has_own "toString" fields)
  | _ => true
  end.

(* ================================================================== *)
(** ** The h3-js interface *)

(** One constructor per imported h3-js function, with its arguments. *)
Inductive H3Call : Type :=
| latLngToCell (lat lng res : JS.number)
| cellToLatLng (h : string)
| cellToBoundary (h : string)
| gridDisk (h : string) (k : JS.number)
| polygonToCells (polygon : JsValue) (res : JS.number)
| cellToChildren (h : string) (res : JS.number)
| cellToParent (h : string) (res : JS.number)
| getResolution (h : string)
| areNeighborCells (h1 h2 : string)
| isValidCell (h : JsValue).

(** What each function returns (h3-js typings). *)
Definition H3Ret (c : H3Call) : Type :=
  match c with
  | latLngToCell _ _ _ => string
  | cellToLatLng _ => (JS.number * JS.number)%type
  | cellToBoundary _ => list (JS.number * JS.number)
  | gridDisk _ _ => list string
  | polygonToCells _ _ => list string
  | cellToChildren _ _ => list string
  | cellToParent _ _ => string
  | getResolution _ => JS.number
  | areNeighborCells _ _ => bool
  | isValidCell _ => bool
  end.

(** Service code: a computation that calls the library and continues with
    what it returns. *)
Inductive Prog (A : Type) : Type :=
| Ret (a : A)
| Call (c : H3Call) (k : H3Ret c -> Prog A).

Arguments Ret {A} a.
Arguments Call {A} c k.

Fixpoint pbind {A B} (p : Prog A) (f : A -> Prog B) : Prog B :=
  match p with
  | Ret a => f a
  | Call c k => Call c (fun x => pbind (k x) f)
  end.

Definition call (c : H3Call) : Prog (H3Ret c) := Call c Ret.

Declare Scope prog_scope.
Delimit Scope prog_scope with prog.
Notation "x <- c ;; k" := (pbind c (fun x => k))
  (at level 61, c at next level, right associativity) : prog_scope.

(** [l.map(f)] for an [f] that calls the library: elements in order. *)
Fixpoint mapP {A B} (f : A -> Prog B) (l : list A) : Prog (list B) :=
  match l with
  | [] => Ret []
  | a :: rest =>
      (b <- f a ;;
       bs <- mapP f rest ;;
       Ret (b :: bs))%prog
  end.

(** A library: an answer, or an exception, for every call. *)
Definition H3Lib : Type := forall c : H3Call, Completion (H3Ret c).

(** Running a computation against a library: the calls made, in order, and
    the completion.  An exception of the library propagates. *)
Fixpoint run {A} (lib : H3Lib) (p : Prog A) : list H3Call * Completion A :=
  match p with
  | Ret a => ([], Normal a)
  | Call c k =>
      match lib c with
      | Normal x => let (t, r) := run lib (k x) in (c :: t, r)
      | Throw e => ([c], Throw e)
      end
  end.

Definition calls {A} (lib : H3Lib) (p : Prog A) : list H3Call := fst (run lib p).
Definition result {A} (lib : H3Lib) (p : Prog A) : Completion A := snd (run lib p).

(** The calls that fetch the centre of a cell. *)
Definition is_cellToLatLng (c : H3Call) : Prop := exists h, c = cellToLatLng h.

(** A library that answers every call. *)
Definition never_throws (lib : H3Lib) : Prop :=
  forall c, exists x, lib c = Normal x.

(* ================================================================== *)
(** ** Validation (GeohashingService.ts, lines 53-128) *)

Record ValidationResult : Type := {
  isValid : bool;
  error : option string
}.

Definition valid : ValidationResult :=
  {| isValid := true; error := None |}.
Definition invalid (msg : string) : ValidationResult :=
  {| isValid := false; error := Some msg |}.

Definition coordinates_error : string :=
  "Latitude must be between -90 and 90, longitude between -180 and 180".
Definition resolution_error : string :=
  "Resolution must be an integer between 0 and 15".
Definition hash_error : string :=
  "The provided hash is not a valid H3 cell".
Definition k_error : string :=
  "k must be an integer between 1 and 10".
Definition polygon_error : string :=
  "Polygon must be an array of at least 3 [lat, lng] coordinates".
Definition vertex_error : string :=
  "Each polygon coordinate must be a [lat, lng] array".

(** A result as the validators promise it: valid, or invalid with one
    non-empty reason. *)
Definition well_formed (r : ValidationResult) : Prop :=
  r = valid \/ exists msg, r = invalid msg /\ msg <> "".

(** The literal [7.5]. *)
Definition seven_and_a_half : JS.number :=
  S754_finite false 8444249301319680 (-50).

Section Validators.

Variable StringToNumber : string -> JS.number.
Variable NumberToString : JS.number -> string.

Local Abbreviation lt := (js_lt StringToNumber NumberToString).
Local Abbreviation gt := (js_gt StringToNumber NumberToString).
Local Abbreviation ge := (js_ge StringToNumber NumberToString).
Local Abbreviation le := (js_le StringToNumber NumberToString).

Definition validateCoordinates (lat lng : JsValue) : Completion ValidationResult :=
  (out_of_range <- lt lat (JS.of_Z (-90)) ||| gt lat (JS.of_Z 90)
                   ||| lt lng (JS.of_Z (-180)) ||| gt lng (JS.of_Z 180) ;;
   if out_of_range then Normal (invalid coordinates_error)
   else Normal valid)%completion.

Definition validateResolution (resolution : JsValue) : Completion ValidationResult :=
  (bad <- lt resolution (JS.of_Z 0) ||| gt resolution (JS.of_Z 15)
          ||| Normal (negb (Number_isInteger resolution)) ;;
   if bad then Normal (invalid resolution_error)
   else Normal valid)%completion.

(** [isValidCell] is a function of h3-js: the check is a library call. *)
Definition validateCellHash (hash : JsValue) : Prog ValidationResult :=
  (ok <- call (isValidCell hash) ;;
   if negb ok then Ret (invalid hash_error)
   else Ret valid)%prog.

Definition validateKValue (k : JsValue) : Completion ValidationResult :=
  (bad <- lt k (JS.of_Z 1) ||| gt k (JS.of_Z 10)
          ||| Normal (negb (Number_isInteger k)) ;;
   if bad then Normal (invalid k_error)
   else Normal valid)%completion.

(** The body of the [for (const coord of polygon)] loop, over the
    elements still to be visited. *)
Fixpoint validatePolygon_loop (coords : list JsValue)
  : Completion ValidationResult :=
  match coords with
  | [] => Normal valid
  | coord :: rest =>
      (bad <- (if negb (Array_isArray coord) then Normal true
               else length_neq coord 2) ;;
       if bad then Normal (invalid vertex_error)
       else
         '(lat, lng) <- destructure2 coord ;;
         coordValidation <- validateCoordinates lat lng ;;
         if negb (isValid coordValidation) then Normal coordValidation
         else validatePolygon_loop rest)%completion
  end.

Definition validatePolygon (polygon : JsValue) : Completion ValidationResult :=
  (bad <- (if negb (Array_isArray polygon) then Normal true
           else length_lt StringToNumber NumberToString polygon 3) ;;
   if bad then Normal (invalid polygon_error)
   else
     coords <- iterate polygon ;;
     validatePolygon_loop coords)%completion.

(** The coordinate check of the JavaScript server (server.js), which
    accepts instead of rejecting. *)
Definition isValidCoordinate (lat lng : JsValue) : Completion bool :=
  (ge lat (JS.of_Z (-90)) &&& le lat (JS.of_Z 90)
   &&& ge lng (JS.of_Z (-180)) &&& le lng (JS.of_Z 180))%completion.

End Validators.

(** The ranges of a coordinate pair (spec, section 3): [-90 <= lat <= 90]
    and [-180 <= lng <= 180], with the IEEE comparisons, which [NaN]
    fails. *)
Definition in_range (lat lng : JS.number) : bool :=
  JS.le (JS.of_Z (-90)) lat && JS.le lat (JS.of_Z 90)
  && JS.le (JS.of_Z (-180)) lng && JS.le lng (JS.of_Z 180).

Definition is_NaN (x : JS.number) : bool :=
  match x with
  | S754_nan => true
  | _ => false
  end.

(** A vertex as the spec asks for it: a pair of numbers within the
    ranges. *)
Definition coordinate_pair (v : JsValue) : bool :=
  match v with
  | JArr [JNum lat; JNum lng] => in_range lat lng
  | _ => false
  end.

(** A vertex of the declared type [number[]] without [NaN]: when it has
    two elements, both are numbers other than [NaN]. *)
Definition numeric_vertex (v : JsValue) : bool :=
  match v with
  | JArr [JNum lat; JNum lng] => negb (is_NaN lat) && negb (is_NaN lng)
  | JArr [_; _] => false
  | _ => true
  end.

(** An object whose own [toString] property is the number 1, as
    [JSON.parse] returns it for the text [{"toString":1}]. *)
Definition opaque_object : JsValue := JObj [("toString", JNum (JS.of_Z 1))].

(* ================================================================== *)
(** ** Response types (types.ts) *)

Module Coordinates.
Record t : Type := { lat : JS.number; lng : JS.number }.
End Coordinates.

Module NeighborInfo.
Record t : Type := { hash : string; center : Coordinates.t }.
End NeighborInfo.

Module NeighborsResponse.
Record t : Type := {
  hash : string;
  k : JS.number;
  neighbors : list NeighborInfo.t;
  count : nat;
  resolution : JS.number
}.
End NeighborsResponse.

Module DetailedZoneInfo.
Record t : Type := {
  hash : string;
  resolution : JS.number;
  center : Coordinates.t;
  boundary : list Coordinates.t;
  neighbors : list string;
  parent : option string;
  children : list string;
  childrenCount : nat
}.
End DetailedZoneInfo.

Module BoundingBox.
Record t : Type := {
  minLat : JS.number;
  minLng : JS.number;
  maxLat : JS.number;
  maxLng : JS.number
}.
End BoundingBox.

Module ZonesInAreaResponse.
Record t : Type := {
  boundingBox : BoundingBox.t;
  resolution : JS.number;
  zones : list NeighborInfo.t;
  count : nat
}.
End ZonesInAreaResponse.

Module ZonesInRadiusResponse.
Record t : Type := {
  center : Coordinates.t;
  radius : JS.number;
  resolution : JS.number;
  estimatedK : JS.number;
  zones : list NeighborInfo.t;
  count : nat;
  note : string
}.
End ZonesInRadiusResponse.

Module ZonesInPolygonResponse.
Record t : Type := {
  polygon : JsValue;
  resolution : JS.number;
  zones : list NeighborInfo.t;
  count : nat
}.
End ZonesInPolygonResponse.

(* ================================================================== *)
(** ** Conversion, lookup and region enumeration
       (GeohashingService.ts, lines 133-308) *)

Definition formatCenter (center : JS.number * JS.number) : Coordinates.t :=
  {| Coordinates.lat := fst center; Coordinates.lng := snd center |}.

Definition formatBoundary (boundary : list (JS.number * JS.number))
  : list Coordinates.t :=
  map (fun coord => {| Coordinates.lat := fst coord;
                       Coordinates.lng := snd coord |}) boundary.

Definition formatNeighborInfo (hash : string) : Prog NeighborInfo.t :=
  (center <- call (cellToLatLng hash) ;;
   Ret {| NeighborInfo.hash := hash;
          NeighborInfo.center := formatCenter center |})%prog.

(** [k] is optional in the source and defaults to 1. *)
Definition getNeighbors (hash : string) (k : option JS.number)
  : Prog NeighborsResponse.t :=
  let k := match k with Some k => k | None => JS.of_Z 1 end in
  (neighbors <- call (gridDisk hash k) ;;
   infos <- mapP formatNeighborInfo neighbors ;;
   resolution <- call (getResolution hash) ;;
   Ret {| NeighborsResponse.hash := hash;
          NeighborsResponse.k := k;
          NeighborsResponse.neighbors := infos;
          NeighborsResponse.count := List.length neighbors;
          NeighborsResponse.resolution := resolution |})%prog.

Definition getDetailedZoneInfo (hash : string) : Prog DetailedZoneInfo.t :=
  (center <- call (cellToLatLng hash) ;;
   boundary <- call (cellToBoundary hash) ;;
   resolution <- call (getResolution hash) ;;
   disk <- call (gridDisk hash (JS.of_Z 1)) ;;
   let neighbors := filter (fun h => negb (String.eqb h hash)) disk in
   parent <- (if JS.gt resolution (JS.of_Z 0)
              then p <- call (cellToParent hash (JS.sub resolution (JS.of_Z 1))) ;;
                   Ret (Some p)
              else Ret None) ;;
   children <- (if JS.lt resolution (JS.of_Z 15)
                then call (cellToChildren hash (JS.add resolution (JS.of_Z 1)))
                else Ret []) ;;
   Ret {| DetailedZoneInfo.hash := hash;
          DetailedZoneInfo.resolution := resolution;
          DetailedZoneInfo.center := formatCenter center;
          DetailedZoneInfo.boundary := formatBoundary boundary;
          DetailedZoneInfo.neighbors := neighbors;
          DetailedZoneInfo.parent := parent;
          DetailedZoneInfo.children := firstn 10 children;
          DetailedZoneInfo.childrenCount := List.length children |})%prog.

(** The polygon [getZonesInArea] builds for its bounding box. *)
Definition box_ring (boundingBox : BoundingBox.t) : JsValue :=
  let minLat := BoundingBox.minLat boundingBox in
  let minLng := BoundingBox.minLng boundingBox in
  let maxLat := BoundingBox.maxLat boundingBox in
  let maxLng := BoundingBox.maxLng boundingBox in
  JArr [ JArr [JNum minLat; JNum minLng];
         JArr [JNum minLat; JNum maxLng];
         JArr [JNum maxLat; JNum maxLng];
         JArr [JNum maxLat; JNum minLng];
         JArr [JNum minLat; JNum minLng] ].

Definition getZonesInArea (boundingBox : BoundingBox.t) (resolution : JS.number)
  : Prog ZonesInAreaResponse.t :=
  let polygon := box_ring boundingBox in
  (zones <- call (polygonToCells polygon resolution) ;;
   infos <- mapP formatNeighborInfo zones ;;
   Ret {| ZonesInAreaResponse.boundingBox := boundingBox;
          ZonesInAreaResponse.resolution := resolution;
          ZonesInAreaResponse.zones := infos;
          ZonesInAreaResponse.count := List.length zones |})%prog.

Definition radius_note : string :=
  "This is an approximation. For precise radius filtering, calculate actual distances from center.".

Definition getZonesInRadius (center : Coordinates.t) (radius resolution : JS.number)
  : Prog ZonesInRadiusResponse.t :=
  let lat := Coordinates.lat center in
  let lng := Coordinates.lng center in
  (centerHash <- call (latLngToCell lat lng resolution) ;;
   let k := JS.Math_max (JS.of_Z 1) (JS.Math_ceil (JS.div radius (JS.of_Z 1000))) in
   zones <- call (gridDisk centerHash (JS.Math_min k (JS.of_Z 10))) ;;
   infos <- mapP formatNeighborInfo zones ;;
   Ret {| ZonesInRadiusResponse.center := center;
          ZonesInRadiusResponse.radius := radius;
          ZonesInRadiusResponse.resolution := resolution;
          ZonesInRadiusResponse.estimatedK := k;
          ZonesInRadiusResponse.zones := infos;
          ZonesInRadiusResponse.count := List.length zones;
          ZonesInRadiusResponse.note := radius_note |})%prog.

Definition getZonesInPolygon (polygon : JsValue) (resolution : JS.number)
  : Prog ZonesInPolygonResponse.t :=
  (zones <- call (polygonToCells polygon resolution) ;;
   infos <- mapP formatNeighborInfo zones ;;
   Ret {| ZonesInPolygonResponse.polygon := polygon;
          ZonesInPolygonResponse.resolution := resolution;
          ZonesInPolygonResponse.zones := infos;
          ZonesInPolygonResponse.count := List.length zones |})%prog.


(* ================================================================== *)
(** ** A sample library and sample inputs *)

(** A library with fixed answers: every disk is the origin and one more
    cell, every cell has resolution 9 and seven children, and one hash is
    a valid cell. *)
Definition sample_lib : H3Lib :=
  fun c =>
    match c return Completion (H3Ret c) with
    | latLngToCell _ _ _ => Normal "892830826cfffff"
    | cellToLatLng _ => Normal (JS.of_Z 37, JS.of_Z (-122))
    | cellToBoundary _ => Normal [(JS.of_Z 37, JS.of_Z (-122))]
    | gridDisk h _ => Normal [h; "892830826c7ffff"]
    | polygonToCells _ _ => Normal ["892830826cfffff"; "892830826c7ffff"]
    | cellToChildren _ _ =>
        Normal ["8a2830826c87fff"; "8a2830826c8ffff"; "8a2830826c97fff";
                "8a2830826c9ffff"; "8a2830826ca7fff"; "8a2830826caffff";
                "8a2830826cb7fff"]
    | cellToParent _ _ => Normal "882830826dfffff"
    | getResolution _ => Normal (JS.of_Z 9)
    | areNeighborCells _ _ => Normal true
    | isValidCell (JStr s) => Normal (String.eqb s "892830826cfffff")
    | isValidCell _ => Normal false
    end.

Definition sample_hash : string := "892830826cfffff".

Definition san_francisco : Coordinates.t :=
  {| Coordinates.lat := JS.of_Z 37; Coordinates.lng := JS.of_Z (-122) |}.

Definition sample_box : BoundingBox.t :=
  {| BoundingBox.minLat := JS.of_Z 37; BoundingBox.minLng := JS.of_Z (-123);
     BoundingBox.maxLat := JS.of_Z 38; BoundingBox.maxLng := JS.of_Z (-122) |}.

(** An open triangle: the last vertex differs from the first. *)
Definition sample_triangle : JsValue :=
  JArr [ JArr [JNum (JS.of_Z 0); JNum (JS.of_Z 0)];
         JArr [JNum (JS.of_Z 0); JNum (JS.of_Z 1)];
         JArr [JNum (JS.of_Z 1); JNum (JS.of_Z 1)] ].

Definition sample_vertex : JsValue := JArr [JNum (JS.of_Z 0); JNum (JS.of_Z 0)].

(** Coercions taken for the examples: no string reads as a number. *)
Definition sample_StringToNumber (_ : string) : JS.number := JS.NaN.
Definition sample_NumberToString (_ : JS.number) : string := "NaN".

(* ================================================================== *)
(** ** Remaining service functions (GeohashingService.ts) *)

Module ZoneInput.
Record t : Type := { lat : JS.number; lng : JS.number; resolution : JS.number }.
End ZoneInput.

Module ZoneInfo.
Record t : Type := {
  hash : string;
  center : Coordinates.t;
  resolution : JS.number
}.
End ZoneInfo.

Module ZoneResponse.
Record t : Type := {
  hash : string;
  input : ZoneInput.t;
  center : Coordinates.t;
  resolution : JS.number
}.
End ZoneResponse.

Module BoundaryResponse.
Record t : Type := {
  hash : string;
  boundary : list Coordinates.t;
  resolution : JS.number
}.
End BoundaryResponse.

Module ResolutionInfo.
Record t : Type := {
  resolution : JS.number;
  avgHexagonEdgeLength : string;
  avgHexagonArea : string
}.
End ResolutionInfo.

Module ResolutionsResponse.
Record t : Type := {
  description : string;
  resolutions : list ResolutionInfo.t;
  usage : list (string * string)
}.
End ResolutionsResponse.

Definition resolution_info (r : Z) (edge area : string) : ResolutionInfo.t :=
  {| ResolutionInfo.resolution := JS.of_Z r;
     ResolutionInfo.avgHexagonEdgeLength := edge;
     ResolutionInfo.avgHexagonArea := area |}.

Definition RESOLUTION_INFO : list ResolutionInfo.t :=
  [ resolution_info 0 "1107.712591 km" "4250546.848 km²";
    resolution_info 1 "418.676005 km" "607220.9782 km²";
    resolution_info 2 "158.244655 km" "86745.85403 km²";
    resolution_info 3 "59.810857 km" "12392.26486 km²";
    resolution_info 4 "22.606379 km" "1770.323552 km²";
    resolution_info 5 "8.544408 km" "252.9033645 km²";
    resolution_info 6 "3.229482 km" "36.1290521 km²";
    resolution_info 7 "1.220629 km" "5.1612932 km²";
    resolution_info 8 "461.354684 m" "0.7373276 km²";
    resolution_info 9 "174.375668 m" "0.1053325 km²";
    resolution_info 10 "65.907807 m" "15042.5 m²";
    resolution_info 11 "24.910561 m" "2149.1 m²";
    resolution_info 12 "9.415526 m" "307.71 m²";
    resolution_info 13 "3.559893 m" "43.96 m²";
    resolution_info 14 "1.348575 m" "6.28 m²";
    resolution_info 15 "0.509713 m" "0.90 m²" ].

Definition getZone (lat lng resolution : JS.number) : Prog ZoneResponse.t :=
  (hash <- call (latLngToCell lat lng resolution) ;;
   center <- call (cellToLatLng hash) ;;
   cellResolution <- call (getResolution hash) ;;
   Ret {| ZoneResponse.hash := hash;
          ZoneResponse.input := {| ZoneInput.lat := lat;
                                   ZoneInput.lng := lng;
                                   ZoneInput.resolution := resolution |};
          ZoneResponse.center := formatCenter center;
          ZoneResponse.resolution := cellResolution |})%prog.

Definition getZoneCenter (hash : string) : Prog ZoneInfo.t :=
  (center <- call (cellToLatLng hash) ;;
   resolution <- call (getResolution hash) ;;
   Ret {| ZoneInfo.hash := hash;
          ZoneInfo.center := formatCenter center;
          ZoneInfo.resolution := resolution |})%prog.

Definition getZoneBoundary (hash : string) : Prog BoundaryResponse.t :=
  (boundary <- call (cellToBoundary hash) ;;
   resolution <- call (getResolution hash) ;;
   Ret {| BoundaryResponse.hash := hash;
          BoundaryResponse.boundary := formatBoundary boundary;
          BoundaryResponse.resolution := resolution |})%prog.

Definition getResolutionsInfo : ResolutionsResponse.t :=
  {| ResolutionsResponse.description := "H3 resolution levels with approximate sizes";
     ResolutionsResponse.resolutions := RESOLUTION_INFO;
     ResolutionsResponse.usage :=
       [ ("Country level", "Resolution 0-2");
         ("State/Province level", "Resolution 3-4");
         ("City level", "Resolution 5-7");
         ("Neighborhood level", "Resolution 8-10");
         ("Building level", "Resolution 11-13");
         ("Room level", "Resolution 14-15") ] |}.

Definition areNeighbors (hash1 hash2 : string) : Prog bool :=
  call (areNeighborCells hash1 hash2).

(** What one enriched cell is: the cell, with the centre the library gives. *)
Definition enriched (lib : H3Lib) (h : string) (info : NeighborInfo.t) : Prop :=
  NeighborInfo.hash info = h /\
  lib (cellToLatLng h) =
    Normal (Coordinates.lat (NeighborInfo.center info),
            Coordinates.lng (NeighborInfo.center info)).

(* ================================================================== *)
(** ** Configuration parsing (src/index.ts, lines 13-23)

    Strings are sequences of code units below 256. *)

(** The white space [String.prototype.trim] removes, among the code units
    below 256: tab, line feed, vertical tab, form feed, carriage return,
    space and no-break space. *)
Definition is_space (c : Ascii.ascii) : bool :=
  let n := Ascii.nat_of_ascii c in
  (Nat.leb 9 n && Nat.leb n 13) || Nat.eqb n 32 || Nat.eqb n 160.

Definition comma : Ascii.ascii := Ascii.ascii_of_nat 44.
Definition space : Ascii.ascii := Ascii.ascii_of_nat 32.

(** [s.split(',')]: the pieces between commas, at least one. *)
Fixpoint split_comma (s : string) : list string :=
  match s with
  | EmptyString => [EmptyString]
  | String c rest =>
      if Ascii.eqb c comma then EmptyString :: split_comma rest
      else match split_comma rest with
           | piece :: pieces => String c piece :: pieces
           | [] => [String c EmptyString]
           end
  end.

Fixpoint trim_start (s : string) : string :=
  match s with
  | EmptyString => EmptyString
  | String c rest => if is_space c then trim_start rest else s
  end.

Fixpoint trim_end (s : string) : string :=
  match s with
  | EmptyString => EmptyString
  | String c rest =>
      match trim_end rest with
      | EmptyString => if is_space c then EmptyString else String c EmptyString
      | rest' => String c rest'
      end
  end.

(** [s.trim()]. *)
Definition trim (s : string) : string := trim_end (trim_start s).

(** [value] is [undefined] or a string. *)
Definition parseEnvList (value : option string) : list string :=
  match value with
  | None => []
  | Some EmptyString => []
  | Some v =>
      filter (fun v => Nat.ltb 0 (String.length v)) (map trim (split_comma v))
  end.

(** [a || b] on two environment variables. *)
Definition env_or (a b : option string) : option string :=
  match a with
  | None | Some EmptyString => b
  | Some _ => a
  end.

(** [allowedOrigins] and [apiKeys] as computed at start-up from the
    environment variables CORS_ALLOWED_ORIGINS, ALLOWED_ORIGINS and
    API_KEYS. *)
Definition allowedOrigins_of (CORS_ALLOWED_ORIGINS ALLOWED_ORIGINS : option string)
  : list string :=
  parseEnvList (env_or CORS_ALLOWED_ORIGINS ALLOWED_ORIGINS).

Definition apiKeys_of (API_KEYS : option string) : list string :=
  parseEnvList API_KEYS.

(** [allowed.includes(s)] on strings. *)
Definition includes (l : list string) (s : string) : bool :=
  existsb (fun x => String.eqb x s) l.

(** The [origin] callback of [corsOptions] (lines 42-58): [Normal true] for
    [callback(null, true)], [Throw] for [callback(new Error(...))]. *)
Definition corsOrigin (allowedOrigins : list string) (origin : option string)
  : Completion bool :=
  match origin with
  | None | Some EmptyString => Normal true
  | Some o =>
      if Nat.eqb (List.length allowedOrigins) 0 then Normal true
      else if includes allowedOrigins o then Normal true
      else Throw "Not allowed by CORS"
  end.

(* ================================================================== *)
(** ** Requests, responses and the API key middleware
       (src/index.ts, lines 98-116) *)

(** What a handler reads of a request.  A matched route binds each of its
    named parameters to a string; an absent query parameter or header is
    [undefined]. *)
Record Request : Type := {
  params : string -> string;
  query : string -> JsValue;
  headers : string -> JsValue;
  body : JsValue
}.

Inductive Json : Type :=
| JsonError (error : string) (message : option string)
| JsonZone (r : ZoneResponse.t)
| JsonZoneInfo (r : ZoneInfo.t)
| JsonBoundary (r : BoundaryResponse.t)
| JsonNeighbors (r : NeighborsResponse.t)
| JsonDetail (r : DetailedZoneInfo.t)
| JsonArea (r : ZonesInAreaResponse.t)
| JsonRadius (r : ZonesInRadiusResponse.t)
| JsonPolygon (r : ZonesInPolygonResponse.t)
| JsonResolutions (r : ResolutionsResponse.t).

Record Response : Type := { status : nat; json : Json }.

Definition sendError (statusCode : nat) (error : string) (message : option string)
  : Response :=
  {| status := statusCode; json := JsonError error message |}.

(** [res.json(result)]: status 200. *)
Definition send (result : Json) : Response :=
  {| status := 200; json := result |}.

(** [!v] is [negb (ToBoolean v)]. *)
Definition ToBoolean (v : JsValue) : bool :=
  match v with
  | JUndefined | JNull => false
  | JBool b => b
  | JNum (S754_zero _) | JNum S754_nan => false
  | JNum _ => true
  | JStr EmptyString => false
  | JStr _ => true
  | JArr _ | JObj _ => true
  end.

(** [a || b]. *)
Definition js_or (a b : JsValue) : JsValue := if ToBoolean a then a else b.

(** [const { key } = v]: [TypeError] on [undefined] and [null]. *)
Definition get_property (v : JsValue) (key : string) : Completion JsValue :=
  match v with
  | JUndefined | JNull => Throw TypeError
  | JObj fields => Normal (lookup_field key fields)
  | _ => Normal JUndefined
  end.

Inductive Outcome : Type :=
| Next
| Sent (r : Response).

(** [apiKeys.includes(providedKey)]: only a string equals a string. *)
Definition includes_value (l : list string) (v : JsValue) : bool :=
  match v with
  | JStr s => includes l s
  | _ => false
  end.

Definition apiKeyMiddleware (apiKeys : list string) (apiKeyHeaderName : string)
           (req : Request) : Outcome :=
  if Nat.eqb (List.length apiKeys) 0 then Next
  else
    let headerValue := js_or (headers req apiKeyHeaderName)
                             (headers req apiKeyHeaderName) in
    let providedKey := match headerValue with
                       | JArr l => nth 0 l JUndefined
                       | _ => headerValue
                       end in
    if negb (ToBoolean providedKey)
    then Sent (sendError 401 "Unauthorized"
                 (Some ("Missing API key in header " ++ apiKeyHeaderName)%string))
    else if negb (includes_value apiKeys providedKey)
    then Sent (sendError 403 "Forbidden" (Some "Invalid API key"))
    else Next.

(* ================================================================== *)
(** ** Route handlers (src/index.ts, lines 154-373) *)

(** Handler code: service code that may also throw on its own.  A run
    gives the calls made and either an exception of the library, or what
    the code itself completed with. *)
Definition Action (A : Type) : Type := Prog (Completion A).

(** Sequencing: after an exception nothing more is done. *)
Definition abind {A B} (a : Action A) (f : A -> Action B) : Action B :=
  pbind a (fun c => match c with
                    | Normal x => f x
                    | Throw e => Ret (Throw e)
                    end).

(** Code that does not call the library. *)
Definition eval {A} (c : Completion A) : Action A := Ret c.

(** Service code. *)
Definition perform {A} (p : Prog A) : Action A :=
  pbind p (fun a => Ret (Normal a)).

Declare Scope action_scope.
Delimit Scope action_scope with action.
Notation "x <- c ;; k" := (abind c (fun x => k))
  (at level 61, c at next level, right associativity) : action_scope.

(** The completion of a run, whoever threw. *)
Definition outcome {A} (lib : H3Lib) (a : Action A) : Completion A :=
  match result lib a with
  | Normal c => c
  | Throw e => Throw e
  end.

(** The body of a handler's [try] block. *)
Definition Handler : Type := Request -> Action Response.

(** [try { ... } catch (error) { sendError(res, 500, ..., error.message) }]. *)
Definition internal_error (message : string) : Response :=
  sendError 500 "Internal server error" (Some message).

Definition respond (lib : H3Lib) (attempt : Action Response) : Response :=
  match outcome lib attempt with
  | Normal r => r
  | Throw e => internal_error e
  end.

(** The library calls made while a request is handled. *)
Definition handler_calls (lib : H3Lib) (attempt : Action Response)
  : list H3Call :=
  calls lib attempt.

(** [app.get(path, apiKeyMiddleware, handler)]. *)
Definition route (apiKeys : list string) (apiKeyHeaderName : string)
           (handler : Handler) (lib : H3Lib) (req : Request) : Response :=
  match apiKeyMiddleware apiKeys apiKeyHeaderName req with
  | Sent r => r
  | Next => respond lib (handler req)
  end.

(** [return sendError(res, ...)]. *)
Definition answer (r : Response) : Action Response := eval (Normal r).

(** Answer with [result], serialised by [wrap]. *)
Definition reply {A} (wrap : A -> Json) (p : Prog A) : Action Response :=
  (result <- perform p ;; answer (send (wrap result)))%action.

Section Server.

(** What [parseFloat] and [parseInt] read in a string: the number its
    longest numeric prefix denotes, [NaN] when there is none. *)
Variable parseFloat_of_string : string -> JS.number.
Variable parseInt_of_string : string -> JS.number.
Variable StringToNumber : string -> JS.number.
Variable NumberToString : JS.number -> string.

(** The global functions [parseFloat] and [parseInt]: the argument is
    first converted to a string. *)
Definition parseFloat (v : JsValue) : Completion JS.number :=
  (inputString <- ToString NumberToString v ;;
   Normal (parseFloat_of_string inputString))%completion.

Definition parseInt (v : JsValue) : Completion JS.number :=
  (inputString <- ToString NumberToString v ;;
   Normal (parseInt_of_string inputString))%completion.

Local Abbreviation validateCoordinates' :=
  (validateCoordinates StringToNumber NumberToString).
Local Abbreviation validateResolution' :=
  (validateResolution StringToNumber NumberToString).
Local Abbreviation validateKValue' :=
  (validateKValue StringToNumber NumberToString).
Local Abbreviation validatePolygon' :=
  (validatePolygon StringToNumber NumberToString).

(** GET /zone/:lat/:lng/:resolution *)
Definition zoneHandler : Handler := fun req =>
  (lat <- eval (parseFloat (JStr (params req "lat"))) ;;
   lng <- eval (parseFloat (JStr (params req "lng"))) ;;
   resolution <- eval (parseInt (JStr (params req "resolution"))) ;;
   coordValidation <- eval (validateCoordinates' (JNum lat) (JNum lng)) ;;
   if negb (isValid coordValidation)
   then answer (sendError 400 "Invalid coordinates" (error coordValidation))
   else
     resolutionValidation <- eval (validateResolution' (JNum resolution)) ;;
     if negb (isValid resolutionValidation)
     then answer (sendError 400 "Invalid resolution" (error resolutionValidation))
     else reply JsonZone (getZone lat lng resolution))%action.

(** GET /zone/:hash/center *)
Definition centerHandler : Handler := fun req =>
  let hash := params req "hash" in
  (hashValidation <- perform (validateCellHash (JStr hash)) ;;
   if negb (isValid hashValidation)
   then answer (sendError 400 "Invalid H3 hash" (error hashValidation))
   else reply JsonZoneInfo (getZoneCenter hash))%action.

(** GET /zone/:hash/boundary *)
Definition boundaryHandler : Handler := fun req =>
  let hash := params req "hash" in
  (hashValidation <- perform (validateCellHash (JStr hash)) ;;
   if negb (isValid hashValidation)
   then answer (sendError 400 "Invalid H3 hash" (error hashValidation))
   else reply JsonBoundary (getZoneBoundary hash))%action.

(** [parseInt(req.query.k) || 1] *)
Definition k_or_default (k : JS.number) : JS.number :=
  if ToBoolean (JNum k) then k else JS.of_Z 1.

(** GET /zone/:hash/neighbors *)
Definition neighborsHandler : Handler := fun req =>
  let hash := params req "hash" in
  (parsed <- eval (parseInt (query req "k")) ;;
   let k := k_or_default parsed in
   hashValidation <- perform (validateCellHash (JStr hash)) ;;
   if negb (isValid hashValidation)
   then answer (sendError 400 "Invalid H3 hash" (error hashValidation))
   else
     kValidation <- eval (validateKValue' (JNum k)) ;;
     if negb (isValid kValidation)
     then answer (sendError 400 "Invalid k value" (error kValidation))
     else reply JsonNeighbors (getNeighbors hash (Some k)))%action.

(** GET /zone/:hash/info *)
Definition infoHandler : Handler := fun req =>
  let hash := params req "hash" in
  (hashValidation <- perform (validateCellHash (JStr hash)) ;;
   if negb (isValid hashValidation)
   then answer (sendError 400 "Invalid H3 hash" (error hashValidation))
   else reply JsonDetail (getDetailedZoneInfo hash))%action.

(** GET /zones/area *)
Definition areaHandler : Handler := fun req =>
  let minLat := query req "minLat" in
  let minLng := query req "minLng" in
  let maxLat := query req "maxLat" in
  let maxLng := query req "maxLng" in
  let resolution := query req "resolution" in
  if negb (ToBoolean minLat) || negb (ToBoolean minLng) || negb (ToBoolean maxLat)
     || negb (ToBoolean maxLng) || negb (ToBoolean resolution)
  then answer (sendError 400 "Missing parameters"
                 (Some "Required: minLat, minLng, maxLat, maxLng, resolution"))
  else
    (minLatNum <- eval (parseFloat minLat) ;;
     minLngNum <- eval (parseFloat minLng) ;;
     maxLatNum <- eval (parseFloat maxLat) ;;
     maxLngNum <- eval (parseFloat maxLng) ;;
     resolutionNum <- eval (parseInt resolution) ;;
     minCoordValidation <- eval (validateCoordinates' (JNum minLatNum) (JNum minLngNum)) ;;
     maxCoordValidation <- eval (validateCoordinates' (JNum maxLatNum) (JNum maxLngNum)) ;;
     if negb (isValid minCoordValidation) || negb (isValid maxCoordValidation)
     then answer (sendError 400 "Invalid coordinates"
                    (Some "All coordinates must be valid lat/lng values"))
     else
       resolutionValidation <- eval (validateResolution' (JNum resolutionNum)) ;;
       if negb (isValid resolutionValidation)
       then answer (sendError 400 "Invalid resolution" (error resolutionValidation))
       else
         let boundingBox := {| BoundingBox.minLat := minLatNum;
                               BoundingBox.minLng := minLngNum;
                               BoundingBox.maxLat := maxLatNum;
                               BoundingBox.maxLng := maxLngNum |} in
         reply JsonArea (getZonesInArea boundingBox resolutionNum))%action.

(** GET /zones/radius *)
Definition radiusHandler : Handler := fun req =>
  let lat := query req "lat" in
  let lng := query req "lng" in
  let radius := query req "radius" in
  let resolution := query req "resolution" in
  if negb (ToBoolean lat) || negb (ToBoolean lng) || negb (ToBoolean radius)
     || negb (ToBoolean resolution)
  then answer (sendError 400 "Missing parameters"
                 (Some "Required: lat, lng, radius (in meters), resolution"))
  else
    (latNum <- eval (parseFloat lat) ;;
     lngNum <- eval (parseFloat lng) ;;
     radiusNum <- eval (parseFloat radius) ;;
     resolutionNum <- eval (parseInt resolution) ;;
     coordValidation <- eval (validateCoordinates' (JNum latNum) (JNum lngNum)) ;;
     if negb (isValid coordValidation)
     then answer (sendError 400 "Invalid coordinates" (error coordValidation))
     else
       resolutionValidation <- eval (validateResolution' (JNum resolutionNum)) ;;
       if negb (isValid resolutionValidation)
       then answer (sendError 400 "Invalid resolution" (error resolutionValidation))
       else
         let center := {| Coordinates.lat := latNum; Coordinates.lng := lngNum |} in
         reply JsonRadius (getZonesInRadius center radiusNum resolutionNum))%action.

(** POST /zones/polygon *)
Definition polygonHandler : Handler := fun req =>
  (polygon <- eval (get_property (body req) "polygon") ;;
   resolution <- eval (get_property (body req) "resolution") ;;
   if negb (ToBoolean polygon) || negb (ToBoolean resolution)
   then answer (sendError 400 "Missing parameters"
                  (Some "Required: polygon (array of [lat, lng] coordinates), resolution"))
   else
     resolutionNum <- eval (parseInt resolution) ;;
     resolutionValidation <- eval (validateResolution' (JNum resolutionNum)) ;;
     if negb (isValid resolutionValidation)
     then answer (sendError 400 "Invalid resolution" (error resolutionValidation))
     else
       polygonValidation <- eval (validatePolygon' polygon) ;;
       if negb (isValid polygonValidation)
       then answer (sendError 400 "Invalid polygon" (error polygonValidation))
       else reply JsonPolygon (getZonesInPolygon polygon resolutionNum))%action.

(** GET /resolutions *)
Definition resolutionsHandler : Handler := fun _ =>
  answer (send (JsonResolutions getResolutionsInfo)).

(** The nine API routes. *)
Definition api_handlers : list Handler :=
  [ zoneHandler; centerHandler; boundaryHandler; neighborsHandler; infoHandler;
    areaHandler; radiusHandler; polygonHandler; resolutionsHandler ].

(** The check of resolutions in the JavaScript server (server.js). *)
Definition isValidResolution (resolution : JsValue) : Completion bool :=
  (js_ge StringToNumber NumberToString resolution (JS.of_Z 0)
   &&& js_le StringToNumber NumberToString resolution (JS.of_Z 15))%completion.

(** GET /zone/:lat/:lng/:resolution in the JavaScript server. *)
Definition zoneHandler_js : Handler := fun req =>
  (lat <- eval (parseFloat (JStr (params req "lat"))) ;;
   lng <- eval (parseFloat (JStr (params req "lng"))) ;;
   resolution <- eval (parseInt (JStr (params req "resolution"))) ;;
   coordinatesOk <- eval (isValidCoordinate StringToNumber NumberToString
                            (JNum lat) (JNum lng)) ;;
   if negb coordinatesOk
   then answer (sendError 400 "Invalid coordinates" (Some coordinates_error))
   else
     resolutionOk <- eval (isValidResolution (JNum resolution)) ;;
     if negb resolutionOk
     then answer (sendError 400 "Invalid resolution"
                    (Some "Resolution must be between 0 and 15"))
     else reply JsonZone (getZone lat lng resolution))%action.

End Server.

(** A number that is a zero, or negative (finite or infinite). *)
Definition nonpositive (x : JS.number) : Prop :=
  match x with
  | S754_zero _ => True
  | S754_infinity s => s = true
  | S754_finite s _ _ => s = true
  | S754_nan => False
  end.

Fixpoint no_comma (s : string) : bool :=
  match s with
  | EmptyString => true
  | String c rest => negb (Ascii.eqb c comma) && no_comma rest
  end.

(** A string that is empty or starts with a character that is not white
    space. *)
Definition starts_clean (s : string) : Prop :=
  match s with
  | EmptyString => True
  | String c _ => is_space c = false
  end.

(** An entry as [parseEnvList] produces them: not empty, without comma,
    and without white space at either end. *)
Definition clean_entry (s : string) : Prop :=
  s <> EmptyString /\ no_comma s = true /\ trim s = s.

(** The key a request presents: the header, or its first value when the
    header was sent several times. *)
Definition providedKey (apiKeyHeaderName : string) (req : Request) : JsValue :=
  match headers req apiKeyHeaderName with
  | JArr l => nth 0 l JUndefined
  | v => v
  end.

(** Sample requests: the zone of San Francisco at resolution 9, without
    and with an API key. *)
Definition sample_request : Request :=
  {| params := fun name =>
                 if String.eqb name "lat" then "37"
                 else if String.eqb name "lng" then "-122"
                 else if String.eqb name "resolution" then "9"
                 else sample_hash;
     query := fun _ => JUndefined;
     headers := fun _ => JUndefined;
     body := JObj [] |}.

Definition sample_request_with_key : Request :=
  {| params := params sample_request;
     query := query sample_request;
     headers := fun name => if String.eqb name "x-api-key" then JStr "key-one"
                            else JUndefined;
     body := body sample_request |}.

(** What every response of the API satisfies: the status is 200, 400 or
    500; a 200 carries data and any other status an error with a message;
    a 400 is sent before the library is called, the check of a hash by
    [isValidCell] apart. *)
Definition orderly (calls_made : list H3Call) (resp : Response) : Prop :=
  (status resp = 200%nat \/ status resp = 400%nat \/ status resp = 500%nat) /\
  (status resp = 200%nat <-> forall e m, json resp <> JsonError e m) /\
  (status resp <> 200%nat ->
   exists e m, json resp = JsonError e (Some m)) /\
  (status resp = 400%nat ->
   calls_made = [] \/ exists h, calls_made = [isValidCell h]).

(** A request none of whose query values and body properties throws when
    converted, and whose body is an object. *)
Definition convertible_request (req : Request) : Prop :=
  (forall name, coercible (query req name) = true) /\
  exists fields,
    body req = JObj fields /\
    forall name, coercible (lookup_field name fields) = true.

(** The resolution a call hands to the library, for the calls that locate
    or enumerate cells. *)
Definition resolution_argument (c : H3Call) : option JS.number :=
  match c with
  | latLngToCell _ _ res => Some res
  | polygonToCells _ res => Some res
  | _ => None
  end.

(** Parsing, for the sample requests: the few strings they use. *)
Definition sample_parseFloat (s : string) : JS.number :=
  if String.eqb s "37" then JS.of_Z 37
  else if String.eqb s "-122" then JS.of_Z (-122)
  else if String.eqb s "-500" then JS.of_Z (-500)
  else if String.eqb s "0" then JS.of_Z 0
  else JS.NaN.

Definition sample_parseInt (s : string) : JS.number :=
  if String.eqb s "9" then JS.of_Z 9 else JS.NaN.

(** GET /zone/abc/-122/9 *)
Definition sample_request_bad_latitude : Request :=
  {| params := fun name => if String.eqb name "lat" then "abc"
                           else params sample_request name;
     query := query sample_request;
     headers := headers sample_request;
     body := body sample_request |}.

(** GET /zones/radius?lat=37&lng=-122&radius=-500&resolution=9 *)
Definition sample_radius_request : Request :=
  {| params := params sample_request;
     query := fun name =>
                if String.eqb name "lat" then JStr "37"
                else if String.eqb name "lng" then JStr "-122"
                else if String.eqb name "radius" then JStr "-500"
                else if String.eqb name "resolution" then JStr "9"
                else JUndefined;
     headers := headers sample_request;
     body := body sample_request |}.

(** POST /zones/polygon with the body
    {polygon: [[0,0],[0,1],[1,1]], resolution: {toString: 1}}. *)
Definition sample_opaque_request : Request :=
  {| params := params sample_request;
     query := query sample_request;
     headers := headers sample_request;
     body := JObj [("polygon", sample_triangle); ("resolution", opaque_object)] |}.

(** POST /zones/polygon with the body {polygon: [...], resolution: 0}. *)
Definition sample_polygon_request : Request :=
  {| params := params sample_request;
     query := query sample_request;
     headers := headers sample_request;
     body := JObj [("polygon", sample_triangle); ("resolution", JNum (JS.of_Z 0))] |}.

(** GET /zones/area?minLat=37&minLng=37&maxLat=0&maxLng=0&resolution=9:
    the minima are above the maxima. *)
Definition sample_inverted_box_request : Request :=
  {| params := params sample_request;
     query := fun name =>
                if String.eqb name "minLat" then JStr "37"
                else if String.eqb name "minLng" then JStr "37"
                else if String.eqb name "maxLat" then JStr "0"
                else if String.eqb name "maxLng" then JStr "0"
                else if String.eqb name "resolution" then JStr "9"
                else JUndefined;
     headers := headers sample_request;
     body := body sample_request |}.
(* ================================================================== *)
(** ** Facts about numbers *)

Local Open Scope list_scope.
Local Open Scope Z_scope.

Lemma digits2_pos_bounds (m : positive) :
  2 ^ (Z.pos (digits2_pos m) - 1) <= Z.pos m < 2 ^ Z.pos (digits2_pos m).
Proof.
  induction m as [p IH | p IH | ]; simpl digits2_pos.
  - rewrite Pos2Z.inj_succ.
    replace (Z.succ (Z.pos (digits2_pos p)) - 1) with (Z.succ (Z.pos (digits2_pos p) - 1)) by lia.
    rewrite !Z.pow_succ_r by lia. lia.
  - rewrite Pos2Z.inj_succ.
    replace (Z.succ (Z.pos (digits2_pos p)) - 1) with (Z.succ (Z.pos (digits2_pos p) - 1)) by lia.
    rewrite !Z.pow_succ_r by lia. lia.
  - simpl. lia.
Qed.

(** A binary64 mantissa has at most 53 bits. *)
Lemma is_double_mantissa s m e :
  JS.is_double (S754_finite s m e) = true ->
  Z.pos m < 2 ^ 53 /\
  (Z.pos (digits2_pos m) = 53 \/ e = -1074).
Proof.
  unfold JS.is_double, valid_binary, bounded, canonical_mantissa, fexp, emin.
  unfold JS.prec, JS.emax.
  intros H. apply andb_true_iff in H. destruct H as [H _].
  apply Z.eqb_eq in H.
  pose proof (digits2_pos_bounds m) as [_ Hm].
  assert (Hd : Z.pos (digits2_pos m) <= 53) by lia.
  split.
  - eapply Z.lt_le_trans; [exact Hm|]. apply Z.pow_le_mono_r; lia.
  - lia.
Qed.

Lemma NaN_lt_false (c : JS.number) : JS.lt JS.NaN c = false.
Proof. reflexivity. Qed.

Lemma NaN_gt_false (c : JS.number) : JS.gt JS.NaN c = false.
Proof. destruct c; reflexivity. Qed.

Lemma NaN_ge_false (c : JS.number) : JS.ge JS.NaN c = false.
Proof. destruct c; reflexivity. Qed.

Lemma NaN_le_false (c : JS.number) : JS.le JS.NaN c = false.
Proof. reflexivity. Qed.

(** Swapping the operands of a comparison swaps its outcome. *)
Lemma SFcompare_swap (x y : JS.number) :
  SFcompare y x = option_map CompOpp (SFcompare x y).
Proof.
  destruct x as [sx | sx | | sx mx ex], y as [sy | sy | | sy my ey];
    try destruct sx; try destruct sy; try reflexivity;
    simpl; rewrite (Z.compare_antisym ey ex);
    destruct (ey ?= ex); simpl; try reflexivity;
    pose proof (Pos.compare_cont_antisym mx my Eq) as H; simpl in H;
    rewrite H; reflexivity.
Qed.

(** Away from [NaN], [x < y] is the negation of [x >= y]. *)
Lemma lt_is_not_ge (x y : JS.number) :
  x <> JS.NaN -> y <> JS.NaN -> SFltb x y = negb (SFleb y x).
Proof.
  intros Hx Hy. unfold SFltb, SFleb.
  rewrite (SFcompare_swap x y).
  destruct (SFcompare x y) as [[ | | ] | ] eqn:Hc; try reflexivity.
  exfalso. destruct x, y; try discriminate; unfold JS.NaN in *; congruence.
Qed.

Lemma of_Z_0 : JS.of_Z 0 = S754_zero false.
Proof. reflexivity. Qed.

Lemma of_Z_15 : JS.of_Z 15 = S754_finite false 8444249301319680 (-49).
Proof. vm_compute. reflexivity. Qed.

(** [Math.ceil], [Math.max] and [Math.min] on a few values: 0.5, -0.5,
    15.001, 15 and [NaN]. *)
Lemma Math_ceil_examples :
  JS.Math_ceil (JS.div (JS.of_Z 1) (JS.of_Z 2)) = JS.of_Z 1 /\
  JS.Math_ceil (JS.div (JS.of_Z (-1)) (JS.of_Z 2)) = S754_zero true /\
  JS.Math_ceil (JS.div (JS.of_Z 15001) (JS.of_Z 1000)) = JS.of_Z 16 /\
  JS.Math_ceil (JS.of_Z 15) = JS.of_Z 15 /\
  JS.Math_ceil JS.NaN = JS.NaN /\
  JS.Math_max (JS.of_Z 1) JS.NaN = JS.NaN /\
  JS.Math_max (JS.of_Z 1) (S754_zero false) = JS.of_Z 1 /\
  JS.Math_min JS.NaN (JS.of_Z 10) = JS.NaN.
Proof. vm_compute. repeat split; reflexivity. Qed.

(** The binary64 values that denote an integer from 0 to 15 are the
    literals [0] ... [15] and [-0]. *)
Lemma int_value_small (x : JS.number) (z : Z) :
  JS.is_double x = true ->
  JS.int_value x = Some z ->
  0 <= z <= 15 ->
  x = JS.of_Z z \/ (z = 0 /\ x = S754_zero true).
Proof.
  intros Hd Hv Hz.
  destruct x as [s | s | | s m e]; unfold JS.int_value in Hv; try discriminate.
  - injection Hv as <-. destruct s; [right | left]; auto.
  - destruct (is_double_mantissa _ _ _ Hd) as [Hm53 Hdig].
    change (2 ^ 53) with 9007199254740992 in Hm53.
    pose proof (digits2_pos_bounds m) as [Hlo _].
    destruct (Z.leb_spec 0 e) as [He | He].
    + (* a non-negative exponent needs a 53-bit mantissa *)
      exfalso.
      assert (Hv' : cond_Zopp s (Z.pos m * 2 ^ e) = z) by congruence.
      clear Hv. rename Hv' into Hv.
      destruct Hdig as [Hdig | ->]; [| lia].
      rewrite Hdig in Hlo. change (53 - 1) with 52 in Hlo.
      assert (1 <= 2 ^ e) by (apply (Z.pow_le_mono_r 2 0 e); lia).
      change (2 ^ 52) with 4503599627370496 in Hlo.
      unfold cond_Zopp in Hv.
      set (t := 2 ^ e) in *. clearbody t.
      destruct s; nia.
    + destruct (Z.eqb_spec (Z.pos m mod 2 ^ (- e)) 0) as [Hmod | Hmod];
        [| discriminate].
      assert (Hv' : cond_Zopp s (Z.pos m / 2 ^ (- e)) = z) by congruence.
      clear Hv. rename Hv' into Hv.
      assert (Hpow : 0 < 2 ^ (- e)) by (apply Z.pow_pos_nonneg; lia).
      assert (Hm : Z.pos m = 2 ^ (- e) * (Z.pos m / 2 ^ (- e))).
      { pose proof (Z.div_mod (Z.pos m) (2 ^ (- e)) ltac:(lia)). lia. }
      assert (Hq : 0 < Z.pos m / 2 ^ (- e)) by nia.
      destruct s; unfold cond_Zopp in Hv; [lia |]. subst z.
      set (q := Z.pos m / 2 ^ (- e)) in *.
      destruct Hdig as [Hdig | ->].
      * rewrite Hdig in Hlo. change (2 ^ (53 - 1)) with 4503599627370496 in Hlo.
        (* 2^52 <= q * 2^(-e) < 2^53 and 1 <= q <= 15 force 49 <= -e <= 52 *)
        assert (Hlow : 49 <= - e).
        { destruct (Z.le_gt_cases 49 (- e)); [assumption | exfalso].
          assert (2 ^ (- e) <= 2 ^ 48) by (apply Z.pow_le_mono_r; lia).
          assert (2 ^ 48 = 281474976710656) by reflexivity. nia. }
        assert (Hhigh : - e <= 52).
        { destruct (Z.le_gt_cases (- e) 52); [assumption | exfalso].
          assert (2 ^ 53 <= 2 ^ (- e)) by (apply Z.pow_le_mono_r; lia).
          change (2 ^ 53) with 9007199254740992 in *. nia. }
        left.
        assert (He' : e = -49 \/ e = -50 \/ e = -51 \/ e = -52) by lia.
        assert (Hq' : q = 1 \/ q = 2 \/ q = 3 \/ q = 4 \/ q = 5 \/ q = 6 \/ q = 7
                      \/ q = 8 \/ q = 9 \/ q = 10 \/ q = 11 \/ q = 12 \/ q = 13
                      \/ q = 14 \/ q = 15) by lia.
        clearbody q.
        destruct He' as [-> | [-> | [-> | ->]]];
          repeat (destruct Hq' as [-> | Hq']); try subst q;
          vm_compute in Hm;
          first [ exfalso; lia
                | injection Hm as ->; vm_compute; reflexivity ].
      * exfalso.
        assert (2 ^ 53 <= 2 ^ (- -1074)) by (apply Z.pow_le_mono_r; lia).
        change (2 ^ 53) with 9007199254740992 in *. nia.
Qed.


(* ================================================================== *)
(** ** Numbers: bounds, signs and rounding *)

Lemma of_Z_1 : JS.of_Z 1 = S754_finite false 4503599627370496 (-52).
Proof. vm_compute. reflexivity. Qed.

Lemma of_Z_10 : JS.of_Z 10 = S754_finite false 5629499534213120 (-49).
Proof. vm_compute. reflexivity. Qed.

(** [Math.max(1, x)] is [NaN] or at least 1. *)
Lemma Math_max_1_lower (x : JS.number) :
  JS.Math_max (JS.of_Z 1) x = JS.NaN \/
  JS.le (JS.of_Z 1) (JS.Math_max (JS.of_Z 1) x) = true.
Proof.
  unfold JS.Math_max, JS.le, SFleb. rewrite of_Z_1.
  destruct (SFcompare (S754_finite false 4503599627370496 (-52)) x)
    as [[ | | ] | ] eqn:Hc.
  - right. reflexivity.
  - right. rewrite Hc. reflexivity.
  - right. reflexivity.
  - left. reflexivity.
Qed.

(** [Math.min(k, 10)] of a [k] that is [NaN] or at least 1 is [NaN] or
    lies between 1 and 10. *)
Lemma Math_min_10_bounds (k : JS.number) :
  k = JS.NaN \/ JS.le (JS.of_Z 1) k = true ->
  JS.Math_min k (JS.of_Z 10) = JS.NaN \/
  (JS.le (JS.of_Z 1) (JS.Math_min k (JS.of_Z 10)) = true /\
   JS.le (JS.Math_min k (JS.of_Z 10)) (JS.of_Z 10) = true).
Proof.
  intros [-> | Hk]; [left; reflexivity |].
  unfold JS.Math_min, JS.le in *. rewrite of_Z_10, of_Z_1 in *.
  destruct (SFcompare k (S754_finite false 5629499534213120 (-49)))
    as [[ | | ] | ] eqn:Hc.
  - right. destruct k as [[ | ] | s | | s m e];
      try (split; [exact Hk | unfold SFleb; rewrite Hc; reflexivity]).
    discriminate Hk.
  - right. split; [exact Hk | unfold SFleb; rewrite Hc; reflexivity].
  - right. split; reflexivity.
  - left. reflexivity.
Qed.

(* ------------------------------------------------------------------ *)
(** *** Rounding keeps the sign *)

Lemma iter_pos_invariant {A} (P : A -> Prop) (f : A -> A) :
  (forall x, P x -> P (f x)) ->
  forall n x, P x -> P (iter_pos f n x).
Proof.
  intros Hf. induction n as [n IH | n IH | ]; intros x Hx; simpl; auto.
Qed.

Lemma shr_1_nonneg (mrs : shr_record) :
  0 <= shr_m mrs -> 0 <= shr_m (shr_1 mrs).
Proof.
  destruct mrs as [m r s]. simpl.
  destruct m as [ | [p | p | ] | p]; simpl; lia.
Qed.

Lemma shr_fexp_nonneg (m e : Z) (l : location) :
  0 <= m -> 0 <= shr_m (fst (shr_fexp JS.prec JS.emax m e l)).
Proof.
  intros Hm. unfold shr_fexp, shr.
  assert (H0 : 0 <= shr_m (shr_record_of_loc m l)).
  { destruct l as [ | [ | | ]]; exact Hm. }
  destruct (fexp JS.prec JS.emax (Zdigits2 m + e) - e) as [ | n | n]; simpl;
    try exact H0.
  apply (iter_pos_invariant (fun mrs => 0 <= shr_m mrs)); [apply shr_1_nonneg | exact H0].
Qed.

Lemma round_nearest_even_nonneg (m : Z) (l : location) :
  0 <= m -> 0 <= round_nearest_even m l.
Proof.
  intros Hm. destruct l as [ | [ | | ]]; simpl; try lia.
  destruct (Z.even m); lia.
Qed.

(** Rounding a non-negative mantissa gives a zero, a finite number or an
    infinity of the requested sign, never [NaN]. *)
Lemma binary_round_aux_sign (s : bool) (m e : Z) (l : location) :
  0 <= m ->
  match binary_round_aux JS.prec JS.emax s m e l with
  | S754_zero s' | S754_infinity s' | S754_finite s' _ _ => s' = s
  | S754_nan => False
  end.
Proof.
  intros Hm. unfold binary_round_aux.
  pose proof (shr_fexp_nonneg m e l Hm) as H1.
  destruct (shr_fexp JS.prec JS.emax m e l) as [mrs' e'].
  simpl fst in H1.
  pose proof (shr_fexp_nonneg
                (round_nearest_even (shr_m mrs') (loc_of_shr_record mrs')) e'
                loc_Exact (round_nearest_even_nonneg _ _ H1)) as H2.
  destruct (shr_fexp JS.prec JS.emax _ e' loc_Exact) as [mrs'' e''].
  simpl fst in H2.
  destruct (shr_m mrs'') as [ | p | p]; [reflexivity | | lia].
  destruct (e'' <=? JS.emax - JS.prec); reflexivity.
Qed.

Lemma of_Z_1000 : JS.of_Z 1000 = S754_finite false 8796093022208000 (-43).
Proof. vm_compute. reflexivity. Qed.

(** Dividing by 1000 keeps a number non-positive. *)
Lemma div_1000_nonpositive (x : JS.number) :
  nonpositive x -> nonpositive (JS.div x (JS.of_Z 1000)).
Proof.
  rewrite of_Z_1000. unfold JS.div.
  destruct x as [s | s | | s m e]; simpl; try tauto.
  - intros ->. reflexivity.
  - intros ->.
    unfold SFdiv_core_binary.
    set (m' := match _ - _ with Z0 => Z.pos m | Z.pos _ => _ | Z.neg _ => 0 end).
    assert (Hm' : 0 <= m').
    { subst m'. destruct (_ - _); try lia. apply Z.shiftl_nonneg. lia. }
    pose proof (Z.div_pos m' 8796093022208000 Hm' ltac:(reflexivity)) as Hq.
    unfold Z.div in Hq.
    destruct (Z.div_eucl m' 8796093022208000) as [q r].
    pose proof (binary_round_aux_sign true q
                  (Z.min (fexp JS.prec JS.emax
                            (Zdigits2 (Z.pos m) + e
                             - (Zdigits2 8796093022208000 + -43)))
                         (e - -43))
                  (new_location 8796093022208000 r) Hq) as Hs.
    destruct (binary_round_aux _ _ _ _ _ _); simpl; tauto.
Qed.

(** [Math.ceil] keeps a number non-positive. *)
Lemma Math_ceil_nonpositive (x : JS.number) :
  nonpositive x -> nonpositive (JS.Math_ceil x).
Proof.
  destruct x as [s | s | | s m e]; simpl; try tauto.
  intros ->.
  destruct (0 <=? e); [reflexivity |].
  unfold cond_Zopp.
  pose proof (Z.div_pos (Z.pos m) (2 ^ (- e)) ltac:(lia)) as Hq.
  destruct (Z.le_gt_cases 0 (- e)) as [He | He].
  - specialize (Hq ltac:(apply Z.pow_pos_nonneg; lia)).
    destruct (Z.pos m / 2 ^ (- e)) as [ | q | q]; try lia; simpl.
    + exact I.
    + unfold binary_round.
      destruct (shl_align q 0 _) as [mz ez].
      pose proof (binary_round_aux_sign true (Z.pos mz) ez loc_Exact ltac:(lia)) as Hs.
      destruct (binary_round_aux _ _ _ _ _ _); simpl; tauto.
  - rewrite Z.pow_neg_r by lia. rewrite Z.div_0_r. simpl. exact I.
Qed.

(** [Math.max(1, x)] is 1 for a non-positive [x]. *)
Lemma Math_max_1_nonpositive (x : JS.number) :
  nonpositive x -> JS.Math_max (JS.of_Z 1) x = JS.of_Z 1.
Proof.
  rewrite of_Z_1. unfold JS.Math_max.
  destruct x as [s | s | | s m e]; simpl; try tauto; intros ->; reflexivity.
Qed.

Lemma le_zero_nonpositive (x : JS.number) :
  JS.le x (JS.of_Z 0) = true <-> nonpositive x.
Proof.
  rewrite of_Z_0. unfold JS.le, SFleb.
  destruct x as [s | [ | ] | | [ | ] m e]; simpl; intuition discriminate.
Qed.

(* ================================================================== *)
(** ** Running service code *)

Lemma run_pbind {A B} (lib : H3Lib) (p : Prog A) (f : A -> Prog B) :
  run lib (pbind p f) =
  match run lib p with
  | (t, Normal a) => let (t', r) := run lib (f a) in (t ++ t', r)
  | (t, Throw e) => (t, Throw e)
  end.
Proof.
  induction p as [a | c k IH]; simpl.
  - destruct (run lib (f a)); reflexivity.
  - destruct (lib c) as [x | e]; [| reflexivity].
    rewrite IH. destruct (run lib (k x)) as [t [a | e]]; [| reflexivity].
    destruct (run lib (f a)); reflexivity.
Qed.

Lemma result_pbind {A B} (lib : H3Lib) (p : Prog A) (f : A -> Prog B) :
  result lib (pbind p f) = cbind (result lib p) (fun a => result lib (f a)).
Proof.
  unfold result. rewrite run_pbind.
  destruct (run lib p) as [t [a | e]]; [| reflexivity].
  simpl. destruct (run lib (f a)); reflexivity.
Qed.

Lemma calls_pbind {A B} (lib : H3Lib) (p : Prog A) (f : A -> Prog B) :
  calls lib (pbind p f) =
  calls lib p ++ match result lib p with
                 | Normal a => calls lib (f a)
                 | Throw _ => []
                 end.
Proof.
  unfold calls, result. rewrite run_pbind.
  destruct (run lib p) as [t [a | e]]; simpl.
  - destruct (run lib (f a)); reflexivity.
  - rewrite app_nil_r. reflexivity.
Qed.

Lemma result_call (lib : H3Lib) (c : H3Call) : result lib (call c) = lib c.
Proof. unfold result, call. simpl. destruct (lib c); reflexivity. Qed.

Lemma calls_call (lib : H3Lib) (c : H3Call) : calls lib (call c) = [c].
Proof. unfold calls, call. simpl. destruct (lib c); reflexivity. Qed.

Lemma result_Ret {A} (lib : H3Lib) (a : A) : result lib (Ret a) = Normal a.
Proof. reflexivity. Qed.

Lemma calls_Ret {A} (lib : H3Lib) (a : A) : calls lib (Ret a) = [].
Proof. reflexivity. Qed.

(** Against a library that answers every call, service code returns. *)
Lemma never_throws_result {A} (lib : H3Lib) (p : Prog A) :
  never_throws lib -> exists a, result lib p = Normal a.
Proof.
  intros Hlib. induction p as [a | c k IH].
  - exists a. reflexivity.
  - destruct (Hlib c) as [x Hx]. destruct (IH x) as [a Ha].
    exists a. unfold result in *. simpl. rewrite Hx.
    destruct (run lib (k x)). exact Ha.
Qed.

Lemma result_formatNeighborInfo (lib : H3Lib) (h : string) :
  result lib (formatNeighborInfo h) =
  cbind (lib (cellToLatLng h))
        (fun center => Normal {| NeighborInfo.hash := h;
                                 NeighborInfo.center := formatCenter center |}).
Proof.
  unfold formatNeighborInfo. rewrite result_pbind, result_call. reflexivity.
Qed.

Lemma calls_formatNeighborInfo (lib : H3Lib) (h : string) :
  calls lib (formatNeighborInfo h) = [cellToLatLng h].
Proof.
  unfold formatNeighborInfo. rewrite calls_pbind, calls_call, result_call.
  destruct (lib (cellToLatLng h)); reflexivity.
Qed.

(** Enriching a list of cells: one [cellToLatLng] call per cell, and the
    cells come back in the same order. *)
Lemma mapP_formatNeighborInfo (lib : H3Lib) (l : list string) :
  Forall is_cellToLatLng (calls lib (mapP formatNeighborInfo l)) /\
  forall infos,
    result lib (mapP formatNeighborInfo l) = Normal infos ->
    map NeighborInfo.hash infos = l /\
    calls lib (mapP formatNeighborInfo l) = map cellToLatLng l.
Proof.
  induction l as [ | h l [IHc IHr]].
  - split; [constructor |]. intros infos H. injection H as <-. auto.
  - cbn [mapP].
    rewrite calls_pbind, result_pbind.
    rewrite calls_formatNeighborInfo, result_formatNeighborInfo.
    split.
    + constructor; [exists h; reflexivity |].
      destruct (lib (cellToLatLng h)) as [center | e]; simpl; [| constructor].
      rewrite calls_pbind. apply Forall_app. split; [exact IHc |].
      destruct (result lib (mapP formatNeighborInfo l)); constructor.
    + intros infos. destruct (lib (cellToLatLng h)) as [center | e]; simpl;
        [| discriminate].
      rewrite result_pbind, calls_pbind.
      destruct (result lib (mapP formatNeighborInfo l)) as [bs | e]; simpl;
        [| discriminate].
      intros H. injection H as <-.
      destruct (IHr bs eq_refl) as [Hh Hc].
      simpl. rewrite Hh, Hc, app_nil_r. auto.
Qed.

Lemma mapP_formatNeighborInfo_length (lib : H3Lib) (l : list string) infos :
  result lib (mapP formatNeighborInfo l) = Normal infos ->
  List.length l = List.length infos.
Proof.
  intros H. apply mapP_formatNeighborInfo in H. destruct H as [H _].
  rewrite <- H at 1. apply length_map.
Qed.


(* ================================================================== *)
(** ** Conversions: when they throw *)

Lemma cbind_Normal {A B} (a : A) (f : A -> Completion B) :
  cbind (Normal a) f = f a.
Proof. reflexivity. Qed.

Lemma cbind_Throw {A B} (e : string) (f : A -> Completion B) :
  cbind (Throw e) f = Throw e.
Proof. reflexivity. Qed.

Ltac cbind_reduce := rewrite ?cbind_Normal, ?cbind_Throw; cbv beta.

(** [mapC] returns when its function returns on every element, and throws
    what the function throws otherwise. *)
Lemma mapC_outcome {A B} (f : A -> Completion B) (ok : A -> bool) (e : string)
      (l : list A) :
  Forall (fun a => (ok a = true -> exists b, f a = Normal b) /\
                   (ok a = false -> f a = Throw e)) l ->
  (forallb ok l = true -> exists bs, mapC f l = Normal bs) /\
  (forallb ok l = false -> mapC f l = Throw e).
Proof.
  induction 1 as [ | a l [Hok Hbad] _ [IHok IHbad]]; cbn [mapC forallb].
  - split; [intros _; eexists; reflexivity | discriminate].
  - destruct (ok a) eqn:Ha; cbn [andb].
    + destruct (Hok eq_refl) as [b ->]. cbind_reduce. split.
      * intros Hl. destruct (IHok Hl) as [bs ->]. eexists; reflexivity.
      * intros Hl. rewrite (IHbad Hl). reflexivity.
    + rewrite (Hbad eq_refl). split; [discriminate | reflexivity].
Qed.

Section ConversionFacts.

Variable StringToNumber : string -> JS.number.
Variable NumberToString : JS.number -> string.

Local Abbreviation ToString' := (ToString NumberToString).
Local Abbreviation ToNumber' := (ToNumber StringToNumber NumberToString).

(** [ToString] returns exactly on the [coercible] values, and throws
    [TypeError] on the others. *)
Lemma ToString_outcome (v : JsValue) :
  (coercible v = true -> exists s, ToString' v = Normal s) /\
  (coercible v = false -> ToString' v = Throw TypeError).
Proof.
  induction v as [ | | b | n | s | l IH | fields] using JsValue_elements_ind;
    try (split; [intros _; eexists; reflexivity | discriminate]).
  - cbn [ToString coercible].
    assert (Hmap :
      Forall (fun x =>
                (coercible x = true ->
                 exists s, match x with
                           | JUndefined | JNull => Normal ""
                           | _ => ToString' x
                           end = Normal s) /\
                (coercible x = false ->
                 match x with
                 | JUndefined | JNull => Normal ""
                 | _ => ToString' x
                 end = Throw TypeError)) l).
    { eapply Forall_impl; [| exact IH].
      intros x [Hok Hbad].
      destruct x; (split; [exact Hok || (intros _; eexists; reflexivity)
                          | exact Hbad || discriminate]). }
    destruct (mapC_outcome _ coercible TypeError l Hmap) as [Hok Hbad].
    split.
    + intros Hl. destruct (Hok Hl) as [bs ->]. eexists; reflexivity.
    + intros Hl. rewrite (Hbad Hl). reflexivity.
  - cbn [ToString coercible].
    destruct (has_own "toString" fields); cbn [negb];
      (split; [(intros _; eexists; reflexivity) || discriminate
              | reflexivity || discriminate]).
Qed.

Lemma ToNumber_outcome (v : JsValue) :
  (coercible v = true -> exists x, ToNumber' v = Normal x) /\
  (coercible v = false -> ToNumber' v = Throw TypeError).
Proof.
  destruct (ToString_outcome v) as [Hok Hbad].
  destruct v as [ | | b | n | s | l | fields];
    try (split; [intros _; eexists; reflexivity | discriminate]);
    unfold ToNumber; (split;
      [ intros H; destruct (Hok H) as [s ->]; eexists; reflexivity
      | intros H; rewrite (Hbad H); reflexivity ]).
Qed.

(** A conversion returns, or throws [TypeError]. *)
Lemma ToNumber_cases (v : JsValue) :
  (exists x, ToNumber' v = Normal x) \/ ToNumber' v = Throw TypeError.
Proof.
  destruct (ToNumber_outcome v) as [Hok Hbad].
  destruct (coercible v); [left | right]; auto.
Qed.

End ConversionFacts.

(* ================================================================== *)
(** ** Validation: properties *)

Lemma seven_and_a_half_is_15_over_2 :
  JS.div (JS.of_Z 15) (JS.of_Z 2) = seven_and_a_half.
Proof. vm_compute. reflexivity. Qed.

Lemma well_formed_invalid (msg : string) :
  msg <> EmptyString -> well_formed (invalid msg).
Proof. intros H. right. exists msg. split; [reflexivity | exact H]. Qed.

Lemma well_formed_valid : well_formed valid.
Proof. left. reflexivity. Qed.

#[local] Hint Resolve well_formed_valid : core.

Section ValidatorFacts.

Variable StringToNumber : string -> JS.number.
Variable NumberToString : JS.number -> string.

Local Abbreviation ToNumber' := (ToNumber StringToNumber NumberToString).
Local Abbreviation validateCoordinates' :=
  (validateCoordinates StringToNumber NumberToString).
Local Abbreviation validateResolution' :=
  (validateResolution StringToNumber NumberToString).
Local Abbreviation validateKValue' :=
  (validateKValue StringToNumber NumberToString).
Local Abbreviation validatePolygon' :=
  (validatePolygon StringToNumber NumberToString).
Local Abbreviation validatePolygon_loop' :=
  (validatePolygon_loop StringToNumber NumberToString).
Local Abbreviation isValidCoordinate' :=
  (isValidCoordinate StringToNumber NumberToString).

(** On numbers no conversion takes place, and the validators compute. *)
Lemma validateCoordinates_numbers (lat lng : JS.number) :
  validateCoordinates' (JNum lat) (JNum lng) =
  Normal (if JS.lt lat (JS.of_Z (-90)) || JS.gt lat (JS.of_Z 90)
             || JS.lt lng (JS.of_Z (-180)) || JS.gt lng (JS.of_Z 180)
          then invalid coordinates_error else valid).
Proof.
  unfold validateCoordinates, or_else, js_lt, js_gt. cbn [ToNumber cbind].
  destruct (JS.lt lat (JS.of_Z (-90))); cbn [orb]; [reflexivity |].
  destruct (JS.gt lat (JS.of_Z 90)); cbn [orb]; [reflexivity |].
  destruct (JS.lt lng (JS.of_Z (-180))); cbn [orb]; [reflexivity |].
  destruct (JS.gt lng (JS.of_Z 180)); reflexivity.
Qed.

Lemma validateResolution_number (x : JS.number) :
  validateResolution' (JNum x) =
  Normal (if JS.lt x (JS.of_Z 0) || JS.gt x (JS.of_Z 15) || negb (JS.isInteger x)
          then invalid resolution_error else valid).
Proof.
  unfold validateResolution, or_else, js_lt, js_gt.
  cbn [ToNumber cbind Number_isInteger].
  destruct (JS.lt x (JS.of_Z 0)); cbn [orb]; [reflexivity |].
  destruct (JS.gt x (JS.of_Z 15)); cbn [orb]; [reflexivity |].
  destruct (JS.isInteger x); reflexivity.
Qed.

Lemma validateKValue_number (x : JS.number) :
  validateKValue' (JNum x) =
  Normal (if JS.lt x (JS.of_Z 1) || JS.gt x (JS.of_Z 10) || negb (JS.isInteger x)
          then invalid k_error else valid).
Proof.
  unfold validateKValue, or_else, js_lt, js_gt.
  cbn [ToNumber cbind Number_isInteger].
  destruct (JS.lt x (JS.of_Z 1)); cbn [orb]; [reflexivity |].
  destruct (JS.gt x (JS.of_Z 10)); cbn [orb]; [reflexivity |].
  destruct (JS.isInteger x); reflexivity.
Qed.

Lemma isValidCoordinate_numbers (lat lng : JS.number) :
  isValidCoordinate' (JNum lat) (JNum lng) =
  Normal (JS.ge lat (JS.of_Z (-90)) && JS.le lat (JS.of_Z 90)
          && JS.ge lng (JS.of_Z (-180)) && JS.le lng (JS.of_Z 180)).
Proof.
  unfold isValidCoordinate, and_then, js_ge, js_le. cbn [ToNumber cbind].
  destruct (JS.ge lat (JS.of_Z (-90))); cbn [andb]; [| reflexivity].
  destruct (JS.le lat (JS.of_Z 90)); cbn [andb]; [| reflexivity].
  destruct (JS.ge lng (JS.of_Z (-180))); cbn [andb]; reflexivity.
Qed.

(** What a validator of one value against two bounds returns: its reason,
    [valid], or the [TypeError] of the conversion; and it returns when the
    value converts. *)
Lemma bounds_check_outcome (v : JsValue) (lo hi : JS.number) (last : bool)
      (msg : string) :
  let check :=
    (bad <- js_lt StringToNumber NumberToString v lo
            ||| js_gt StringToNumber NumberToString v hi
            ||| Normal last ;;
     if bad then Normal (invalid msg) else Normal valid)%completion in
  (check = Normal valid \/ check = Normal (invalid msg) \/ check = Throw TypeError) /\
  (coercible v = true -> check <> Throw TypeError) /\
  (last = true -> check <> Normal valid).
Proof.
  cbv zeta. unfold or_else, js_lt, js_gt.
  destruct (ToNumber_outcome StringToNumber NumberToString v) as [Hok Hbad].
  destruct (coercible v).
  - destruct (Hok eq_refl) as [x ->]. cbind_reduce.
    destruct (JS.lt x lo); cbind_reduce;
      [split; [auto | split; [discriminate | discriminate]] |].
    destruct (JS.gt x hi); cbind_reduce;
      [split; [auto | split; [discriminate | discriminate]] |].
    destruct last; cbind_reduce;
      (split; [auto | split; [discriminate
                             | first [discriminate | intros _; discriminate]]]).
  - rewrite (Hbad eq_refl). cbind_reduce.
    split; [auto | split; [discriminate | discriminate]].
Qed.

(** Only a number is accepted as a resolution or as a ring count. *)
Lemma validateResolution_not_number (resolution : JsValue) :
  Number_isInteger resolution = false ->
  validateResolution' resolution <> Normal valid.
Proof.
  intros H. unfold validateResolution. rewrite H.
  apply (bounds_check_outcome resolution (JS.of_Z 0) (JS.of_Z 15) true
                              resolution_error). reflexivity.
Qed.

Lemma validateKValue_not_number (k : JsValue) :
  Number_isInteger k = false ->
  validateKValue' k <> Normal valid.
Proof.
  intros H. unfold validateKValue. rewrite H.
  apply (bounds_check_outcome k (JS.of_Z 1) (JS.of_Z 10) true k_error).
  reflexivity.
Qed.

Lemma validateResolution_outcome (resolution : JsValue) :
  (validateResolution' resolution = Normal valid \/
   validateResolution' resolution = Normal (invalid resolution_error) \/
   validateResolution' resolution = Throw TypeError) /\
  (coercible resolution = true -> validateResolution' resolution <> Throw TypeError).
Proof.
  pose proof (bounds_check_outcome resolution (JS.of_Z 0) (JS.of_Z 15)
                (negb (Number_isInteger resolution)) resolution_error) as H.
  cbv zeta in H. destruct H as (H1 & H2 & _). split; assumption.
Qed.

Lemma validateKValue_outcome (k : JsValue) :
  (validateKValue' k = Normal valid \/
   validateKValue' k = Normal (invalid k_error) \/
   validateKValue' k = Throw TypeError) /\
  (coercible k = true -> validateKValue' k <> Throw TypeError).
Proof.
  pose proof (bounds_check_outcome k (JS.of_Z 1) (JS.of_Z 10)
                (negb (Number_isInteger k)) k_error) as H.
  cbv zeta in H. destruct H as (H1 & H2 & _). split; assumption.
Qed.

Lemma validateCoordinates_outcome (lat lng : JsValue) :
  (validateCoordinates' lat lng = Normal valid \/
   validateCoordinates' lat lng = Normal (invalid coordinates_error) \/
   validateCoordinates' lat lng = Throw TypeError) /\
  (coercible lat = true -> coercible lng = true ->
   validateCoordinates' lat lng <> Throw TypeError).
Proof.
  unfold validateCoordinates, or_else, js_lt, js_gt.
  destruct (ToNumber_outcome StringToNumber NumberToString lat) as [Hlat Hlat'].
  destruct (ToNumber_outcome StringToNumber NumberToString lng) as [Hlng Hlng'].
  destruct (coercible lat).
  - destruct (Hlat eq_refl) as [x ->]. cbind_reduce.
    destruct (JS.lt x (JS.of_Z (-90))); cbind_reduce;
      [split; [auto | discriminate] |].
    destruct (JS.gt x (JS.of_Z 90)); cbind_reduce;
      [split; [auto | discriminate] |].
    destruct (coercible lng).
    + destruct (Hlng eq_refl) as [y ->]. cbind_reduce.
      destruct (JS.lt y (JS.of_Z (-180))); cbind_reduce;
        [split; [auto | discriminate] |].
      destruct (JS.gt y (JS.of_Z 180)); cbind_reduce;
        (split; [auto | discriminate]).
    + rewrite (Hlng' eq_refl). cbind_reduce. split; [auto | discriminate].
  - rewrite (Hlat' eq_refl). cbind_reduce. split; [auto | discriminate].
Qed.

(** Away from [NaN], the range check of [validateCoordinates] is the
    spec's range. *)
Lemma validateCoordinates_in_range (lat lng : JS.number) :
  is_NaN lat = false -> is_NaN lng = false ->
  validateCoordinates' (JNum lat) (JNum lng) =
  Normal (if in_range lat lng then valid else invalid coordinates_error).
Proof.
  intros Hlat Hlng. rewrite validateCoordinates_numbers.
  assert (Hlat' : lat <> JS.NaN) by (intros ->; discriminate).
  assert (Hlng' : lng <> JS.NaN) by (intros ->; discriminate).
  unfold in_range, JS.lt, JS.gt, JS.le.
  rewrite (lt_is_not_ge lat (JS.of_Z (-90))) by (assumption || discriminate).
  rewrite (lt_is_not_ge lng (JS.of_Z (-180))) by (assumption || discriminate).
  rewrite (lt_is_not_ge (JS.of_Z 90) lat) by (assumption || discriminate).
  rewrite (lt_is_not_ge (JS.of_Z 180) lng) by (assumption || discriminate).
  destruct (SFleb (JS.of_Z (-90)) lat), (SFleb lat (JS.of_Z 90)),
    (SFleb (JS.of_Z (-180)) lng), (SFleb lng (JS.of_Z 180)); reflexivity.
Qed.

(** On numbers other than [NaN], [validateCoordinates] and the
    coordinate check of the JavaScript server agree. *)
Lemma validateCoordinates_agrees_on_numbers (lat lng : JS.number) :
  lat <> JS.NaN -> lng <> JS.NaN ->
  exists r b,
    validateCoordinates' (JNum lat) (JNum lng) = Normal r /\
    isValidCoordinate' (JNum lat) (JNum lng) = Normal b /\
    isValid r = b.
Proof.
  intros Hlat Hlng.
  rewrite validateCoordinates_in_range
    by (destruct lat, lng; try reflexivity; unfold JS.NaN in *; congruence).
  rewrite isValidCoordinate_numbers.
  do 2 eexists. split; [reflexivity | split; [reflexivity |]].
  unfold in_range, JS.ge, JS.le. destruct (_ && _ && _ && _); reflexivity.
Qed.

(** C1.  [validateCoordinates] lets [NaN] through: [NaN] as latitude is
    treated exactly like an in-range latitude, so [(NaN, 0)], [(0, NaN)]
    and [(NaN, NaN)] are reported valid, although the claim asks for a
    rejection.  The coordinate check of the JavaScript server, of which
    the validator is the port, never accepts a pair with a [NaN]. *)
Theorem validateCoordinates_accepts_NaN :
  validateCoordinates' (JNum JS.NaN) (JNum (JS.of_Z 0)) = Normal valid /\
  validateCoordinates' (JNum (JS.of_Z 0)) (JNum JS.NaN) = Normal valid /\
  validateCoordinates' (JNum JS.NaN) (JNum JS.NaN) = Normal valid /\
  (forall lng,
      validateCoordinates' (JNum JS.NaN) lng =
      validateCoordinates' (JNum (JS.of_Z 0)) lng) /\
  (forall lng, isValidCoordinate' (JNum JS.NaN) lng = Normal false) /\
  (forall lat : JS.number,
      isValidCoordinate' (JNum lat) (JNum JS.NaN) = Normal false) /\
  (forall lat, isValidCoordinate' lat (JNum JS.NaN) <> Normal true).
Proof.
  split; [reflexivity |]. split; [reflexivity |]. split; [reflexivity |].
  split; [intros lng; reflexivity |].
  split; [intros lng; reflexivity |].
  split.
  - intros lat. rewrite isValidCoordinate_numbers.
    rewrite NaN_ge_false, NaN_le_false.
    rewrite !andb_false_r. reflexivity.
  - intros lat. unfold isValidCoordinate, and_then, js_ge, js_le.
    destruct (ToNumber_cases StringToNumber NumberToString lat) as [[x ->] | ->];
      cbind_reduce; [| discriminate].
    cbn [ToNumber]. cbind_reduce.
    destruct (JS.ge x (JS.of_Z (-90))); [| discriminate].
    destruct (JS.le x (JS.of_Z 90)); [| discriminate].
    rewrite NaN_ge_false. discriminate.
Qed.

Lemma validateResolution_valid_iff resolution :
  validateResolution' resolution = Normal valid <->
  exists x, resolution = JNum x /\
            JS.lt x (JS.of_Z 0) = false /\
            JS.gt x (JS.of_Z 15) = false /\
            JS.isInteger x = true.
Proof.
  split.
  - intros H.
    destruct resolution as [ | | b | x | s | l | f];
      try (exfalso; revert H; apply validateResolution_not_number; reflexivity).
    exists x. rewrite validateResolution_number in H.
    destruct (JS.lt x (JS.of_Z 0)); [discriminate |].
    destruct (JS.gt x (JS.of_Z 15)); [discriminate |].
    destruct (JS.isInteger x); [auto | discriminate].
  - intros (x & -> & Hlt & Hgt & Hint).
    rewrite validateResolution_number, Hlt, Hgt, Hint. reflexivity.
Qed.

(** C8.  [validateResolution] accepts exactly the numbers that denote an
    integer from 0 to 15; [-1], [16] and [7.5] are rejected, [0] and [15]
    accepted. *)
Theorem validateResolution_integer_range :
  (forall resolution,
      number_ok resolution = true ->
      (validateResolution' resolution = Normal valid <->
       exists x z, resolution = JNum x /\ JS.int_value x = Some z /\ 0 <= z <= 15)) /\
  validateResolution' (JNum (JS.of_Z (-1))) = Normal (invalid resolution_error) /\
  validateResolution' (JNum (JS.of_Z 16)) = Normal (invalid resolution_error) /\
  validateResolution' (JNum seven_and_a_half) = Normal (invalid resolution_error) /\
  validateResolution' (JNum (JS.of_Z 0)) = Normal valid /\
  validateResolution' (JNum (JS.of_Z 15)) = Normal valid.
Proof.
  split; [| repeat split; reflexivity].
  intros resolution Hok.
  rewrite validateResolution_valid_iff. split.
  - intros (x & -> & Hlt & Hgt & Hint).
    exists x.
    cbn [number_ok] in Hok.
    unfold JS.lt in Hlt. unfold JS.gt in Hgt.
    rewrite of_Z_0 in Hlt. rewrite of_Z_15 in Hgt.
    destruct x as [s | s | | s m e]; try discriminate.
    + exists 0. repeat split; lia.
    + destruct s; [discriminate |].
      destruct (is_double_mantissa _ _ _ Hok) as [Hm53 _].
      change (2 ^ 53) with 9007199254740992 in Hm53.
      unfold SFltb, SFcompare in Hgt.
      unfold JS.isInteger in Hint. unfold JS.int_value.
      assert (He : e <= -49).
      { destruct (Z.compare_spec (-49) e); try lia; discriminate. }
      destruct (Z.leb_spec 0 e) as [? | _]; [lia |].
      simpl in Hint. rewrite Hint.
      exists (Z.pos m / 2 ^ (- e)). split; [reflexivity | split; [reflexivity |]].
      apply Z.eqb_eq in Hint.
      assert (Hpow : 0 < 2 ^ (- e)) by (apply Z.pow_pos_nonneg; lia).
      assert (Hm : Z.pos m = 2 ^ (- e) * (Z.pos m / 2 ^ (- e))).
      { pose proof (Z.div_mod (Z.pos m) (2 ^ (- e)) ltac:(lia)). lia. }
      set (q := Z.pos m / 2 ^ (- e)) in *. clearbody q.
      destruct (Z.eq_dec e (-49)) as [-> | Hne].
      * rewrite Z.compare_refl in Hgt.
        change (Pos.compare_cont Eq 8444249301319680 m)
          with (Pos.compare 8444249301319680 m) in Hgt.
        assert (Hle : Z.pos m <= 8444249301319680).
        { apply Pos2Z.pos_le_pos.
          destruct (Pos.compare_spec 8444249301319680 m) as [H | H | H];
            [rewrite <- H; apply Pos.le_refl | discriminate
            | apply Pos.lt_le_incl; exact H]. }
        change (2 ^ (- -49)) with 562949953421312 in Hm.
        clear - Hm Hle. lia.
      * assert (Hp50 : 2 ^ 50 <= 2 ^ (- e)) by (apply Z.pow_le_mono_r; lia).
        change (2 ^ 50) with 1125899906842624 in Hp50.
        clear - Hm Hm53 Hp50 Hpow.
        set (t := 2 ^ (- e)) in *. clearbody t. nia.
  - intros (x & z & -> & Hv & Hz).
    exists x. split; [reflexivity |].
    simpl in Hok.
    destruct (int_value_small x z Hok Hv Hz) as [-> | [-> ->]].
    + assert (Hz' : z = 0 \/ z = 1 \/ z = 2 \/ z = 3 \/ z = 4 \/ z = 5 \/ z = 6
                    \/ z = 7 \/ z = 8 \/ z = 9 \/ z = 10 \/ z = 11 \/ z = 12
                    \/ z = 13 \/ z = 14 \/ z = 15) by lia.
      repeat (destruct Hz' as [-> | Hz']); try subst z;
        repeat split; reflexivity.
    + repeat split; reflexivity.
Qed.

(* ------------------------------------------------------------------ *)
(** *** The polygon loop *)

(** One vertex of the loop: a value that is not a two-element array ends
    it with the reason for the shape. *)
Lemma validatePolygon_loop_misshapen v rest :
  (forall lat lng, v <> JArr [lat; lng]) ->
  validatePolygon_loop' (v :: rest) = Normal (invalid vertex_error).
Proof.
  intros Hv.
  destruct v as [ | | b | n | s | l | f]; try reflexivity.
  destruct l as [ | lat [ | lng [ | c l]]]; try reflexivity.
  exfalso. exact (Hv lat lng eq_refl).
Qed.

(** A pair is handed to [validateCoordinates]; the loop goes on after a
    valid pair and ends with the result of any other. *)
Lemma validatePolygon_loop_pair lat lng rest :
  validatePolygon_loop' (JArr [lat; lng] :: rest) =
  cbind (validateCoordinates' lat lng)
        (fun coordValidation =>
           if negb (isValid coordValidation) then Normal coordValidation
           else validatePolygon_loop' rest).
Proof. reflexivity. Qed.

Lemma validatePolygon_loop_good v rest :
  coordinate_pair v = true ->
  validatePolygon_loop' (v :: rest) = validatePolygon_loop' rest.
Proof.
  intros Hv.
  destruct v as [ | | b | n | s | l | f]; try discriminate.
  destruct l as [ | lat l]; [discriminate |].
  destruct lat as [ | | b | lat | s | l' | f]; try discriminate.
  destruct l as [ | lng l]; [discriminate |].
  destruct lng as [ | | b | lng | s | l' | f]; try discriminate.
  destruct l as [ | c l]; [| discriminate].
  cbn [coordinate_pair] in Hv.
  rewrite validatePolygon_loop_pair, validateCoordinates_in_range.
  - rewrite Hv. reflexivity.
  - destruct lat; try reflexivity. discriminate.
  - destruct lng; try reflexivity.
    unfold in_range in Hv. rewrite NaN_le_false in Hv.
    rewrite !andb_false_r in Hv. discriminate.
Qed.

Lemma validatePolygon_loop_out_of_range lat lng rest :
  is_NaN lat = false -> is_NaN lng = false -> in_range lat lng = false ->
  validatePolygon_loop' (JArr [JNum lat; JNum lng] :: rest) =
  Normal (invalid coordinates_error).
Proof.
  intros Hlat Hlng Hr.
  rewrite validatePolygon_loop_pair, validateCoordinates_in_range by assumption.
  rewrite Hr. reflexivity.
Qed.

Lemma validatePolygon_loop_prefix pre rest :
  forallb coordinate_pair pre = true ->
  validatePolygon_loop' (pre ++ rest) = validatePolygon_loop' rest.
Proof.
  induction pre as [ | u pre IH]; intros Hpre; [reflexivity |].
  cbn [forallb] in Hpre. apply andb_true_iff in Hpre. destruct Hpre as [Hu Hpre].
  cbn [app]. rewrite validatePolygon_loop_good by exact Hu. auto.
Qed.

Lemma vertex_shape (v : JsValue) :
  (exists lat lng, v = JArr [lat; lng]) \/ (forall lat lng, v <> JArr [lat; lng]).
Proof.
  destruct v as [ | | b | n | s | l | f]; try (right; discriminate).
  destruct l as [ | lat [ | lng [ | c l]]]; try (right; discriminate).
  left. exists lat, lng. reflexivity.
Qed.

Lemma numeric_vertex_pair (lat lng : JsValue) :
  numeric_vertex (JArr [lat; lng]) = true ->
  exists x y, lat = JNum x /\ lng = JNum y /\
              is_NaN x = false /\ is_NaN y = false.
Proof.
  destruct lat as [ | | b | x | s | l | f]; try discriminate.
  destruct lng as [ | | b | y | s | l | f]; try discriminate.
  cbn [numeric_vertex]. intros H. apply andb_true_iff in H.
  destruct H as [Hx Hy]. apply negb_true_iff in Hx. apply negb_true_iff in Hy.
  exists x, y. auto.
Qed.

Lemma coordinate_pair_misshapen (v : JsValue) :
  (forall lat lng, v <> JArr [lat; lng]) -> coordinate_pair v = false.
Proof.
  intros Hv.
  destruct v as [ | | b | n | s | l | f]; try reflexivity.
  destruct l as [ | lat l]; [reflexivity |].
  destruct l as [ | lng l]; [destruct lat; reflexivity |].
  destruct l as [ | c l]; [exfalso; exact (Hv lat lng eq_refl) |].
  destruct lat; try reflexivity. destruct lng; reflexivity.
Qed.

(** On vertices of numbers other than [NaN] the loop returns, and accepts
    exactly the lists of pairs within the ranges. *)
Lemma validatePolygon_loop_numeric l :
  forallb numeric_vertex l = true ->
  exists r, validatePolygon_loop' l = Normal r /\
            well_formed r /\
            (isValid r = true <-> forallb coordinate_pair l = true).
Proof.
  induction l as [ | v l IH]; intros Hnum.
  - exists valid. repeat split; auto.
  - cbn [forallb] in Hnum. apply andb_true_iff in Hnum.
    destruct Hnum as [Hv Hl]. destruct (IH Hl) as (r & Hr & Hwf & Hiff).
    cbn [forallb].
    destruct (vertex_shape v) as [(lat & lng & ->) | Hshape].
    + destruct (numeric_vertex_pair lat lng Hv) as (x & y & -> & -> & Hx & Hy).
      cbn [coordinate_pair].
      destruct (in_range x y) eqn:Hr'.
      * rewrite validatePolygon_loop_good by exact Hr'.
        exists r. cbn [andb]. auto.
      * rewrite validatePolygon_loop_out_of_range by assumption.
        exists (invalid coordinates_error).
        split; [reflexivity | split; [apply well_formed_invalid; discriminate |]].
        cbn. split; discriminate.
    + rewrite (validatePolygon_loop_misshapen v l Hshape).
      rewrite (coordinate_pair_misshapen v Hshape).
      exists (invalid vertex_error).
      split; [reflexivity | split; [apply well_formed_invalid; discriminate |]].
      cbn. split; discriminate.
Qed.

(** Whatever the vertices, the loop returns a well-formed result or throws
    [TypeError], and it returns when every vertex converts. *)
Lemma validatePolygon_loop_outcome l :
  ((exists r, validatePolygon_loop' l = Normal r /\ well_formed r) \/
   validatePolygon_loop' l = Throw TypeError) /\
  (forallb coercible l = true -> validatePolygon_loop' l <> Throw TypeError).
Proof.
  induction l as [ | v l [IH1 IH2]].
  - split; [left; exists valid; auto | discriminate].
  - destruct (vertex_shape v) as [(lat & lng & ->) | Hshape];
      [| rewrite (validatePolygon_loop_misshapen v l Hshape);
         split; [| discriminate];
         left; eexists;
         split; [reflexivity | apply well_formed_invalid; discriminate]].
    rewrite validatePolygon_loop_pair.
    destruct (validateCoordinates_outcome lat lng) as [[H | [H | H]] Hok];
      rewrite H in *; cbind_reduce; cbn [isValid valid invalid negb].
    + split; [exact IH1 |].
      cbn [forallb]. intros Hc. apply andb_true_iff in Hc. apply IH2, Hc.
    + split; [| discriminate].
      left. eexists. split; [reflexivity | apply well_formed_invalid; discriminate].
    + split; [right; reflexivity |].
      cbn [forallb coercible]. intros Hc.
      apply andb_true_iff in Hc. destruct Hc as [Hc _].
      apply andb_true_iff in Hc. destruct Hc as [Hlat Hc].
      apply andb_true_iff in Hc. destruct Hc as [Hlng _].
      exfalso. exact (Hok Hlat Hlng eq_refl).
Qed.

Lemma validatePolygon_array l :
  validatePolygon' (JArr l) =
  if Nat.ltb (List.length l) 3 then Normal (invalid polygon_error)
  else validatePolygon_loop' l.
Proof.
  unfold validatePolygon. simpl.
  destruct (Nat.ltb (List.length l) 3); reflexivity.
Qed.

Lemma validatePolygon_not_array polygon :
  Array_isArray polygon = false ->
  validatePolygon' polygon = Normal (invalid polygon_error).
Proof.
  intros H. unfold validatePolygon. rewrite H. reflexivity.
Qed.

Lemma validatePolygon_outcome polygon :
  ((exists r, validatePolygon' polygon = Normal r /\ well_formed r) \/
   validatePolygon' polygon = Throw TypeError) /\
  (coercible polygon = true -> validatePolygon' polygon <> Throw TypeError).
Proof.
  assert (Hbad : forall p, validatePolygon' p = Normal (invalid polygon_error) ->
                 ((exists r, validatePolygon' p = Normal r /\ well_formed r) \/
                  validatePolygon' p = Throw TypeError) /\
                 (coercible p = true -> validatePolygon' p <> Throw TypeError)).
  { intros p ->. split; [| discriminate].
    left. eexists. split; [reflexivity | apply well_formed_invalid; discriminate]. }
  destruct polygon as [ | | b | n | s | l | f];
    try (apply Hbad; reflexivity).
  destruct (Nat.ltb (List.length l) 3) eqn:Hlen.
  - apply Hbad. rewrite validatePolygon_array, Hlen. reflexivity.
  - rewrite validatePolygon_array, Hlen. cbn [coercible].
    apply validatePolygon_loop_outcome.
Qed.



End ValidatorFacts.

(** Resolution 9 is accepted. *)
Lemma validateResolution_integer_range_witness :
  number_ok (JNum (JS.of_Z 9)) = true /\
  validateResolution sample_StringToNumber sample_NumberToString
                     (JNum (JS.of_Z 9)) = Normal valid.
Proof.
  split; [reflexivity |].
  apply (proj1 (validateResolution_integer_range
                  sample_StringToNumber sample_NumberToString)
               (JNum (JS.of_Z 9)) eq_refl).
  exists (JS.of_Z 9), 9. split; [reflexivity | split; [reflexivity | lia]].
Defined.




(* ================================================================== *)
(** ** Region enumeration: properties *)

(** The calls of a region query: the enumeration call, then the centre of
    every cell it returned. *)
Lemma calls_enumerate {A} (lib : H3Lib) (c : H3Call) (zones_of : H3Ret c -> list string)
      (finish : H3Ret c -> list NeighborInfo.t -> A) :
  exists rest,
    calls lib (zones <- call c ;;
               infos <- mapP formatNeighborInfo (zones_of zones) ;;
               Ret (finish zones infos))%prog = c :: rest /\
    Forall is_cellToLatLng rest.
Proof.
  rewrite calls_pbind, calls_call, result_call. simpl.
  eexists. split; [reflexivity |].
  destruct (lib c) as [zones | e]; [| constructor].
  rewrite calls_pbind. apply Forall_app. split.
  - apply mapP_formatNeighborInfo.
  - destruct (result lib (mapP formatNeighborInfo (zones_of zones))); constructor.
Qed.

Lemma sample_lib_never_throws : never_throws sample_lib.
Proof.
  intros c. destruct c as [ | | | | | | | | | h]; try (eexists; reflexivity).
  destruct h; eexists; reflexivity.
Qed.

(** C3.  Whatever the box, the first thing [getZonesInArea] does is call
    [polygonToCells] on the closed ring of its four corners, in the order
    (minLat,minLng), (minLat,maxLng), (maxLat,maxLng), (maxLat,minLng),
    (minLat,minLng); every later call fetches a cell centre.  A box reduced
    to one point is passed on in the same way. *)
Theorem getZonesInArea_closed_ring :
  forall (lib : H3Lib) (boundingBox : BoundingBox.t) (resolution : JS.number),
    (exists rest,
        calls lib (getZonesInArea boundingBox resolution) =
        polygonToCells
          (JArr [ JArr [JNum (BoundingBox.minLat boundingBox);
                        JNum (BoundingBox.minLng boundingBox)];
                  JArr [JNum (BoundingBox.minLat boundingBox);
                        JNum (BoundingBox.maxLng boundingBox)];
                  JArr [JNum (BoundingBox.maxLat boundingBox);
                        JNum (BoundingBox.maxLng boundingBox)];
                  JArr [JNum (BoundingBox.maxLat boundingBox);
                        JNum (BoundingBox.minLng boundingBox)];
                  JArr [JNum (BoundingBox.minLat boundingBox);
                        JNum (BoundingBox.minLng boundingBox)] ])
          resolution :: rest /\
        Forall is_cellToLatLng rest) /\
    (forall x y : JS.number,
        exists rest,
          calls lib (getZonesInArea
                       {| BoundingBox.minLat := x; BoundingBox.minLng := y;
                          BoundingBox.maxLat := x; BoundingBox.maxLng := y |}
                       resolution) =
          polygonToCells
            (JArr [ JArr [JNum x; JNum y]; JArr [JNum x; JNum y];
                    JArr [JNum x; JNum y]; JArr [JNum x; JNum y];
                    JArr [JNum x; JNum y] ])
            resolution :: rest /\
          Forall is_cellToLatLng rest).
Proof.
  intros lib boundingBox resolution. split.
  - apply (calls_enumerate lib (polygonToCells (box_ring boundingBox) resolution)
                           (fun zones => zones)).
  - intros x y.
    apply (calls_enumerate lib
             (polygonToCells
                (box_ring {| BoundingBox.minLat := x; BoundingBox.minLng := y;
                             BoundingBox.maxLat := x; BoundingBox.maxLng := y |})
                resolution)
             (fun zones => zones)).
Qed.

(** C7.  [getZonesInPolygon] hands the polygon it was given to
    [polygonToCells] as it is and returns it in the response, whereas the
    ring built by [getZonesInArea] is its four corners followed by the
    first corner again. *)
Theorem getZonesInPolygon_polygon_as_given :
  forall (lib : H3Lib) (polygon : JsValue) (resolution : JS.number),
    (exists rest,
        calls lib (getZonesInPolygon polygon resolution) =
        polygonToCells polygon resolution :: rest /\
        Forall is_cellToLatLng rest) /\
    (forall r,
        result lib (getZonesInPolygon polygon resolution) = Normal r ->
        ZonesInPolygonResponse.polygon r = polygon) /\
    (never_throws lib ->
     exists r, result lib (getZonesInPolygon polygon resolution) = Normal r) /\
    (forall boundingBox : BoundingBox.t,
        exists first corners,
          List.length corners = 3%nat /\
          box_ring boundingBox = JArr ((first :: corners) ++ [first])).
Proof.
  intros lib polygon resolution. repeat split.
  - apply (calls_enumerate lib (polygonToCells polygon resolution)
                           (fun zones => zones)).
  - intros r. unfold getZonesInPolygon.
    rewrite result_pbind, result_call.
    destruct (lib (polygonToCells polygon resolution)) as [zones | e]; simpl;
      [| discriminate].
    rewrite result_pbind.
    destruct (result lib (mapP formatNeighborInfo zones)); simpl;
      [| discriminate].
    intros H. injection H as <-. reflexivity.
  - intros Hlib. apply never_throws_result. exact Hlib.
  - intros boundingBox. unfold box_ring.
    exists (JArr [JNum (BoundingBox.minLat boundingBox);
                  JNum (BoundingBox.minLng boundingBox)]).
    exists [ JArr [JNum (BoundingBox.minLat boundingBox);
                   JNum (BoundingBox.maxLng boundingBox)];
             JArr [JNum (BoundingBox.maxLat boundingBox);
                   JNum (BoundingBox.maxLng boundingBox)];
             JArr [JNum (BoundingBox.maxLat boundingBox);
                   JNum (BoundingBox.minLng boundingBox)] ].
    split; reflexivity.
Qed.

(** An open triangle comes back as it was given. *)
Lemma getZonesInPolygon_polygon_as_given_witness :
  exists r,
    result sample_lib (getZonesInPolygon sample_triangle (JS.of_Z 9)) = Normal r /\
    ZonesInPolygonResponse.polygon r = sample_triangle.
Proof.
  pose proof (getZonesInPolygon_polygon_as_given
                sample_lib sample_triangle (JS.of_Z 9)) as (_ & Hecho & Htot & _).
  destruct (Htot sample_lib_never_throws) as [r Hr].
  exists r. split; [exact Hr | exact (Hecho r Hr)].
Defined.



(** One step of a run: name the answer of the next library call. *)
Ltac run_step :=
  cbv zeta; rewrite ?result_pbind, ?result_call;
  match goal with
  | |- context [cbind (?lib ?c) _] =>
      lazymatch type of lib with H3Lib => idtac end;
      let x := fresh "x" in
      let Hx := fresh "Hx" in
      destruct (lib c) as [x | ?] eqn:Hx; cbind_reduce; try discriminate
  end.

Ltac run_map :=
  cbv zeta; rewrite ?result_pbind;
  match goal with
  | |- context [cbind (result ?lib (mapP formatNeighborInfo ?l)) _] =>
      let infos := fresh "infos" in
      let Hm := fresh "Hm" in
      destruct (result lib (mapP formatNeighborInfo l)) as [infos | ?] eqn:Hm;
      cbind_reduce; try discriminate
  end.

(** C10.  In every response that carries a list of zones, [count] is the
    length of that list. *)
Theorem count_is_list_length :
  forall lib : H3Lib,
    (forall hash k r,
        result lib (getNeighbors hash k) = Normal r ->
        NeighborsResponse.count r = List.length (NeighborsResponse.neighbors r)) /\
    (forall boundingBox resolution r,
        result lib (getZonesInArea boundingBox resolution) = Normal r ->
        ZonesInAreaResponse.count r = List.length (ZonesInAreaResponse.zones r)) /\
    (forall center radius resolution r,
        result lib (getZonesInRadius center radius resolution) = Normal r ->
        ZonesInRadiusResponse.count r = List.length (ZonesInRadiusResponse.zones r)) /\
    (forall polygon resolution r,
        result lib (getZonesInPolygon polygon resolution) = Normal r ->
        ZonesInPolygonResponse.count r = List.length (ZonesInPolygonResponse.zones r)) /\
    (never_throws lib ->
     (forall hash k, exists r, result lib (getNeighbors hash k) = Normal r) /\
     (forall boundingBox resolution,
         exists r, result lib (getZonesInArea boundingBox resolution) = Normal r) /\
     (forall center radius resolution,
         exists r, result lib (getZonesInRadius center radius resolution) = Normal r) /\
     (forall polygon resolution,
         exists r, result lib (getZonesInPolygon polygon resolution) = Normal r)).
Proof.
  intros lib. repeat split.
  - intros hash k r. unfold getNeighbors.
    run_step. run_map. run_step.
    intros H. injection H as <-. simpl.
    eapply mapP_formatNeighborInfo_length; eassumption.
  - intros boundingBox resolution r. unfold getZonesInArea.
    run_step. run_map.
    intros H. injection H as <-. simpl.
    eapply mapP_formatNeighborInfo_length; eassumption.
  - intros center radius resolution r. unfold getZonesInRadius.
    run_step. run_step. run_map.
    intros H. injection H as <-. simpl.
    eapply mapP_formatNeighborInfo_length; eassumption.
  - intros polygon resolution r. unfold getZonesInPolygon.
    run_step. run_map.
    intros H. injection H as <-. simpl.
    eapply mapP_formatNeighborInfo_length; eassumption.
  - intros; apply never_throws_result; assumption.
  - intros; apply never_throws_result; assumption.
  - intros; apply never_throws_result; assumption.
  - intros; apply never_throws_result; assumption.
Qed.

(** The neighbours of a cell against the sample library. *)
Lemma count_is_list_length_witness :
  exists r,
    result sample_lib (getNeighbors sample_hash (Some (JS.of_Z 2))) = Normal r /\
    NeighborsResponse.count r = List.length (NeighborsResponse.neighbors r).
Proof.
  pose proof (count_is_list_length sample_lib) as (Hcount & _ & _ & _ & Htot).
  destruct (Htot sample_lib_never_throws) as (Hn & _).
  destruct (Hn sample_hash (Some (JS.of_Z 2))) as [r Hr].
  exists r. split; [exact Hr | exact (Hcount _ _ r Hr)].
Defined.


(* ================================================================== *)
(** ** Neighbours and zone details: properties *)

Lemma filter_not_self (hash : string) (disk : list string) :
  ~ In hash (filter (fun h => negb (String.eqb h hash)) disk) /\
  forall h, In h (filter (fun h => negb (String.eqb h hash)) disk) <->
            In h disk /\ h <> hash.
Proof.
  split.
  - intros H. apply filter_In in H. destruct H as [_ H].
    rewrite String.eqb_refl in H. discriminate.
  - intros h. rewrite filter_In. split.
    + intros [Hin Hne]. split; [exact Hin |].
      intros ->. rewrite String.eqb_refl in Hne. discriminate.
    + intros [Hin Hne]. split; [exact Hin |].
      destruct (String.eqb_spec h hash); [contradiction | reflexivity].
Qed.

(** C5.  The neighbours [getNeighbors] returns are, in order, the cells of
    the disk of radius [k] around the hash, none removed: when the disk
    contains the hash (as a ring-disk does), so does the answer.  The
    [neighbors] of [getDetailedZoneInfo] are the disk of radius 1 without
    the hash. *)
Theorem getNeighbors_keeps_origin :
  forall (lib : H3Lib) (hash : string) (k : JS.number),
    (forall r,
        result lib (getNeighbors hash (Some k)) = Normal r ->
        exists disk,
          lib (gridDisk hash k) = Normal disk /\
          map NeighborInfo.hash (NeighborsResponse.neighbors r) = disk /\
          (In hash disk ->
           In hash (map NeighborInfo.hash (NeighborsResponse.neighbors r)))) /\
    (forall d,
        result lib (getDetailedZoneInfo hash) = Normal d ->
        exists disk,
          lib (gridDisk hash (JS.of_Z 1)) = Normal disk /\
          DetailedZoneInfo.neighbors d =
          filter (fun h => negb (String.eqb h hash)) disk /\
          ~ In hash (DetailedZoneInfo.neighbors d) /\
          (forall h, In h (DetailedZoneInfo.neighbors d) <->
                     In h disk /\ h <> hash)) /\
    (never_throws lib ->
     (exists r, result lib (getNeighbors hash (Some k)) = Normal r) /\
     (exists d, result lib (getDetailedZoneInfo hash) = Normal d)).
Proof.
  intros lib hash k. split; [| split].
  - intros r. unfold getNeighbors.
    run_step. run_map. run_step.
    intros H. injection H as <-. simpl.
    destruct (mapP_formatNeighborInfo lib x) as [_ Hmap].
    destruct (Hmap infos Hm) as [Hh _].
    exists x. rewrite Hh. auto.
  - intros d. unfold getDetailedZoneInfo.
    run_step. run_step. run_step. run_step.
    rewrite result_pbind.
    destruct (result lib (if JS.gt x1 (JS.of_Z 0) then _ else _)) as [parent | e];
      cbind_reduce; try discriminate.
    rewrite result_pbind.
    destruct (result lib (if JS.lt x1 (JS.of_Z 15) then _ else _)) as [children | e];
      cbind_reduce; try discriminate.
    intros H. injection H as <-. simpl.
    exists x2. split; [reflexivity | split; [reflexivity |]].
    apply filter_not_self.
  - intros Hlib. split; apply never_throws_result; exact Hlib.
Qed.

(** The sample library puts the origin in every disk. *)
Lemma getNeighbors_keeps_origin_witness :
  exists r,
    result sample_lib (getNeighbors sample_hash (Some (JS.of_Z 1))) = Normal r /\
    In sample_hash (map NeighborInfo.hash (NeighborsResponse.neighbors r)).
Proof.
  pose proof (getNeighbors_keeps_origin sample_lib sample_hash (JS.of_Z 1))
    as (Hdisk & _ & Htot).
  destruct (Htot sample_lib_never_throws) as [[r Hr] _].
  destruct (Hdisk r Hr) as (disk & Hd & _ & Hin).
  exists r. split; [exact Hr |]. apply Hin.
  injection Hd as <-. left. reflexivity.
Defined.


(** Arithmetic and comparisons on the resolutions 0 ... 15. *)
Lemma resolution_arith (z : Z) :
  0 <= z <= 15 ->
  JS.gt (JS.of_Z z) (JS.of_Z 0) = (0 <? z) /\
  JS.lt (JS.of_Z z) (JS.of_Z 15) = (z <? 15) /\
  JS.sub (JS.of_Z z) (JS.of_Z 1) = JS.of_Z (z - 1) /\
  JS.add (JS.of_Z z) (JS.of_Z 1) = JS.of_Z (z + 1).
Proof.
  intros Hz.
  assert (Hz' : z = 0 \/ z = 1 \/ z = 2 \/ z = 3 \/ z = 4 \/ z = 5 \/ z = 6
                \/ z = 7 \/ z = 8 \/ z = 9 \/ z = 10 \/ z = 11 \/ z = 12
                \/ z = 13 \/ z = 14 \/ z = 15) by lia.
  repeat (destruct Hz' as [-> | Hz']); try subst z;
    vm_compute; repeat split; reflexivity.
Qed.

(** C4.  For a cell whose resolution the library reports as [z], from 0 to
    15: [parent] is [null] exactly when [z] is 0 and is otherwise the parent
    at [z - 1]; [children] is empty when [z] is 15 and is otherwise the
    first ten children at [z + 1]; [childrenCount] counts all of them. *)
Theorem getDetailedZoneInfo_parent_children :
  forall (lib : H3Lib) (hash : string) (z : Z),
    lib (getResolution hash) = Normal (JS.of_Z z) ->
    0 <= z <= 15 ->
    (never_throws lib ->
     exists d, result lib (getDetailedZoneInfo hash) = Normal d) /\
    (forall d,
        result lib (getDetailedZoneInfo hash) = Normal d ->
        DetailedZoneInfo.resolution d = JS.of_Z z /\
        (DetailedZoneInfo.parent d = None <-> z = 0) /\
        (z <> 0 ->
         exists p,
           lib (cellToParent hash (JS.of_Z (z - 1))) = Normal p /\
           DetailedZoneInfo.parent d = Some p) /\
        (z = 15 ->
         DetailedZoneInfo.children d = [] /\
         DetailedZoneInfo.childrenCount d = 0%nat) /\
        (z <> 15 ->
         exists all_children,
           lib (cellToChildren hash (JS.of_Z (z + 1))) = Normal all_children /\
           DetailedZoneInfo.children d = firstn 10 all_children /\
           DetailedZoneInfo.childrenCount d = List.length all_children)).
Proof.
  intros lib hash z Hres Hz.
  split; [intros Hlib; apply never_throws_result; exact Hlib |].
  intros d. unfold getDetailedZoneInfo.
  run_step. run_step.
  rewrite result_pbind, result_call, Hres. cbind_reduce.
  run_step.
  destruct (resolution_arith z Hz) as (Hgt & Hlt & Hsub & Hadd).
  rewrite Hgt, Hlt, Hsub, Hadd.
  destruct (Z.ltb_spec 0 z) as [Hpos | Hzero];
    destruct (Z.ltb_spec z 15) as [Hsmall | Hmax]; cbv beta iota.
  - run_step. rewrite result_Ret. cbind_reduce. run_step.
    intros H. injection H as <-. simpl.
    split; [reflexivity |]. split; [split; [discriminate | lia] |].
    split; [intros _; exists x2; auto |].
    split; [lia |]. intros _. exists x3. auto.
  - run_step. rewrite result_Ret. cbind_reduce.
    rewrite result_pbind, result_Ret. cbind_reduce.
    intros H. injection H as <-. simpl.
    split; [reflexivity |]. split; [split; [discriminate | lia] |].
    split; [intros _; exists x2; auto |].
    split; [auto | lia].
  - rewrite result_pbind, result_Ret. cbind_reduce. run_step.
    intros H. injection H as <-. simpl.
    split; [reflexivity |]. split; [split; [lia | reflexivity] |].
    split; [lia |].
    split; [lia |]. intros _. exists x2. auto.
  - lia.
Qed.

(** A cell of resolution 9 with seven children. *)
Lemma getDetailedZoneInfo_parent_children_witness :
  exists d,
    result sample_lib (getDetailedZoneInfo sample_hash) = Normal d /\
    DetailedZoneInfo.parent d = Some "882830826dfffff" /\
    DetailedZoneInfo.childrenCount d = 7%nat.
Proof.
  pose proof (getDetailedZoneInfo_parent_children
                sample_lib sample_hash 9 eq_refl ltac:(lia)) as [Htot Hspec].
  destruct (Htot sample_lib_never_throws) as [d Hd].
  destruct (Hspec d Hd) as (_ & _ & Hparent & _ & Hchildren).
  destruct (Hparent ltac:(lia)) as (p & Hp & Hpd).
  destruct (Hchildren ltac:(lia)) as (cs & Hcs & _ & Hn).
  exists d. split; [exact Hd |]. split.
  - rewrite Hpd. injection Hp as <-. reflexivity.
  - rewrite Hn. injection Hcs as <-. reflexivity.
Defined.


(* ------------------------------------------------------------------ *)
(** *** Digits and shifts *)

Lemma Zdigits2_bounds (m : Z) :
  0 < m -> 0 < Zdigits2 m /\ 2 ^ (Zdigits2 m - 1) <= m < 2 ^ Zdigits2 m.
Proof.
  destruct m as [ | p | p]; try lia. intros _.
  cbn [Zdigits2]. split; [lia | apply digits2_pos_bounds].
Qed.

Lemma Zdigits2_nonneg (m : Z) : 0 <= Zdigits2 m.
Proof. destruct m; cbn [Zdigits2]; lia. Qed.

Lemma Zdigits2_unique (m d : Z) :
  2 ^ (d - 1) <= m < 2 ^ d -> 0 < d -> Zdigits2 m = d.
Proof.
  intros [Hlo Hhi] Hd.
  assert (Hm : 0 < m).
  { eapply Z.lt_le_trans; [| exact Hlo]. apply Z.pow_pos_nonneg; lia. }
  destruct (Zdigits2_bounds m Hm) as (Hpos & Hlo' & Hhi').
  destruct (Z.lt_trichotomy (Zdigits2 m) d) as [H | [H | H]]; [exfalso | exact H | exfalso].
  - assert (2 ^ Zdigits2 m <= 2 ^ (d - 1)) by (apply Z.pow_le_mono_r; lia). lia.
  - assert (2 ^ d <= 2 ^ (Zdigits2 m - 1)) by (apply Z.pow_le_mono_r; lia). lia.
Qed.

(** At least [k + 1] digits from [2^k] on. *)
Lemma Zdigits2_lower (m k : Z) :
  0 <= k -> 2 ^ k <= m -> k + 1 <= Zdigits2 m.
Proof.
  intros Hk Hm.
  assert (Hpos : 0 < m).
  { eapply Z.lt_le_trans; [| exact Hm]. apply Z.pow_pos_nonneg; lia. }
  destruct (Zdigits2_bounds m Hpos) as (_ & _ & Hhi).
  destruct (Z.le_gt_cases (k + 1) (Zdigits2 m)) as [H | H]; [exact H | exfalso].
  assert (2 ^ Zdigits2 m <= 2 ^ k) by (apply Z.pow_le_mono_r; lia). lia.
Qed.

Lemma Zdigits2_mono (a b : Z) : 0 <= a <= b -> Zdigits2 a <= Zdigits2 b.
Proof.
  intros [Ha Hab].
  destruct (Z.eq_dec a 0) as [-> | Hne]; [apply Zdigits2_nonneg |].
  destruct (Zdigits2_bounds a ltac:(lia)) as (Hpos & Hlo & _).
  pose proof (Zdigits2_lower b (Zdigits2 a - 1) ltac:(lia) ltac:(lia)). lia.
Qed.

(** Dropping [n] low bits drops [n] digits, as long as some remain. *)
Lemma Zdigits2_shift (m n : Z) :
  0 < m -> 0 <= n ->
  (n < Zdigits2 m -> Zdigits2 (m / 2 ^ n) = Zdigits2 m - n) /\
  (Zdigits2 m <= n -> m / 2 ^ n = 0).
Proof.
  intros Hm Hn.
  destruct (Zdigits2_bounds m Hm) as (Hpos & Hlo & Hhi).
  assert (Hp : 0 < 2 ^ n) by (apply Z.pow_pos_nonneg; lia).
  split.
  - intros Hlt. apply Zdigits2_unique; [| lia]. split.
    + apply Z.div_le_lower_bound; [exact Hp |].
      rewrite <- Z.pow_add_r by lia.
      replace (n + (Zdigits2 m - n - 1)) with (Zdigits2 m - 1) by lia. exact Hlo.
    + apply Z.div_lt_upper_bound; [exact Hp |].
      rewrite <- Z.pow_add_r by lia.
      replace (n + (Zdigits2 m - n)) with (Zdigits2 m) by lia. exact Hhi.
  - intros Hle. apply Z.div_small. split; [lia |].
    eapply Z.lt_le_trans; [exact Hhi |]. apply Z.pow_le_mono_r; lia.
Qed.

Lemma shr_1_m (mrs : shr_record) :
  0 <= shr_m mrs -> shr_m (shr_1 mrs) = shr_m mrs / 2.
Proof.
  destruct mrs as [m r s]. cbn [shr_m]. intros Hm.
  destruct m as [ | p | p]; [reflexivity | | lia].
  destruct p as [p | p | ]; cbn [shr_1 shr_m].
  - apply (Z.div_unique (Z.pos p~1) 2 (Z.pos p) 1); lia.
  - apply (Z.div_unique (Z.pos p~0) 2 (Z.pos p) 0); lia.
  - reflexivity.
Qed.

Lemma iter_shr_1_m (p : positive) :
  forall mrs, 0 <= shr_m mrs ->
              shr_m (iter_pos shr_1 p mrs) = shr_m mrs / 2 ^ Z.pos p /\
              0 <= shr_m (iter_pos shr_1 p mrs).
Proof.
  assert (Hpow : forall q, 0 < 2 ^ Z.pos q) by (intros; apply Z.pow_pos_nonneg; lia).
  assert (Hhalf : forall mrs, 0 <= shr_m mrs ->
                              shr_m (shr_1 mrs) = shr_m mrs / 2 /\
                              0 <= shr_m (shr_1 mrs)).
  { intros mrs Hm. rewrite shr_1_m by exact Hm.
    split; [reflexivity | apply Z.div_pos; lia]. }
  induction p as [p IH | p IH | ]; intros mrs Hm; cbn [iter_pos].
  - destruct (Hhalf mrs Hm) as [E1 H1].
    destruct (IH _ H1) as [E2 H2]. destruct (IH _ H2) as [E3 H3].
    split; [| exact H3]. rewrite E3, E2, E1.
    rewrite !Z.div_div by (try lia; apply Hpow).
    f_equal. rewrite (Pos2Z.inj_xI p).
    replace (2 * Z.pos p + 1) with (1 + Z.pos p + Z.pos p) by lia.
    rewrite !Z.pow_add_r by lia. change (2 ^ 1) with 2. lia.
  - destruct (IH _ Hm) as [E2 H2]. destruct (IH _ H2) as [E3 H3].
    split; [| exact H3]. rewrite E3, E2.
    rewrite !Z.div_div by (try lia; apply Hpow).
    f_equal. rewrite (Pos2Z.inj_xO p).
    replace (2 * Z.pos p) with (Z.pos p + Z.pos p) by lia.
    rewrite Z.pow_add_r by lia. reflexivity.
  - apply Hhalf. exact Hm.
Qed.

(* ------------------------------------------------------------------ *)
(** *** Rounding gives binary64 values *)

Lemma fexp_eq (x : Z) : fexp JS.prec JS.emax x = Z.max (x - 53) (-1074).
Proof. reflexivity. Qed.

Lemma fexp_mono (x y : Z) :
  x <= y -> fexp JS.prec JS.emax x <= fexp JS.prec JS.emax y.
Proof. rewrite !fexp_eq. lia. Qed.

Lemma shr_record_of_loc_m (m : Z) (l : location) :
  shr_m (shr_record_of_loc m l) = m.
Proof. destruct l as [ | [ | | ]]; reflexivity. Qed.

(** What [shr_fexp] does to a mantissa that is long enough: it drops the
    bits below the exponent the format asks for. *)
Lemma shr_fexp_spec (m e : Z) (l : location) :
  0 <= m ->
  e <= fexp JS.prec JS.emax (Zdigits2 m + e) ->
  exists mrs,
    shr_fexp JS.prec JS.emax m e l = (mrs, fexp JS.prec JS.emax (Zdigits2 m + e)) /\
    shr_m mrs = m / 2 ^ (fexp JS.prec JS.emax (Zdigits2 m + e) - e) /\
    0 <= shr_m mrs.
Proof.
  intros Hm He. unfold shr_fexp, shr.
  set (e' := fexp JS.prec JS.emax (Zdigits2 m + e)) in *.
  destruct (e' - e) as [ | p | p] eqn:Hn; [| | lia].
  - exists (shr_record_of_loc m l). rewrite shr_record_of_loc_m.
    replace e' with e by lia.
    split; [reflexivity | split; [| exact Hm]].
    rewrite Z.pow_0_r, Z.div_1_r. reflexivity.
  - destruct (iter_shr_1_m p (shr_record_of_loc m l)) as [E H];
      [rewrite shr_record_of_loc_m; exact Hm |].
    rewrite shr_record_of_loc_m in E.
    exists (iter_pos shr_1 p (shr_record_of_loc m l)).
    split; [f_equal; lia | split; [exact E | exact H]].
Qed.

(** The mantissa it leaves is the one the format asks for. *)
Lemma shr_result_canonical (m e : Z) :
  0 <= m ->
  e <= fexp JS.prec JS.emax (Zdigits2 m + e) ->
  let e' := fexp JS.prec JS.emax (Zdigits2 m + e) in
  let m' := m / 2 ^ (e' - e) in
  (0 < m' -> fexp JS.prec JS.emax (Zdigits2 m' + e') = e') /\
  (m' = 0 -> e' = -1074).
Proof.
  intros Hm He e' m'.
  assert (Hn : 0 <= e' - e) by lia.
  destruct (Z.eq_dec m 0) as [-> | Hne].
  - assert (Hm' : m' = 0) by (subst m'; apply Z.div_0_l;
                              apply Z.pow_nonzero; lia).
    split; [lia |]. intros _. subst e'. cbn [Zdigits2] in *.
    rewrite fexp_eq in *. lia.
  - destruct (Zdigits2_shift m (e' - e) ltac:(lia) Hn) as [Hlong Hshort].
    destruct (Z.lt_ge_cases (e' - e) (Zdigits2 m)) as [Hlt | Hge].
    + specialize (Hlong Hlt). split.
      * intros _. subst m'. rewrite Hlong.
        replace (Zdigits2 m - (e' - e) + e') with (Zdigits2 m + e) by lia.
        reflexivity.
      * intros H0. exfalso. subst m'.
        pose proof (Zdigits2_bounds m ltac:(lia)) as [Hd _].
        rewrite H0 in Hlong. cbn [Zdigits2] in Hlong. lia.
    + specialize (Hshort Hge). split; [subst m'; lia |].
      intros _. subst e'. rewrite fexp_eq in *. lia.
Qed.

Lemma round_nearest_even_bounds (m : Z) (l : location) :
  m <= round_nearest_even m l <= m + 1.
Proof.
  destruct l as [ | [ | | ]]; cbn [round_nearest_even]; try lia.
  destruct (Z.even m); lia.
Qed.

(** Rounding a mantissa that is long enough gives a binary64 value. *)
Lemma binary_round_aux_valid (s : bool) (m e : Z) (l : location) :
  0 <= m ->
  e <= fexp JS.prec JS.emax (Zdigits2 m + e) ->
  JS.is_double (binary_round_aux JS.prec JS.emax s m e l) = true.
Proof.
  intros Hm He. unfold binary_round_aux.
  destruct (shr_fexp_spec m e l Hm He) as (mrs & -> & E1 & H1).
  destruct (shr_result_canonical m e Hm He) as [Hcanon Hsmall].
  cbv zeta in Hcanon, Hsmall. rewrite <- E1 in Hcanon, Hsmall.
  set (e1 := fexp JS.prec JS.emax (Zdigits2 m + e)) in *.
  set (m2 := round_nearest_even (shr_m mrs) (loc_of_shr_record mrs)).
  pose proof (round_nearest_even_bounds (shr_m mrs) (loc_of_shr_record mrs)) as Hround.
  fold m2 in Hround.
  assert (Hm2 : 0 <= m2) by lia.
  assert (He1 : e1 <= fexp JS.prec JS.emax (Zdigits2 m2 + e1)).
  { destruct (Z.eq_dec (shr_m mrs) 0) as [H0 | Hne].
    - rewrite (Hsmall H0). rewrite fexp_eq. lia.
    - rewrite <- (Hcanon ltac:(lia)) at 1. apply fexp_mono.
      pose proof (Zdigits2_mono (shr_m mrs) m2 ltac:(lia)). lia. }
  destruct (shr_fexp_spec m2 e1 loc_Exact Hm2 He1) as (mrs2 & -> & E2 & H2).
  destruct (shr_result_canonical m2 e1 Hm2 He1) as [Hcanon2 _].
  cbv zeta in Hcanon2. rewrite <- E2 in Hcanon2.
  destruct (shr_m mrs2) as [ | p | p] eqn:Hp; [reflexivity | | lia].
  destruct (Z.leb_spec (fexp JS.prec JS.emax (Zdigits2 m2 + e1)) (JS.emax - JS.prec))
    as [Hle | Hgt]; [| reflexivity].
  unfold JS.is_double, valid_binary, bounded, canonical_mantissa.
  apply andb_true_iff. split.
  - apply Z.eqb_eq. apply (Hcanon2 ltac:(lia)).
  - apply Z.leb_le. exact Hle.
Qed.

(** The quotient mantissa of a division is long enough. *)
Lemma SFdiv_core_binary_long (m1 m2 : positive) (e1 e2 : Z) :
  let '(q, e', _) := SFdiv_core_binary JS.prec JS.emax (Z.pos m1) e1 (Z.pos m2) e2 in
  0 <= q /\ e' <= fexp JS.prec JS.emax (Zdigits2 q + e').
Proof.
  unfold SFdiv_core_binary.
  set (d1 := Zdigits2 (Z.pos m1)). set (d2 := Zdigits2 (Z.pos m2)).
  set (e' := Z.min (fexp JS.prec JS.emax (d1 + e1 - (d2 + e2))) (e1 - e2)).
  set (s := e1 - e2 - e').
  assert (Hs : 0 <= s) by (subst s e'; lia).
  set (m' := match s with Z0 => Z.pos m1 | Z.pos _ => Z.shiftl (Z.pos m1) s | Z.neg _ => 0 end).
  assert (Hm' : m' = Z.pos m1 * 2 ^ s).
  { subst m'. destruct s as [ | p | p] eqn:Hp; [rewrite Z.pow_0_r; lia | | lia].
    apply Z.shiftl_mul_pow2. lia. }
  pose proof (Z.div_eucl_eq m' (Z.pos m2) ltac:(lia)) as Heq.
  pose proof (Z.mod_pos_bound m' (Z.pos m2) ltac:(lia)) as Hmod.
  unfold Z.modulo in Hmod.
  destruct (Z.div_eucl m' (Z.pos m2)) as [q r].
  assert (Hp : 0 < 2 ^ s) by (apply Z.pow_pos_nonneg; lia).
  assert (Hq : 0 <= q) by nia.
  split; [exact Hq |].
  destruct (Zdigits2_bounds (Z.pos m1) ltac:(lia)) as (Hd1 & Hlo1 & _).
  destruct (Zdigits2_bounds (Z.pos m2) ltac:(lia)) as (Hd2 & _ & Hhi2).
  fold d1 in Hd1, Hlo1. fold d2 in Hd2, Hhi2.
  assert (Hdigits : d1 + s - d2 <= Zdigits2 q).
  { destruct (Z.le_gt_cases (d1 + s - d2) 0) as [Hsmall | Hbig].
    - pose proof (Zdigits2_nonneg q). lia.
    - assert (Hlow : 2 ^ (d1 + s - d2 - 1) <= q).
      { assert (Hsplit : 2 ^ (d1 - 1) * 2 ^ s = 2 ^ (d1 + s - d2 - 1) * 2 ^ d2).
        { rewrite <- !Z.pow_add_r by lia. f_equal. lia. }
        assert (0 < 2 ^ (d1 + s - d2 - 1)) by (apply Z.pow_pos_nonneg; lia).
        assert (0 < 2 ^ d2) by (apply Z.pow_pos_nonneg; lia).
        assert (0 < 2 ^ (d1 - 1)) by (apply Z.pow_pos_nonneg; lia).
        set (A := 2 ^ (d1 + s - d2 - 1)) in *.
        set (B := 2 ^ d2) in *. set (C := 2 ^ (d1 - 1)) in *.
        set (S := 2 ^ s) in *.
        clearbody A B C S. clear - Heq Hmod Hm' Hlo1 Hhi2 Hsplit H H0 H1 Hp Hq.
        destruct (Z.le_gt_cases A q) as [Hle | Hgt]; [exact Hle | exfalso].
        assert (q + 1 <= A) by lia.
        assert (m' < Z.pos m2 * (q + 1)) by nia.
        assert (Z.pos m2 * (q + 1) <= Z.pos m2 * A) by nia.
        assert (Z.pos m2 * A < B * A) by nia.
        assert (C * S <= m') by nia.
        nia. }
      pose proof (Zdigits2_lower q (d1 + s - d2 - 1) ltac:(lia) Hlow). lia. }
  eapply Z.le_trans; [apply Z.le_min_l |]. fold e'.
  apply fexp_mono. subst s. lia.
Qed.

(** The quotient of two numbers is a binary64 value. *)
Lemma div_is_double (x y : JS.number) : JS.is_double (JS.div x y) = true.
Proof.
  unfold JS.div, SFdiv.
  destruct x as [sx | sx | | sx mx ex], y as [sy | sy | | sy my ey];
    try reflexivity.
  pose proof (SFdiv_core_binary_long mx my ex ey) as H.
  destruct (SFdiv_core_binary JS.prec JS.emax (Z.pos mx) ex (Z.pos my) ey)
    as [[q e'] l].
  destruct H as [Hq He]. apply binary_round_aux_valid; assumption.
Qed.

(* ------------------------------------------------------------------ *)
(** *** Integer literals and comparison *)

Lemma shr_fexp_exact (m e : Z) (l : location) :
  fexp JS.prec JS.emax (Zdigits2 m + e) = e ->
  shr_fexp JS.prec JS.emax m e l = (shr_record_of_loc m l, e).
Proof.
  intros H. unfold shr_fexp, shr. rewrite H, Z.sub_diag. reflexivity.
Qed.

(** A mantissa of the length the format asks for is kept as it is. *)
Lemma binary_round_aux_exact (s : bool) (m : positive) (e : Z) :
  fexp JS.prec JS.emax (Zdigits2 (Z.pos m) + e) = e ->
  e <= 971 ->
  binary_round_aux JS.prec JS.emax s (Z.pos m) e loc_Exact = S754_finite s m e.
Proof.
  intros Hcanon He. unfold binary_round_aux.
  rewrite (shr_fexp_exact _ _ _ Hcanon).
  cbn [shr_record_of_loc shr_m loc_of_shr_record shr_r shr_s round_nearest_even].
  rewrite (shr_fexp_exact _ _ _ Hcanon).
  cbn [shr_record_of_loc shr_m].
  destruct (Z.leb_spec e (JS.emax - JS.prec)) as [_ | H]; [reflexivity |].
  unfold JS.emax, JS.prec in H. lia.
Qed.

Lemma Zdigits2_scale (z k : Z) :
  0 < z -> 0 <= k -> Zdigits2 (z * 2 ^ k) = Zdigits2 z + k.
Proof.
  intros Hz Hk.
  destruct (Zdigits2_bounds z Hz) as (Hd & Hlo & Hhi).
  apply Zdigits2_unique; [| lia].
  replace (Zdigits2 z + k - 1) with (Zdigits2 z - 1 + k) by lia.
  rewrite !Z.pow_add_r by lia.
  assert (0 < 2 ^ k) by (apply Z.pow_pos_nonneg; lia).
  nia.
Qed.

(** The number an integer literal below [2^53] denotes: the integer itself,
    with its mantissa extended to 53 bits. *)
Lemma of_Z_exact (z : Z) :
  0 < z < 2 ^ 53 ->
  JS.of_Z z =
  S754_finite false (Z.to_pos (z * 2 ^ (53 - Zdigits2 z))) (Zdigits2 z - 53).
Proof.
  intros [Hz Hhi].
  destruct (Zdigits2_bounds z Hz) as (Hd & Hlo & _).
  assert (Hd53 : Zdigits2 z <= 53).
  { destruct (Z.le_gt_cases (Zdigits2 z) 53) as [H | H]; [exact H | exfalso].
    assert (2 ^ 53 <= 2 ^ (Zdigits2 z - 1)) by (apply Z.pow_le_mono_r; lia).
    lia. }
  destruct z as [ | p | p]; try lia.
  unfold JS.of_Z, binary_normalize, binary_round.
  change (Z.pos (digits2_pos p)) with (Zdigits2 (Z.pos p)).
  set (d := Zdigits2 (Z.pos p)) in *.
  rewrite fexp_eq. rewrite Z.max_l by lia.
  unfold shl_align.
  assert (Hk : 0 < Z.pos p * 2 ^ (53 - d)).
  { apply Z.mul_pos_pos; [lia | apply Z.pow_pos_nonneg; lia]. }
  destruct (d + 0 - 53 - 0) as [ | k | k] eqn:Hshift; try lia.
  - replace (53 - d) with 0 in * by lia.
    replace (d - 53) with 0 by lia.
    rewrite Z.pow_0_r, Z.mul_1_r. cbn [Z.to_pos].
    apply binary_round_aux_exact; [| lia].
    fold d. rewrite fexp_eq. lia.
  - assert (Hm : Z.pos (Pos.iter xO p k) = Z.pos p * 2 ^ (53 - d)).
    { change (Pos.iter xO p k) with (shift_pos k p).
      rewrite shift_pos_correct.
      change (Z.pow_pos 2 k) with (2 ^ Z.pos k).
      replace (53 - d) with (Z.pos k) by lia. lia. }
    replace (d + 0 - 53) with (d - 53) by lia.
    rewrite <- Hm. cbn [Z.to_pos].
    apply binary_round_aux_exact; [| lia].
    rewrite Hm, Zdigits2_scale by lia. fold d. rewrite fexp_eq. lia.
Qed.

Lemma compare_cont_Eq (a b : positive) :
  Pos.compare_cont Eq a b = (Z.pos a ?= Z.pos b).
Proof. reflexivity. Qed.

(** Comparing an integer literal with a positive binary64 value that has a
    fractional exponent compares the integer, scaled, with the mantissa. *)
Lemma compare_of_Z (z : Z) (m : positive) (e : Z) :
  0 < z < 2 ^ 53 ->
  e <= 0 ->
  JS.is_double (S754_finite false m e) = true ->
  SFcompare (JS.of_Z z) (S754_finite false m e) =
  Some (z * 2 ^ (- e) ?= Z.pos m).
Proof.
  intros Hz He Hd.
  rewrite (of_Z_exact z Hz).
  destruct (is_double_mantissa _ _ _ Hd) as [Hm53 Hdig].
  pose proof (digits2_pos_bounds m) as [Hmlo _].
  destruct (Zdigits2_bounds z ltac:(lia)) as (Hdz & Hzlo & Hzhi).
  set (d := Zdigits2 z) in *.
  assert (Hd53 : d <= 53).
  { destruct (Z.le_gt_cases d 53) as [H | H]; [exact H | exfalso].
    assert (2 ^ 53 <= 2 ^ (d - 1)) by (apply Z.pow_le_mono_r; lia).
    lia. }
  assert (Hpe : 0 < 2 ^ (- e)) by (apply Z.pow_pos_nonneg; lia).
  unfold SFcompare. f_equal.
  destruct (Z.compare_spec (d - 53) e) as [Heq | Hlt | Hgt].
  - rewrite compare_cont_Eq. rewrite Z2Pos.id.
    + replace (53 - d) with (- e) by lia. reflexivity.
    + apply Z.mul_pos_pos; [lia | apply Z.pow_pos_nonneg; lia].
  - symmetry. apply Z.compare_lt_iff.
    destruct Hdig as [Hdig | ->]; [| lia].
    rewrite Hdig in Hmlo.
    assert (Hstep : 2 ^ d * 2 ^ (- e) <= 2 ^ (53 - 1)).
    { rewrite <- Z.pow_add_r by lia. apply Z.pow_le_mono_r; lia. }
    assert (z * 2 ^ (- e) < 2 ^ d * 2 ^ (- e)) by (apply Z.mul_lt_mono_pos_r; lia).
    lia.
  - symmetry. apply Z.compare_gt_iff.
    assert (Hstep : 2 ^ 53 <= 2 ^ (d - 1) * 2 ^ (- e)).
    { rewrite <- Z.pow_add_r by lia. apply Z.pow_le_mono_r; lia. }
    assert (2 ^ (d - 1) * 2 ^ (- e) <= z * 2 ^ (- e))
      by (apply Z.mul_le_mono_nonneg_r; lia).
    lia.
Qed.

Lemma of_Z_is_double (z : Z) : 0 < z < 2 ^ 53 -> JS.is_double (JS.of_Z z) = true.
Proof.
  intros Hz. rewrite (of_Z_exact z Hz).
  destruct (Zdigits2_bounds z ltac:(lia)) as (Hdz & Hzlo & Hzhi).
  assert (Hd53 : Zdigits2 z <= 53).
  { destruct (Z.le_gt_cases (Zdigits2 z) 53) as [H | H]; [exact H | exfalso].
    assert (2 ^ 53 <= 2 ^ (Zdigits2 z - 1)) by (apply Z.pow_le_mono_r; lia).
    lia. }
  assert (Hk : 0 < z * 2 ^ (53 - Zdigits2 z)).
  { apply Z.mul_pos_pos; [lia | apply Z.pow_pos_nonneg; lia]. }
  unfold JS.is_double, valid_binary, bounded, canonical_mantissa.
  apply andb_true_iff. split.
  - apply Z.eqb_eq.
    change (Z.pos (digits2_pos ?p)) with (Zdigits2 (Z.pos p)).
    rewrite Z2Pos.id by exact Hk.
    rewrite Zdigits2_scale by lia. rewrite fexp_eq. lia.
  - apply Z.leb_le. unfold JS.emax, JS.prec. lia.
Qed.

(** Integer literals below [2^53] compare as the integers do. *)
Lemma compare_of_Z_of_Z (a b : Z) :
  0 < a < 2 ^ 53 -> 0 < b < 2 ^ 53 ->
  SFcompare (JS.of_Z a) (JS.of_Z b) = Some (a ?= b).
Proof.
  intros Ha Hb.
  pose proof (of_Z_is_double b Hb) as Hd.
  destruct (Zdigits2_bounds b ltac:(lia)) as (Hdb & Hblo & Hbhi).
  assert (Hd53 : Zdigits2 b <= 53).
  { destruct (Z.le_gt_cases (Zdigits2 b) 53) as [H | H]; [exact H | exfalso].
    assert (2 ^ 53 <= 2 ^ (Zdigits2 b - 1)) by (apply Z.pow_le_mono_r; lia).
    lia. }
  assert (Hp : 0 < 2 ^ (53 - Zdigits2 b)) by (apply Z.pow_pos_nonneg; lia).
  revert Hd. rewrite (of_Z_exact b Hb). intros Hd.
  rewrite (compare_of_Z a _ (Zdigits2 b - 53) Ha ltac:(lia) Hd).
  rewrite Z2Pos.id by (apply Z.mul_pos_pos; lia).
  replace (- (Zdigits2 b - 53)) with (53 - Zdigits2 b) by lia.
  f_equal.
  destruct (Z.compare_spec a b) as [-> | Hlt | Hgt].
  - apply Z.compare_refl.
  - apply Z.compare_lt_iff. apply Z.mul_lt_mono_pos_r; lia.
  - apply Z.compare_gt_iff. apply Z.mul_lt_mono_pos_r; lia.
Qed.

(* ------------------------------------------------------------------ *)
(** *** The ring estimate *)

Lemma of_Z_2_52 : JS.of_Z (2 ^ 52) = S754_finite false 4503599627370496 0.
Proof. vm_compute. reflexivity. Qed.

Lemma Math_max_1_1 : JS.Math_max (JS.of_Z 1) (JS.of_Z 1) = JS.of_Z 1.
Proof. vm_compute. reflexivity. Qed.

(** [Math.ceil] of a positive number with a fractional exponent is the
    literal of the least integer not below it. *)
Lemma Math_ceil_fraction (m : positive) (e : Z) :
  JS.is_double (S754_finite false m e) = true ->
  e < 0 ->
  exists n,
    JS.Math_ceil (S754_finite false m e) = JS.of_Z n /\
    1 <= n <= 2 ^ 52 /\
    (n - 1) * 2 ^ (- e) < Z.pos m <= n * 2 ^ (- e).
Proof.
  intros Hd He.
  destruct (is_double_mantissa _ _ _ Hd) as [Hm53 _].
  assert (HD : 2 ^ 1 <= 2 ^ (- e)) by (apply Z.pow_le_mono_r; lia).
  change (2 ^ 1) with 2 in HD.
  change (2 ^ 53) with (2 * 2 ^ 52) in Hm53.
  unfold JS.Math_ceil.
  destruct (Z.leb_spec 0 e) as [H | _]; [lia |].
  cbv zeta. unfold cond_Zopp.
  pose proof (Z.div_mod (Z.pos m) (2 ^ (- e)) ltac:(lia)) as Hdm.
  pose proof (Z.mod_pos_bound (Z.pos m) (2 ^ (- e)) ltac:(lia)) as Hmod.
  set (D := 2 ^ (- e)) in *. set (P := 2 ^ 52) in *.
  assert (HP : 0 < P) by (subst P; apply Z.pow_pos_nonneg; lia).
  set (q := Z.pos m / D) in *. set (r := Z.pos m mod D) in *.
  assert (Hq : 0 <= q) by (subst q; apply Z.div_pos; lia).
  clearbody D P q r.
  destruct (Z.eqb_spec r 0) as [Hr | Hr].
  - exists q. split; [reflexivity |]. split; nia.
  - exists (q + 1). split; [reflexivity |]. split; nia.
Qed.

(** What [max(1, ceil(q))] is, by the position of [q] among the integers. *)
Lemma ring_estimate_cases (q : JS.number) :
  JS.is_double q = true ->
  let k := JS.Math_max (JS.of_Z 1) (JS.Math_ceil q) in
  (q = JS.NaN -> k = JS.NaN) /\
  (JS.le q (JS.of_Z 1) = true -> k = JS.of_Z 1) /\
  (JS.lt (JS.of_Z 1) q = true ->
   JS.lt q (JS.of_Z (2 ^ 52)) = true ->
   exists z,
     1 < z <= 2 ^ 52 /\
     k = JS.of_Z z /\
     JS.lt (JS.of_Z (z - 1)) q = true /\
     JS.le q (JS.of_Z z) = true /\
     forall z', 0 < z' < 2 ^ 53 -> JS.le q (JS.of_Z z') = true -> z <= z') /\
  (JS.le (JS.of_Z (2 ^ 52)) q = true -> k = q).
Proof.
  intros Hd k. subst k.
  destruct q as [s | s | | s m e].
  - (* zeros *)
    rewrite of_Z_2_52, of_Z_1. cbn [JS.Math_ceil].
    unfold JS.Math_max, JS.le, JS.lt, SFleb, SFltb, SFcompare.
    repeat split; try discriminate; try reflexivity.
  - (* infinities *)
    rewrite of_Z_2_52, of_Z_1. cbn [JS.Math_ceil].
    unfold JS.Math_max, JS.le, JS.lt, SFleb, SFltb, SFcompare.
    destruct s; repeat split; try discriminate; try reflexivity.
  - (* NaN *)
    rewrite of_Z_2_52, of_Z_1. cbn [JS.Math_ceil].
    unfold JS.Math_max, JS.le, JS.lt, SFleb, SFltb, SFcompare.
    repeat split; try discriminate; try reflexivity.
  - destruct s.
    + (* negative numbers *)
      split; [discriminate |]. split; [| split].
      * intros _. apply Math_max_1_nonpositive.
        apply Math_ceil_nonpositive. reflexivity.
      * rewrite of_Z_1. unfold JS.lt, SFltb, SFcompare. discriminate.
      * rewrite of_Z_2_52. unfold JS.le, SFleb, SFcompare. discriminate.
    + destruct (is_double_mantissa _ _ _ Hd) as [Hm53 Hdig].
      pose proof (digits2_pos_bounds m) as [Hmlo _].
      split; [discriminate |].
      destruct (Z.leb_spec 0 e) as [He | He].
      * (* integers from 2^52 on *)
        assert (Hceil : JS.Math_ceil (S754_finite false m e) = S754_finite false m e).
        { unfold JS.Math_ceil. destruct (Z.leb_spec 0 e); [reflexivity | lia]. }
        rewrite Hceil. rewrite of_Z_2_52, of_Z_1.
        assert (Hc : (-52 ?= e) = Lt) by (apply Z.compare_lt_iff; lia).
        assert (Hc' : (e ?= -52) = Gt) by (apply Z.compare_gt_iff; lia).
        split; [| split].
        -- unfold JS.le, SFleb, SFcompare. rewrite Hc'. discriminate.
        -- intros _. unfold JS.lt, SFltb, SFcompare.
           destruct (Z.compare_spec e 0) as [-> | Hlt | Hgt];
             [| lia | discriminate].
           rewrite compare_cont_Eq.
           destruct Hdig as [Hdig | Hdig]; [| lia].
           rewrite Hdig in Hmlo. change (2 ^ (53 - 1)) with 4503599627370496 in Hmlo.
           destruct (Z.compare_spec (Z.pos m) 4503599627370496);
             [discriminate | lia | discriminate].
        -- intros _. unfold JS.Math_max, SFcompare. rewrite Hc. reflexivity.
      * (* numbers with a fractional exponent *)
        destruct (Math_ceil_fraction m e Hd He) as (n & -> & Hn & Hlo & Hhi).
        assert (HD : 0 < 2 ^ (- e)) by (apply Z.pow_pos_nonneg; lia).
        assert (H52 : 2 ^ 53 = 2 ^ 52 * 2) by reflexivity.
        assert (HD2 : 2 ^ 1 <= 2 ^ (- e)) by (apply Z.pow_le_mono_r; lia).
        change (2 ^ 1) with 2 in HD2.
        assert (Hcmp : forall z, 0 < z < 2 ^ 53 ->
                  SFcompare (JS.of_Z z) (S754_finite false m e) =
                  Some (z * 2 ^ (- e) ?= Z.pos m))
          by (intros z Hz; apply compare_of_Z; [exact Hz | lia | exact Hd]).
        assert (Hcmp' : forall z, 0 < z < 2 ^ 53 ->
                  SFcompare (S754_finite false m e) (JS.of_Z z) =
                  Some (CompOpp (z * 2 ^ (- e) ?= Z.pos m)))
          by (intros z Hz; rewrite SFcompare_swap, (Hcmp z Hz); reflexivity).
        assert (H1 : 0 < 1 < 2 ^ 53) by (split; reflexivity).
        assert (HP : 0 < 2 ^ 52) by reflexivity.
        split; [| split].
        -- unfold JS.le, SFleb. rewrite (Hcmp' 1 H1).
           destruct (Z.compare_spec (1 * 2 ^ (- e)) (Z.pos m)) as [Heq | Hlt | Hgt];
             cbn [CompOpp]; try discriminate; intros _.
           ++ replace n with 1 by nia. apply Math_max_1_1.
           ++ replace n with 1 by nia. apply Math_max_1_1.
        -- unfold JS.lt, JS.le, SFltb, SFleb. rewrite (Hcmp 1 H1).
           destruct (Z.compare_spec (1 * 2 ^ (- e)) (Z.pos m)) as [Heq | Hlt | Hgt];
             try discriminate. intros _ _.
           assert (Hn2 : 1 < n) by nia.
           exists n. split; [lia |]. split; [| split; [| split]].
           ++ unfold JS.Math_max.
              rewrite (compare_of_Z_of_Z 1 n H1 ltac:(lia)).
              replace (1 ?= n) with Lt by (symmetry; apply Z.compare_lt_iff; lia).
              reflexivity.
           ++ rewrite (Hcmp (n - 1) ltac:(lia)).
              replace ((n - 1) * 2 ^ (- e) ?= Z.pos m) with Lt
                by (symmetry; apply Z.compare_lt_iff; lia).
              reflexivity.
           ++ rewrite (Hcmp' n ltac:(lia)).
              destruct (Z.compare_spec (n * 2 ^ (- e)) (Z.pos m));
                [reflexivity | lia | reflexivity].
           ++ intros z' Hz'. rewrite (Hcmp' z' Hz').
              destruct (Z.compare_spec (z' * 2 ^ (- e)) (Z.pos m)) as [E | L | G];
                cbn [CompOpp]; try discriminate; intros _; nia.
        -- unfold JS.le, SFleb. rewrite (Hcmp (2 ^ 52) ltac:(split; reflexivity)).
           destruct (Z.compare_spec (2 ^ 52 * 2 ^ (- e)) (Z.pos m)) as [E | L | G];
             try discriminate; nia.
Qed.

(** What [min(k, 10)] is, by the position of [k]. *)
Lemma ring_bound_cases (k : JS.number) :
  let t := JS.Math_min k (JS.of_Z 10) in
  (k = JS.NaN -> t = JS.NaN) /\
  (JS.le k (JS.of_Z 10) = true -> t = k) /\
  (JS.lt (JS.of_Z 10) k = true -> t = JS.of_Z 10).
Proof.
  cbv zeta. unfold JS.le, JS.lt, SFleb, SFltb.
  rewrite (SFcompare_swap k (JS.of_Z 10)).
  unfold JS.Math_min. rewrite of_Z_10.
  split; [intros ->; reflexivity |].
  destruct (SFcompare k (S754_finite false 5629499534213120 (-49)))
    as [[ | | ] | ] eqn:Hc; cbn [option_map CompOpp];
    split; try discriminate; intros _; try reflexivity.
  destruct k as [[ | ] | s | | s m e]; try reflexivity. discriminate.
Qed.

(* ================================================================== *)
(** ** The ring estimate of [getZonesInRadius] *)

(** The response and the calls of [getZonesInRadius], in the terms of its
    text. *)
Lemma getZonesInRadius_result_shape (lib : H3Lib) center radius resolution r :
  result lib (getZonesInRadius center radius resolution) = Normal r ->
  let k := JS.Math_max (JS.of_Z 1) (JS.Math_ceil (JS.div radius (JS.of_Z 1000))) in
  ZonesInRadiusResponse.estimatedK r = k /\
  ZonesInRadiusResponse.note r = radius_note /\
  exists centerHash zones,
    lib (latLngToCell (Coordinates.lat center) (Coordinates.lng center)
                      resolution) = Normal centerHash /\
    lib (gridDisk centerHash (JS.Math_min k (JS.of_Z 10))) = Normal zones /\
    map NeighborInfo.hash (ZonesInRadiusResponse.zones r) = zones /\
    calls lib (getZonesInRadius center radius resolution) =
    latLngToCell (Coordinates.lat center) (Coordinates.lng center) resolution
    :: gridDisk centerHash (JS.Math_min k (JS.of_Z 10))
    :: map cellToLatLng zones.
Proof.
  revert r. intros r. unfold getZonesInRadius. cbv zeta.
  rewrite calls_pbind, calls_call, result_call.
  run_step. cbv beta iota.
  rewrite calls_pbind, calls_call, result_call.
  run_step. cbv beta iota.
  rewrite calls_pbind.
  run_map. cbv beta iota.
  intros H. injection H as <-.
  destruct (mapP_formatNeighborInfo lib x0) as [_ Hmap].
  destruct (Hmap infos Hm) as [Hh Hc].
  split; [reflexivity | split; [reflexivity |]].
  exists x, x0. rewrite Hc, calls_Ret, app_nil_r. auto.
Qed.

Ltac radius_example :=
  match goal with
  | Hr : result _ (getZonesInRadius _ _ _) = Normal _ |- _ =>
      destruct (getZonesInRadius_result_shape _ _ _ _ _ Hr)
        as (HK & _ & centerHash & zones & Hcell & Hdisk & _ & Hcalls);
      cbv zeta in HK, Hdisk, Hcalls;
      match type of HK with
      | _ = ?k =>
          let k' := eval vm_compute in k in
          change k with k' in HK, Hdisk, Hcalls
      end;
      match type of Hdisk with
      | _ (gridDisk _ ?t) = _ =>
          let t' := eval vm_compute in t in
          change t with t' in Hdisk, Hcalls
      end;
      split; [exact HK |];
      exists centerHash, zones; split; [exact Hcell |];
      split; [exact Hdisk |];
      rewrite Hcalls; right; left; reflexivity
  end.



(* ================================================================== *)
(** ** Further properties of the service functions *)

(** Name the answer of the next library call in a run unfolded by [simpl]. *)
Ltac answer_step :=
  match goal with
  | |- context [match ?lib ?c with Normal _ => _ | Throw _ => _ end] =>
      lazymatch type of lib with H3Lib => idtac end;
      let x := fresh "x" in
      let Hx := fresh "Hx" in
      destruct (lib c) as [x | ?] eqn:Hx; simpl; try discriminate
  end.

(** X1.  A [getZone] response carries the hash [latLngToCell] gave, the
    centre and the resolution the library reports for that hash (not the
    requested point or resolution), and the request as it was; three
    library calls are made, in this order. *)
Theorem getZone_response :
  forall (lib : H3Lib) (lat lng resolution : JS.number) (r : ZoneResponse.t),
    result lib (getZone lat lng resolution) = Normal r ->
    exists center,
      lib (latLngToCell lat lng resolution) = Normal (ZoneResponse.hash r) /\
      lib (cellToLatLng (ZoneResponse.hash r)) = Normal center /\
      ZoneResponse.center r =
        {| Coordinates.lat := fst center; Coordinates.lng := snd center |} /\
      lib (getResolution (ZoneResponse.hash r)) = Normal (ZoneResponse.resolution r) /\
      ZoneResponse.input r =
        {| ZoneInput.lat := lat; ZoneInput.lng := lng;
           ZoneInput.resolution := resolution |} /\
      calls lib (getZone lat lng resolution) =
        [ latLngToCell lat lng resolution;
          cellToLatLng (ZoneResponse.hash r);
          getResolution (ZoneResponse.hash r) ].
Proof.
  intros lib lat lng resolution r.
  unfold getZone, result, calls. simpl.
  answer_step. answer_step. answer_step.
  intros H. injection H as <-. simpl.
  exists x0. repeat split; assumption || reflexivity.
Qed.

(** A request against the sample library. *)
Lemma getZone_response_witness :
  exists r,
    result sample_lib (getZone (JS.of_Z 37) (JS.of_Z (-122)) (JS.of_Z 9)) = Normal r /\
    ZoneResponse.hash r = sample_hash.
Proof.
  destruct (never_throws_result sample_lib
              (getZone (JS.of_Z 37) (JS.of_Z (-122)) (JS.of_Z 9))
              sample_lib_never_throws) as [r Hr].
  exists r. split; [exact Hr |].
  destruct (getZone_response sample_lib _ _ _ r Hr) as (center & Hh & _).
  injection Hh as <-. reflexivity.
Defined.

(** X2.  The boundary of a [getZoneBoundary] response is the vertex ring
    [cellToBoundary] returned: the same number of vertices, in the same
    order, latitude first; its resolution is the one the library reports. *)
Theorem getZoneBoundary_ring :
  forall (lib : H3Lib) (hash : string) (r : BoundaryResponse.t),
    result lib (getZoneBoundary hash) = Normal r ->
    BoundaryResponse.hash r = hash /\
    lib (cellToBoundary hash) =
      Normal (map (fun c => (Coordinates.lat c, Coordinates.lng c))
                  (BoundaryResponse.boundary r)) /\
    lib (getResolution hash) = Normal (BoundaryResponse.resolution r) /\
    calls lib (getZoneBoundary hash) = [cellToBoundary hash; getResolution hash].
Proof.
  intros lib hash r.
  unfold getZoneBoundary, result, calls. simpl.
  answer_step. answer_step.
  intros H. injection H as <-. simpl.
  repeat split; try reflexivity.
  unfold formatBoundary. rewrite map_map. simpl.
  f_equal. clear. induction x as [ | [a b] l IH]; simpl; congruence.
Qed.

Lemma getZoneBoundary_ring_witness :
  exists r,
    result sample_lib (getZoneBoundary sample_hash) = Normal r /\
    List.length (BoundaryResponse.boundary r) = 1%nat.
Proof.
  destruct (never_throws_result sample_lib (getZoneBoundary sample_hash)
              sample_lib_never_throws) as [r Hr].
  exists r. split; [exact Hr |].
  destruct (getZoneBoundary_ring sample_lib sample_hash r Hr) as (_ & Hring & _).
  injection Hring as Hring.
  rewrite <- (length_map (fun c => (Coordinates.lat c, Coordinates.lng c))).
  rewrite <- Hring. reflexivity.
Defined.

(** [getZoneCenter] returns the hash it was given with the centre and
    the resolution the library reports for it, after exactly two calls. *)
Theorem getZoneCenter_response :
  forall (lib : H3Lib) (hash : string) (r : ZoneInfo.t),
    result lib (getZoneCenter hash) = Normal r ->
    ZoneInfo.hash r = hash /\
    lib (cellToLatLng hash) =
      Normal (Coordinates.lat (ZoneInfo.center r), Coordinates.lng (ZoneInfo.center r)) /\
    lib (getResolution hash) = Normal (ZoneInfo.resolution r) /\
    calls lib (getZoneCenter hash) = [cellToLatLng hash; getResolution hash].
Proof.
  intros lib hash r.
  unfold getZoneCenter, result, calls. simpl.
  answer_step. answer_step.
  intros H. injection H as <-. simpl.
  destruct x as [a b]. repeat split; reflexivity.
Qed.

Lemma getZoneCenter_response_witness :
  exists r,
    result sample_lib (getZoneCenter sample_hash) = Normal r /\
    ZoneInfo.resolution r = JS.of_Z 9.
Proof.
  destruct (never_throws_result sample_lib (getZoneCenter sample_hash)
              sample_lib_never_throws) as [r Hr].
  exists r. split; [exact Hr |].
  destruct (getZoneCenter_response sample_lib sample_hash r Hr) as (_ & _ & Hres & _).
  injection Hres as <-. reflexivity.
Defined.

Lemma mapP_formatNeighborInfo_enriched (lib : H3Lib) (l : list string) :
  forall infos,
    result lib (mapP formatNeighborInfo l) = Normal infos ->
    Forall2 (enriched lib) l infos.
Proof.
  induction l as [ | h l IH]; intros infos.
  - intros H. injection H as <-. constructor.
  - cbn [mapP]. rewrite result_pbind, result_formatNeighborInfo.
    destruct (lib (cellToLatLng h)) as [[a b] | e] eqn:Hc; cbind_reduce;
      [| discriminate].
    rewrite result_pbind.
    destruct (result lib (mapP formatNeighborInfo l)) as [bs | e]; cbind_reduce;
      [| discriminate].
    intros H. injection H as <-.
    constructor; [| apply IH; reflexivity].
    split; [reflexivity | exact Hc].
Qed.

(** X3.  [getNeighbors] asks for the disk once, then for the centre of each
    cell of the disk in order, then for the resolution of the hash: two calls
    more than the disk has cells.  Each neighbour of the response is the
    corresponding cell with the centre the library gave, and leaving [k]
    out is the same as passing 1. *)
Theorem getNeighbors_calls :
  forall (lib : H3Lib) (hash : string) (k : JS.number) (r : NeighborsResponse.t),
    result lib (getNeighbors hash (Some k)) = Normal r ->
    exists disk,
      lib (gridDisk hash k) = Normal disk /\
      Forall2 (enriched lib) disk (NeighborsResponse.neighbors r) /\
      calls lib (getNeighbors hash (Some k)) =
        gridDisk hash k :: map cellToLatLng disk ++ [getResolution hash] /\
      List.length (calls lib (getNeighbors hash (Some k))) = (List.length disk + 2)%nat /\
      lib (getResolution hash) = Normal (NeighborsResponse.resolution r) /\
      NeighborsResponse.k r = k /\
      getNeighbors hash None = getNeighbors hash (Some (JS.of_Z 1)).
Proof.
  intros lib hash k r. unfold getNeighbors. cbv zeta.
  rewrite calls_pbind, calls_call, result_call.
  run_step. cbv beta iota.
  rewrite calls_pbind.
  run_map. cbv beta iota.
  rewrite calls_pbind, calls_call, result_call.
  run_step. cbv beta iota. rewrite calls_Ret.
  intros H. injection H as <-. simpl.
  destruct (mapP_formatNeighborInfo lib x) as [_ Hmap].
  destruct (Hmap infos Hm) as [_ Hc].
  exists x. rewrite Hc.
  repeat split; try reflexivity.
  - apply mapP_formatNeighborInfo_enriched. exact Hm.
  - rewrite length_app, length_map. simpl. lia.
Qed.

Lemma getNeighbors_calls_witness :
  exists r,
    result sample_lib (getNeighbors sample_hash (Some (JS.of_Z 3))) = Normal r /\
    List.length (calls sample_lib (getNeighbors sample_hash (Some (JS.of_Z 3)))) = 4%nat.
Proof.
  destruct (never_throws_result sample_lib
              (getNeighbors sample_hash (Some (JS.of_Z 3)))
              sample_lib_never_throws) as [r Hr].
  exists r. split; [exact Hr |].
  destruct (getNeighbors_calls sample_lib sample_hash (JS.of_Z 3) r Hr)
    as (disk & Hd & _ & _ & Hlen & _).
  rewrite Hlen. injection Hd as <-. reflexivity.
Defined.

Lemma Normal_inj {A} (a b : A) : Normal a = Normal b -> a = b.
Proof. intros H. injection H as H. exact H. Qed.

(** X4.  Whatever resolution the library reports, the [children] of a
    [getDetailedZoneInfo] response are a prefix of at most ten of the
    children counted by [childrenCount]; when the reported resolution is
    [NaN], neither parent nor children are looked up: [parent] is [null]
    and [children] is empty. *)
Theorem getDetailedZoneInfo_children_capped :
  forall (lib : H3Lib) (hash : string) (d : DetailedZoneInfo.t),
    result lib (getDetailedZoneInfo hash) = Normal d ->
    List.length (DetailedZoneInfo.children d) =
      Nat.min 10 (DetailedZoneInfo.childrenCount d) /\
    lib (getResolution hash) = Normal (DetailedZoneInfo.resolution d) /\
    (DetailedZoneInfo.resolution d = JS.NaN ->
     DetailedZoneInfo.parent d = None /\
     DetailedZoneInfo.children d = [] /\
     DetailedZoneInfo.childrenCount d = 0%nat /\
     forall c, In c (calls lib (getDetailedZoneInfo hash)) ->
               (forall res, c <> cellToParent hash res) /\
               (forall res, c <> cellToChildren hash res)).
Proof.
  intros lib hash d. unfold getDetailedZoneInfo.
  rewrite calls_pbind, calls_call, result_call. run_step. cbv beta iota.
  rewrite calls_pbind, calls_call, result_call. run_step. cbv beta iota.
  rewrite calls_pbind, calls_call, result_call. run_step. cbv beta iota.
  rewrite calls_pbind, calls_call, result_call. run_step. cbv beta iota.
  destruct x1 as [s | s | | s m e].
  4: { (* a finite resolution: only the cap is at stake *)
    rewrite result_pbind.
    destruct (result lib (if JS.gt _ _ then _ else _)) as [parent | err];
      cbind_reduce; [| discriminate].
    rewrite result_pbind.
    destruct (result lib (if JS.lt _ _ then _ else _)) as [children | err];
      cbind_reduce; [| discriminate].
    intros H. apply Normal_inj in H. subst d. cbn [DetailedZoneInfo.children DetailedZoneInfo.childrenCount DetailedZoneInfo.resolution DetailedZoneInfo.parent].
    split; [apply length_firstn |]. split; [reflexivity | discriminate]. }
  3: { (* NaN: both comparisons are false *)
    change (JS.gt S754_nan (JS.of_Z 0)) with false.
    change (JS.lt S754_nan (JS.of_Z 15)) with false.
    cbv beta iota.
    cbn [pbind run calls result fst snd].
    intros H. apply Normal_inj in H. subst d. cbn [DetailedZoneInfo.children DetailedZoneInfo.childrenCount DetailedZoneInfo.resolution DetailedZoneInfo.parent].
    split; [reflexivity |]. split; [reflexivity |]. intros _.
    repeat split; try reflexivity;
      intros res Heq; subst c;
      repeat (destruct H as [H | H]; [discriminate H |]); exact H. }
  all: rewrite result_pbind;
    destruct (result lib (if JS.gt _ _ then _ else _)) as [parent | err];
    cbind_reduce; [| discriminate];
    rewrite result_pbind;
    destruct (result lib (if JS.lt _ _ then _ else _)) as [children | err];
    cbind_reduce; [| discriminate];
    intros H; apply Normal_inj in H; subst d; cbn [DetailedZoneInfo.children DetailedZoneInfo.childrenCount DetailedZoneInfo.resolution DetailedZoneInfo.parent];
    (split; [apply length_firstn |]); (split; [reflexivity | discriminate]).
Qed.

Lemma getDetailedZoneInfo_children_capped_witness :
  exists d,
    result sample_lib (getDetailedZoneInfo sample_hash) = Normal d /\
    List.length (DetailedZoneInfo.children d) = 7%nat.
Proof.
  eexists. split.
  - vm_compute. reflexivity.
  - match goal with
    | |- List.length (DetailedZoneInfo.children ?d) = _ =>
        rewrite (proj1 (getDetailedZoneInfo_children_capped
                          sample_lib sample_hash d eq_refl))
    end.
    reflexivity.
Defined.

(** X5.  The zones of a region response are the cells the library
    enumerated, in the library's order, each with the centre the library
    gives for it; the region and the resolution are echoed. *)
Theorem region_zones_in_library_order :
  forall lib : H3Lib,
    (forall boundingBox resolution r,
        result lib (getZonesInArea boundingBox resolution) = Normal r ->
        exists cells,
          lib (polygonToCells (box_ring boundingBox) resolution) = Normal cells /\
          Forall2 (enriched lib) cells (ZonesInAreaResponse.zones r) /\
          ZonesInAreaResponse.boundingBox r = boundingBox /\
          ZonesInAreaResponse.resolution r = resolution) /\
    (forall polygon resolution r,
        result lib (getZonesInPolygon polygon resolution) = Normal r ->
        exists cells,
          lib (polygonToCells polygon resolution) = Normal cells /\
          Forall2 (enriched lib) cells (ZonesInPolygonResponse.zones r) /\
          ZonesInPolygonResponse.resolution r = resolution) /\
    (forall center radius resolution r,
        result lib (getZonesInRadius center radius resolution) = Normal r ->
        exists centerHash cells,
          lib (latLngToCell (Coordinates.lat center) (Coordinates.lng center)
                            resolution) = Normal centerHash /\
          lib (gridDisk centerHash (JS.Math_min (ZonesInRadiusResponse.estimatedK r)
                                                (JS.of_Z 10))) = Normal cells /\
          Forall2 (enriched lib) cells (ZonesInRadiusResponse.zones r) /\
          ZonesInRadiusResponse.center r = center /\
          ZonesInRadiusResponse.radius r = radius /\
          ZonesInRadiusResponse.resolution r = resolution).
Proof.
  intros lib. split; [| split].
  - intros boundingBox resolution r. unfold getZonesInArea.
    run_step. run_map.
    intros H. apply Normal_inj in H. subst r.
    exists x. repeat split; try reflexivity.
    apply mapP_formatNeighborInfo_enriched. exact Hm.
  - intros polygon resolution r. unfold getZonesInPolygon.
    run_step. run_map.
    intros H. apply Normal_inj in H. subst r.
    exists x. repeat split; try reflexivity.
    apply mapP_formatNeighborInfo_enriched. exact Hm.
  - intros center radius resolution r. unfold getZonesInRadius.
    run_step. run_step. run_map.
    intros H. apply Normal_inj in H. subst r.
    exists x, x0. repeat split; try reflexivity; try assumption.
    apply mapP_formatNeighborInfo_enriched. exact Hm.
Qed.

Lemma region_zones_in_library_order_witness :
  exists r,
    result sample_lib (getZonesInArea sample_box (JS.of_Z 9)) = Normal r /\
    map NeighborInfo.hash (ZonesInAreaResponse.zones r) =
      ["892830826cfffff"; "892830826c7ffff"].
Proof.
  destruct (never_throws_result sample_lib (getZonesInArea sample_box (JS.of_Z 9))
              sample_lib_never_throws) as [r Hr].
  exists r. split; [exact Hr |].
  destruct (proj1 (region_zones_in_library_order sample_lib) _ _ r Hr)
    as (cells & Hc & Hall & _).
  injection Hc as <-.
  inversion Hall as [ | h1 i1 l1 t1 [E1 _] Hrest]; subst.
  inversion Hrest as [ | h2 i2 l2 t2 [E2 _] Hnil]; subst.
  inversion Hnil; subst. simpl. rewrite E1, E2. reflexivity.
Defined.

(** The calls of [getZonesInRadius], also when the library throws. *)
Lemma getZonesInRadius_calls_shape (lib : H3Lib) center radius resolution :
  let k := JS.Math_max (JS.of_Z 1) (JS.Math_ceil (JS.div radius (JS.of_Z 1000))) in
  forall c,
    In c (calls lib (getZonesInRadius center radius resolution)) ->
    c = latLngToCell (Coordinates.lat center) (Coordinates.lng center) resolution \/
    (exists h, c = gridDisk h (JS.Math_min k (JS.of_Z 10))) \/
    is_cellToLatLng c.
Proof.
  intros k c. subst k. unfold getZonesInRadius. cbv zeta.
  rewrite calls_pbind, calls_call, result_call.
  intros [<- | Hin]; [left; reflexivity |].
  destruct (lib (latLngToCell _ _ _)) as [centerHash | e]; [| destruct Hin].
  rewrite app_nil_l, calls_pbind, calls_call, result_call in Hin.
  destruct Hin as [<- | Hin]; [right; left; eexists; reflexivity |].
  destruct (lib (gridDisk _ _)) as [zones | e]; [| destruct Hin].
  rewrite calls_pbind, app_nil_l in Hin. apply in_app_or in Hin.
  destruct Hin as [Hin | Hin].
  - right. right.
    destruct (mapP_formatNeighborInfo lib zones) as [Hall _].
    rewrite Forall_forall in Hall. apply Hall. exact Hin.
  - destruct (result lib (mapP formatNeighborInfo zones)); destruct Hin.
Qed.

(** X6.  Whatever the radius, every disk [getZonesInRadius] asks of the
    library has a ring count that is [NaN] or lies between 1 and 10, and
    the [estimatedK] of a response is [NaN] or at least 1. *)
Theorem getZonesInRadius_ring_count_capped :
  forall (lib : H3Lib) (center : Coordinates.t) (radius resolution : JS.number),
    (forall h k,
        In (gridDisk h k) (calls lib (getZonesInRadius center radius resolution)) ->
        k = JS.NaN \/ (JS.le (JS.of_Z 1) k = true /\ JS.le k (JS.of_Z 10) = true)) /\
    (forall r,
        result lib (getZonesInRadius center radius resolution) = Normal r ->
        ZonesInRadiusResponse.estimatedK r = JS.NaN \/
        JS.le (JS.of_Z 1) (ZonesInRadiusResponse.estimatedK r) = true).
Proof.
  intros lib center radius resolution. split.
  - intros h k Hin.
    apply getZonesInRadius_calls_shape in Hin.
    destruct Hin as [Hc | [[h' Hc] | [h' Hc]]]; try discriminate Hc.
    injection Hc as _ ->.
    apply Math_min_10_bounds. apply Math_max_1_lower.
  - intros r. unfold getZonesInRadius.
    run_step. run_step. run_map.
    intros H. apply Normal_inj in H. subst r.
    apply Math_max_1_lower.
Qed.

Lemma getZonesInRadius_ring_count_capped_witness :
  JS.le (JS.of_Z 10) (JS.of_Z 10) = true.
Proof.
  destruct (proj1 (getZonesInRadius_ring_count_capped
                     sample_lib san_francisco (JS.of_Z 15000) (JS.of_Z 9))
                  sample_hash (JS.of_Z 10)) as [Hnan | [_ Hle]].
  - vm_compute. right. left. reflexivity.
  - discriminate Hnan.
  - exact Hle.
Defined.

(** X7.  A radius that is zero or negative is not refused:
    [getZonesInRadius] estimates [k = 1] for it, and the only disk it asks
    of the library has ring count 1. *)
Theorem getZonesInRadius_nonpositive_radius :
  forall (lib : H3Lib) (center : Coordinates.t) (radius resolution : JS.number),
    JS.le radius (JS.of_Z 0) = true ->
    (forall r,
        result lib (getZonesInRadius center radius resolution) = Normal r ->
        ZonesInRadiusResponse.estimatedK r = JS.of_Z 1) /\
    (forall h k,
        In (gridDisk h k) (calls lib (getZonesInRadius center radius resolution)) ->
        k = JS.of_Z 1).
Proof.
  intros lib center radius resolution Hle.
  apply le_zero_nonpositive in Hle.
  assert (Hk : JS.Math_max (JS.of_Z 1) (JS.Math_ceil (JS.div radius (JS.of_Z 1000)))
               = JS.of_Z 1).
  { apply Math_max_1_nonpositive, Math_ceil_nonpositive, div_1000_nonpositive.
    exact Hle. }
  split.
  - intros r. unfold getZonesInRadius.
    run_step. run_step. run_map.
    intros H. apply Normal_inj in H. subst r. exact Hk.
  - intros h k Hin.
    apply getZonesInRadius_calls_shape in Hin.
    destruct Hin as [Hc | [[h' Hc] | [h' Hc]]]; try discriminate Hc.
    assert (Hk' : k = JS.Math_min
                        (JS.Math_max (JS.of_Z 1)
                           (JS.Math_ceil (JS.div radius (JS.of_Z 1000))))
                        (JS.of_Z 10)) by congruence.
    rewrite Hk', Hk. vm_compute. reflexivity.
Qed.

(** A radius of -500 metres against the sample library. *)
Lemma getZonesInRadius_nonpositive_radius_witness :
  exists r,
    result sample_lib (getZonesInRadius san_francisco (JS.of_Z (-500)) (JS.of_Z 9))
    = Normal r /\
    ZonesInRadiusResponse.estimatedK r = JS.of_Z 1.
Proof.
  destruct (never_throws_result sample_lib
              (getZonesInRadius san_francisco (JS.of_Z (-500)) (JS.of_Z 9))
              sample_lib_never_throws) as [r Hr].
  exists r. split; [exact Hr |].
  exact (proj1 (getZonesInRadius_nonpositive_radius
                  sample_lib san_francisco (JS.of_Z (-500)) (JS.of_Z 9) eq_refl) r Hr).
Defined.

(* ================================================================== *)
(** ** Further properties of the validators *)

(** A positive binary64 integer that is not above [c * 2^-49] (a number
    with exponent -49, as 8 ... 15 have) is at most [c / 2^49]. *)
Lemma integer_upper (m : positive) (e : Z) (c : positive) :
  JS.is_double (S754_finite false m e) = true ->
  4503599627370496 <= Z.pos c ->
  SFltb (S754_finite false c (-49)) (S754_finite false m e) = false ->
  JS.isInteger (S754_finite false m e) = true ->
  exists z,
    JS.int_value (S754_finite false m e) = Some z /\
    1 <= z /\ z * 562949953421312 <= Z.pos c.
Proof.
  intros Hok Hc Hgt Hint.
  destruct (is_double_mantissa _ _ _ Hok) as [Hm53 _].
  change (2 ^ 53) with 9007199254740992 in Hm53.
  unfold SFltb, SFcompare in Hgt.
  unfold JS.isInteger in Hint. unfold JS.int_value.
  assert (He : e <= -49).
  { destruct (Z.compare_spec (-49) e); try lia; discriminate. }
  destruct (Z.leb_spec 0 e) as [? | _]; [lia |].
  simpl in Hint. rewrite Hint.
  exists (Z.pos m / 2 ^ (- e)). split; [reflexivity |].
  apply Z.eqb_eq in Hint.
  assert (Hpow : 0 < 2 ^ (- e)) by (apply Z.pow_pos_nonneg; lia).
  assert (Hm : Z.pos m = 2 ^ (- e) * (Z.pos m / 2 ^ (- e))).
  { pose proof (Z.div_mod (Z.pos m) (2 ^ (- e)) ltac:(lia)). lia. }
  set (q := Z.pos m / 2 ^ (- e)) in *. clearbody q.
  assert (Hmpos : 0 < Z.pos m) by reflexivity.
  destruct (Z.eq_dec e (-49)) as [-> | Hne].
  - rewrite Z.compare_refl in Hgt.
    change (Pos.compare_cont Eq c m) with (Pos.compare c m) in Hgt.
    assert (Hle : Z.pos m <= Z.pos c).
    { apply Pos2Z.pos_le_pos.
      destruct (Pos.compare_spec c m) as [H | H | H];
        [rewrite <- H; apply Pos.le_refl | discriminate
        | apply Pos.lt_le_incl; exact H]. }
    change (2 ^ (- -49)) with 562949953421312 in Hm.
    clear - Hm Hle Hmpos. generalize dependent (Z.pos c). intros C HC.
    generalize dependent (Z.pos m). intros M HM1 HM2 HM3. lia.
  - assert (Hp50 : 2 ^ 50 <= 2 ^ (- e)) by (apply Z.pow_le_mono_r; lia).
    change (2 ^ 50) with 1125899906842624 in Hp50.
    clear - Hm Hm53 Hp50 Hpow Hc Hmpos.
    set (t := 2 ^ (- e)) in *. clearbody t.
    generalize dependent (Z.pos c). intros C HC.
    generalize dependent (Z.pos m). intros M HM1 HM2 HM3. nia.
Qed.

Section MoreValidatorFacts.

Variable StringToNumber : string -> JS.number.
Variable NumberToString : JS.number -> string.

Local Abbreviation validateCoordinates' :=
  (validateCoordinates StringToNumber NumberToString).
Local Abbreviation validateResolution' :=
  (validateResolution StringToNumber NumberToString).
Local Abbreviation validateKValue' :=
  (validateKValue StringToNumber NumberToString).
Local Abbreviation isValidResolution' :=
  (isValidResolution StringToNumber NumberToString).

(** A binary64 number that passes [validateResolution] denotes an integer
    from 0 to 15. *)
Lemma validateResolution_valid_integer (x : JS.number) :
  JS.is_double x = true ->
  validateResolution' (JNum x) = Normal valid ->
  exists z, JS.int_value x = Some z /\ 0 <= z <= 15.
Proof.
  intros Hok Hv. apply validateResolution_valid_iff in Hv.
  destruct Hv as (x' & Hx & Hlt & Hgt & Hint). injection Hx as <-.
  unfold JS.lt in Hlt. unfold JS.gt in Hgt.
  rewrite of_Z_0 in Hlt. rewrite of_Z_15 in Hgt.
  destruct x as [s | s | | [ | ] m e]; try discriminate.
  - exists 0. split; [reflexivity | lia].
  - destruct (integer_upper m e 8444249301319680 Hok ltac:(lia) Hgt Hint)
      as (z & Hz & H1 & Hle).
    exists z. split; [exact Hz | lia].
Qed.

(** A binary64 number that passes [validateKValue] denotes an integer
    from 1 to 10. *)
Lemma validateKValue_valid_integer (k : JsValue) :
  number_ok k = true ->
  validateKValue' k = Normal valid ->
  exists x z, k = JNum x /\ JS.int_value x = Some z /\ 1 <= z <= 10.
Proof.
  intros Hok Hv.
  destruct k as [ | | b | x | s | l | f];
    try (exfalso; revert Hv;
         apply validateKValue_not_number; reflexivity).
  exists x. rewrite validateKValue_number in Hv.
  destruct (JS.lt x (JS.of_Z 1)) eqn:Hlt; [discriminate |].
  destruct (JS.gt x (JS.of_Z 10)) eqn:Hgt; [discriminate |].
  destruct (JS.isInteger x) eqn:Hint; [| discriminate].
  cbn [number_ok] in Hok.
  unfold JS.lt in Hlt. unfold JS.gt in Hgt.
  rewrite of_Z_1 in Hlt. rewrite of_Z_10 in Hgt.
  destruct x as [s | s | | [ | ] m e]; try discriminate.
  destruct (integer_upper m e 5629499534213120 Hok ltac:(lia) Hgt Hint)
    as (z & Hz & H1 & Hle).
  exists z. split; [reflexivity | split; [exact Hz | lia]].
Qed.

(** X8.  [validateKValue] accepts exactly the numbers that denote an
    integer from 1 to 10; every other run-time value, [NaN] and 0 included,
    is rejected. *)
Theorem validateKValue_integer_range :
  forall k : JsValue,
    number_ok k = true ->
    (validateKValue' k = Normal valid <->
     exists x z, k = JNum x /\ JS.int_value x = Some z /\ 1 <= z <= 10).
Proof.
  intros k Hok. split.
  - apply validateKValue_valid_integer. exact Hok.
  - intros (x & z & -> & Hv & Hz). cbn [number_ok] in Hok.
    destruct (int_value_small x z Hok Hv ltac:(lia)) as [-> | [-> ->]]; [| lia].
    assert (Hz' : z = 1 \/ z = 2 \/ z = 3 \/ z = 4 \/ z = 5 \/ z = 6
                  \/ z = 7 \/ z = 8 \/ z = 9 \/ z = 10) by lia.
    repeat (destruct Hz' as [-> | Hz']); try subst z; reflexivity.
Qed.

(** For a number that is [NaN] or an integer, as [parseInt] returns them,
    [validateResolution] and the check of the JavaScript server agree. *)
Lemma isValidResolution_number (x : JS.number) :
  isValidResolution' (JNum x) =
  Normal (JS.ge x (JS.of_Z 0) && JS.le x (JS.of_Z 15)).
Proof.
  unfold isValidResolution, and_then, js_ge, js_le. cbn [ToNumber cbind].
  destruct (JS.ge x (JS.of_Z 0)); reflexivity.
Qed.

Lemma validateResolution_agrees_on_integers (x : JS.number) :
  x = JS.NaN \/ JS.isInteger x = true ->
  exists r, validateResolution' (JNum x) = Normal r /\
            isValidResolution' (JNum x) = Normal (isValid r).
Proof.
  intros Hx. rewrite validateResolution_number, isValidResolution_number.
  eexists. split; [reflexivity |]. f_equal.
  destruct Hx as [-> | Hint]; [reflexivity |].
  assert (Hx : x <> JS.NaN) by (intros ->; discriminate).
  rewrite Hint. unfold JS.lt, JS.gt, JS.ge, JS.le.
  rewrite (lt_is_not_ge x (JS.of_Z 0)) by (assumption || discriminate).
  rewrite (lt_is_not_ge (JS.of_Z 15) x) by (assumption || discriminate).
  destruct (SFleb (JS.of_Z 0) x), (SFleb x (JS.of_Z 15)); reflexivity.
Qed.

(** X9.  Whatever passes [validateResolution] also passes the resolution
    check of the JavaScript server, which, unlike [validateResolution],
    lets the non-integer 7.5 through. *)
Theorem validateResolution_stricter_than_isValidResolution :
  (forall x : JS.number,
      JS.is_double x = true ->
      validateResolution' (JNum x) = Normal valid ->
      isValidResolution' (JNum x) = Normal true) /\
  isValidResolution' (JNum seven_and_a_half) = Normal true /\
  validateResolution' (JNum seven_and_a_half) = Normal (invalid resolution_error) /\
  isValidResolution' (JNum JS.NaN) = Normal false.
Proof.
  split; [| repeat split; reflexivity].
  intros x Hok Hv.
  destruct (validateResolution_valid_integer x Hok Hv) as (z & Hz & Hr).
  destruct (int_value_small x z Hok Hz Hr) as [-> | [-> ->]]; [| reflexivity].
  assert (Hz' : z = 0 \/ z = 1 \/ z = 2 \/ z = 3 \/ z = 4 \/ z = 5 \/ z = 6
                \/ z = 7 \/ z = 8 \/ z = 9 \/ z = 10 \/ z = 11 \/ z = 12
                \/ z = 13 \/ z = 14 \/ z = 15) by lia.
  repeat (destruct Hz' as [-> | Hz']); try subst z; reflexivity.
Qed.

(** X10.  Every resolution [validateResolution] accepts has its entry in
    the table of [getResolutionsInfo], at the index equal to the
    resolution; the table has sixteen entries. *)
Theorem getResolutionsInfo_entry_for_valid_resolution :
  List.length (ResolutionsResponse.resolutions getResolutionsInfo) = 16%nat /\
  forall x : JS.number,
    JS.is_double x = true ->
    validateResolution' (JNum x) = Normal valid ->
    exists z info,
      JS.int_value x = Some z /\
      nth_error (ResolutionsResponse.resolutions getResolutionsInfo) (Z.to_nat z)
      = Some info /\
      JS.int_value (ResolutionInfo.resolution info) = Some z.
Proof.
  split; [reflexivity |].
  intros x Hok Hv.
  destruct (validateResolution_valid_integer x Hok Hv) as (z & Hz & Hr).
  exists z.
  assert (Hz' : z = 0 \/ z = 1 \/ z = 2 \/ z = 3 \/ z = 4 \/ z = 5 \/ z = 6
                \/ z = 7 \/ z = 8 \/ z = 9 \/ z = 10 \/ z = 11 \/ z = 12
                \/ z = 13 \/ z = 14 \/ z = 15) by lia.
  repeat (destruct Hz' as [-> | Hz']); try subst z;
    (eexists; split; [exact Hz | split; [reflexivity | vm_compute; reflexivity]]).
Qed.

End MoreValidatorFacts.

(** [k = 3] is accepted. *)
Lemma validateKValue_integer_range_witness :
  validateKValue sample_StringToNumber sample_NumberToString
                 (JNum (JS.of_Z 3)) = Normal valid.
Proof.
  apply (validateKValue_integer_range sample_StringToNumber sample_NumberToString
           (JNum (JS.of_Z 3)) eq_refl).
  exists (JS.of_Z 3), 3. split; [reflexivity | split; [reflexivity | lia]].
Defined.

Lemma validateResolution_stricter_than_isValidResolution_witness :
  isValidResolution sample_StringToNumber sample_NumberToString (JNum (JS.of_Z 9))
  = Normal true.
Proof.
  apply (proj1 (validateResolution_stricter_than_isValidResolution
                  sample_StringToNumber sample_NumberToString)
               (JS.of_Z 9)); reflexivity.
Defined.

Lemma getResolutionsInfo_entry_for_valid_resolution_witness :
  exists z info,
    JS.int_value (JS.of_Z 9) = Some z /\
    nth_error (ResolutionsResponse.resolutions getResolutionsInfo) (Z.to_nat z)
    = Some info /\
    JS.int_value (ResolutionInfo.resolution info) = Some z.
Proof.
  apply (proj2 (getResolutionsInfo_entry_for_valid_resolution
                  sample_StringToNumber sample_NumberToString)
               (JS.of_Z 9)); reflexivity.
Defined.

(** X11.  On numbers other than [NaN], [validateCoordinates] accepts
    exactly the pairs the coordinate check of the JavaScript server
    accepts: -90 <= lat <= 90 and -180 <= lng <= 180, infinities excluded. *)
Theorem validateCoordinates_range_on_numbers :
  forall (StringToNumber : string -> JS.number)
         (NumberToString : JS.number -> string) (lat lng : JS.number),
    lat <> JS.NaN -> lng <> JS.NaN ->
    exists r,
      validateCoordinates StringToNumber NumberToString (JNum lat) (JNum lng)
      = Normal r /\
      isValid r =
      (JS.ge lat (JS.of_Z (-90)) && JS.le lat (JS.of_Z 90)
       && JS.ge lng (JS.of_Z (-180)) && JS.le lng (JS.of_Z 180)) /\
      isValidCoordinate StringToNumber NumberToString (JNum lat) (JNum lng)
      = Normal (isValid r) /\
      (lat = S754_infinity false \/ lat = S754_infinity true ->
       r = invalid coordinates_error).
Proof.
  intros s2n n2s lat lng Hlat Hlng.
  destruct (validateCoordinates_agrees_on_numbers s2n n2s lat lng Hlat Hlng)
    as (r & b & Hr & Hb & Heq).
  exists r. split; [exact Hr |].
  rewrite isValidCoordinate_numbers in Hb. apply Normal_inj in Hb.
  split; [congruence |]. split.
  - rewrite isValidCoordinate_numbers. congruence.
  - rewrite validateCoordinates_numbers in Hr. apply Normal_inj in Hr. subst r.
    intros [-> | ->].
    + replace (JS.gt (S754_infinity false) (JS.of_Z 90)) with true by reflexivity.
      rewrite orb_true_r. reflexivity.
    + replace (JS.lt (S754_infinity true) (JS.of_Z (-90))) with true by reflexivity.
      reflexivity.
Qed.

(** Latitude 91 is out of range. *)
Lemma validateCoordinates_range_on_numbers_witness :
  exists r,
    validateCoordinates sample_StringToNumber sample_NumberToString
                        (JNum (JS.of_Z 91)) (JNum (JS.of_Z 0)) = Normal r /\
    isValid r = false.
Proof.
  destruct (validateCoordinates_range_on_numbers
              sample_StringToNumber sample_NumberToString
              (JS.of_Z 91) (JS.of_Z 0)
              ltac:(discriminate) ltac:(discriminate)) as (r & Hr & Hv & _).
  exists r. split; [exact Hr | rewrite Hv; reflexivity].
Defined.

(* ================================================================== *)
(** ** Configuration parsing and the API key middleware *)

Lemma split_comma_nonempty (s : string) : split_comma s <> [].
Proof.
  destruct s as [ | c rest]; simpl; [discriminate |].
  destruct (Ascii.eqb c comma); [discriminate |].
  destruct (split_comma rest); discriminate.
Qed.

Lemma split_comma_no_comma (s piece : string) :
  In piece (split_comma s) -> no_comma piece = true.
Proof.
  revert piece. induction s as [ | c rest IH]; intros piece; simpl.
  - intros [<- | []]. reflexivity.
  - destruct (Ascii.eqb c comma) eqn:Hc.
    + intros [<- | Hin]; [reflexivity | auto].
    + destruct (split_comma rest) as [ | p ps] eqn:Hs.
      * intros [<- | []]. simpl. rewrite Hc. reflexivity.
      * intros [<- | Hin].
        -- simpl. rewrite Hc. simpl. apply IH. left. reflexivity.
        -- apply IH. right. exact Hin.
Qed.

Lemma trim_start_no_comma (s : string) :
  no_comma s = true -> no_comma (trim_start s) = true.
Proof.
  induction s as [ | c rest IH]; simpl; [auto |].
  intros H. apply andb_true_iff in H. destruct H as [Hc Hr].
  destruct (is_space c); [auto |]. simpl. rewrite Hc, Hr. reflexivity.
Qed.

Lemma trim_end_no_comma (s : string) :
  no_comma s = true -> no_comma (trim_end s) = true.
Proof.
  induction s as [ | c rest IH]; simpl; [auto |].
  intros H. apply andb_true_iff in H. destruct H as [Hc Hr].
  specialize (IH Hr).
  destruct (trim_end rest) as [ | c' r'].
  - destruct (is_space c); simpl; [reflexivity |]. rewrite Hc. reflexivity.
  - simpl in *. rewrite Hc, IH. reflexivity.
Qed.

Lemma trim_end_idempotent (s : string) : trim_end (trim_end s) = trim_end s.
Proof.
  induction s as [ | c rest IH]; simpl; [reflexivity |].
  destruct (trim_end rest) as [ | c' r'] eqn:Hr.
  - destruct (is_space c) eqn:Hc; simpl; [reflexivity |]. rewrite Hc. reflexivity.
  - simpl in *. rewrite IH. reflexivity.
Qed.

Lemma trim_start_starts_clean (s : string) : starts_clean (trim_start s).
Proof.
  induction s as [ | c rest IH]; simpl; [exact I |].
  destruct (is_space c) eqn:Hc; [exact IH | exact Hc].
Qed.

Lemma trim_end_starts_clean (s : string) :
  starts_clean s -> starts_clean (trim_end s).
Proof.
  destruct s as [ | c rest]; simpl; [auto |].
  intros Hc. rewrite Hc. destruct (trim_end rest); exact Hc.
Qed.

Lemma trim_start_fixed (s : string) : starts_clean s -> trim_start s = s.
Proof.
  destruct s as [ | c rest]; simpl; [reflexivity |]. intros ->. reflexivity.
Qed.

Lemma trim_idempotent (s : string) : trim (trim s) = trim s.
Proof.
  unfold trim.
  rewrite (trim_start_fixed (trim_end (trim_start s))).
  - apply trim_end_idempotent.
  - apply trim_end_starts_clean, trim_start_starts_clean.
Qed.

(** X12.  Every entry of a list read by [parseEnvList] is non-empty, has
    no comma and no white space at either end; an unset or empty variable
    gives the empty list. *)
Theorem parseEnvList_entries_clean :
  parseEnvList None = [] /\
  parseEnvList (Some EmptyString) = [] /\
  forall (value : option string) (entry : string),
    In entry (parseEnvList value) -> clean_entry entry.
Proof.
  split; [reflexivity | split; [reflexivity |]].
  intros [[ | c rest] | ] entry; unfold parseEnvList; try (intros []).
  intros Hin. apply filter_In in Hin. destruct Hin as [Hin Hlen].
  apply in_map_iff in Hin. destruct Hin as (piece & <- & Hpiece).
  repeat split.
  - intros Heq. rewrite Heq in Hlen. discriminate.
  - apply trim_end_no_comma, trim_start_no_comma.
    apply (split_comma_no_comma (String c rest) _ Hpiece).
  - apply trim_idempotent.
Qed.

(** " key-one , key-two" holds the entry "key-one". *)
Lemma parseEnvList_entries_clean_witness : clean_entry "key-one".
Proof.
  apply (proj2 (proj2 parseEnvList_entries_clean) (Some " key-one , key-two")).
  vm_compute. left. reflexivity.
Defined.

Lemma split_comma_single (e : string) :
  no_comma e = true -> split_comma e = [e].
Proof.
  induction e as [ | c rest IH]; simpl; [reflexivity |].
  intros H. apply andb_true_iff in H. destruct H as [Hc Hr].
  apply negb_true_iff in Hc. rewrite Hc, (IH Hr). reflexivity.
Qed.

Lemma split_comma_app (e rest : string) :
  no_comma e = true ->
  split_comma (e ++ String comma rest) = e :: split_comma rest.
Proof.
  induction e as [ | c e' IH]; simpl.
  - intros _. reflexivity.
  - intros H. apply andb_true_iff in H. destruct H as [Hc Hr].
    apply negb_true_iff in Hc. rewrite Hc, (IH Hr). reflexivity.
Qed.

Lemma split_comma_concat (l : list string) :
  l <> [] ->
  Forall (fun e => no_comma e = true) l ->
  split_comma (String.concat "," l) = l.
Proof.
  induction l as [ | e l IH]; [congruence |].
  intros _ Hall. inversion Hall as [ | ? ? He Hl]; subst.
  destruct l as [ | e2 l'].
  - simpl. apply split_comma_single. exact He.
  - change (String.concat "," (e :: e2 :: l'))
      with (e ++ String comma (String.concat "," (e2 :: l')))%string.
    rewrite split_comma_app by exact He.
    rewrite IH; [reflexivity | discriminate | exact Hl].
Qed.

Lemma parseEnvList_concat (l : list string) :
  l <> [] ->
  Forall clean_entry l ->
  parseEnvList (Some (String.concat "," l)) = l.
Proof.
  intros Hne Hall.
  assert (Hnc : Forall (fun e => no_comma e = true) l).
  { eapply Forall_impl; [| exact Hall]. intros e (_ & H & _). exact H. }
  assert (Hjoin : String.concat "," l <> EmptyString).
  { destruct l as [ | e l']; [congruence |].
    inversion Hall as [ | ? ? (He & _) _]; subst.
    destruct e as [ | c e']; [congruence |].
    destruct l'; simpl; discriminate. }
  unfold parseEnvList.
  destruct (String.concat "," l) as [ | c rest] eqn:Hj; [congruence |].
  rewrite <- Hj. rewrite (split_comma_concat l Hne Hnc).
  clear Hj Hjoin Hne Hnc c rest.
  induction Hall as [ | e l (He & _ & Ht) _ IH]; [reflexivity |].
  simpl. rewrite Ht.
  destruct e as [ | c e']; [congruence |]. simpl. rewrite IH. reflexivity.
Qed.

Lemma concat_spaced_cons (a : string) (l : list string) :
  String space (String.concat ", " (a :: l)) = String.concat ", " (String space a :: l).
Proof. destruct l; reflexivity. Qed.

Lemma split_comma_concat_spaced (l : list string) :
  forall e,
    no_comma e = true ->
    Forall (fun e => no_comma e = true) l ->
    split_comma (String.concat ", " (e :: l)) = e :: map (String space) l.
Proof.
  induction l as [ | a l IH]; intros e He Hall.
  - simpl. apply split_comma_single. exact He.
  - inversion Hall as [ | ? ? Ha Hl]; subst.
    change (String.concat ", " (e :: a :: l))
      with (e ++ String comma (String space (String.concat ", " (a :: l))))%string.
    rewrite split_comma_app by exact He.
    rewrite concat_spaced_cons, IH; [reflexivity | | exact Hl].
    simpl. exact Ha.
Qed.

Lemma filter_map_trim_clean (l : list string) :
  Forall clean_entry l ->
  filter (fun v => Nat.ltb 0 (String.length v)) (map trim l) = l.
Proof.
  induction 1 as [ | e l (He & _ & Ht) _ IH]; [reflexivity |].
  simpl. rewrite Ht.
  destruct e as [ | c e']; [congruence |]. simpl. rewrite IH. reflexivity.
Qed.

(** X13.  Writing clean entries with commas between them, or with a comma
    and a space between them, and reading the result with [parseEnvList]
    gives the entries back, in order. *)
Theorem parseEnvList_concat_round_trip :
  forall l : list string,
    l <> [] ->
    Forall clean_entry l ->
    parseEnvList (Some (String.concat "," l)) = l /\
    parseEnvList (Some (String.concat ", " l)) = l.
Proof.
  intros l Hne Hall. split; [apply parseEnvList_concat; assumption |].
  assert (Hnc : Forall (fun e => no_comma e = true) l).
  { eapply Forall_impl; [| exact Hall]. intros e (_ & H & _). exact H. }
  destruct l as [ | e l]; [congruence |].
  inversion Hall as [ | ? ? (He & _ & Ht) Hl]; subst.
  inversion Hnc as [ | ? ? Hce Hcl]; subst.
  assert (Hjoin : String.concat ", " (e :: l) <> EmptyString).
  { destruct e as [ | c e']; [congruence |]. destruct l; simpl; discriminate. }
  unfold parseEnvList.
  destruct (String.concat ", " (e :: l)) as [ | c rest] eqn:Hj; [congruence |].
  rewrite <- Hj, (split_comma_concat_spaced l e Hce Hcl).
  cbn [map]. rewrite map_map.
  change (map (fun x => trim (String space x)) l) with (map trim l).
  change (trim e :: map trim l) with (map trim (e :: l)).
  apply filter_map_trim_clean. exact Hall.
Qed.

Lemma clean_entry_examples : clean_entry "key-one" /\ clean_entry "key-two".
Proof. split; (split; [discriminate | split; reflexivity]). Qed.

Lemma parseEnvList_concat_round_trip_witness :
  parseEnvList (Some "key-one, key-two") = ["key-one"; "key-two"].
Proof.
  apply (parseEnvList_concat_round_trip ["key-one"; "key-two"]).
  - discriminate.
  - constructor; [apply clean_entry_examples |].
    constructor; [apply clean_entry_examples | constructor].
Defined.

Lemma includes_In (l : list string) (s : string) :
  includes l s = true <-> In s l.
Proof.
  unfold includes. rewrite existsb_exists. split.
  - intros (x & Hin & Heq). apply String.eqb_eq in Heq. subst. exact Hin.
  - intros Hin. exists s. split; [exact Hin | apply String.eqb_refl].
Qed.

Lemma js_or_same (v : JsValue) : js_or v v = v.
Proof. unfold js_or. destruct (ToBoolean v); reflexivity. Qed.

Lemma ToBoolean_string (s : string) :
  ToBoolean (JStr s) = true <-> s <> EmptyString.
Proof. destruct s; simpl; split; congruence. Qed.

Lemma apiKeyMiddleware_cases (apiKeys : list string) (name : string) (req : Request) :
  apiKeyMiddleware apiKeys name req =
  match apiKeys with
  | [] => Next
  | _ =>
      if negb (ToBoolean (providedKey name req))
      then Sent (sendError 401 "Unauthorized"
                   (Some ("Missing API key in header " ++ name)%string))
      else if negb (includes_value apiKeys (providedKey name req))
           then Sent (sendError 403 "Forbidden" (Some "Invalid API key"))
           else Next
  end.
Proof.
  unfold apiKeyMiddleware, providedKey. cbv zeta. rewrite js_or_same.
  destruct apiKeys; [reflexivity |].
  destruct (headers req name); reflexivity.
Qed.

Lemma apiKeyMiddleware_accepts (apiKeys : list string) (name : string)
      (req : Request) (s : string) :
  providedKey name req = JStr s -> s <> EmptyString -> In s apiKeys ->
  apiKeyMiddleware apiKeys name req = Next.
Proof.
  intros Hs Hne Hin. rewrite apiKeyMiddleware_cases.
  destruct apiKeys as [ | key keys]; [reflexivity |].
  rewrite Hs. apply ToBoolean_string in Hne. rewrite Hne. cbn [negb].
  apply includes_In in Hin. cbn [includes_value]. rewrite Hin. reflexivity.
Qed.

(** X14.  With no key configured [apiKeyMiddleware] lets every request
    through.  With keys configured it lets a request through exactly when
    the key it presents is a non-empty string of the list; it answers 401
    when no key is presented (header absent, empty, or an empty list of
    values) and 403 for any other value. *)
Theorem apiKeyMiddleware_outcome :
  forall (apiKeys : list string) (apiKeyHeaderName : string) (req : Request),
    (apiKeyMiddleware apiKeys apiKeyHeaderName req = Next <->
     apiKeys = [] \/
     exists s, providedKey apiKeyHeaderName req = JStr s /\
               s <> EmptyString /\ In s apiKeys) /\
    (forall r,
        apiKeyMiddleware apiKeys apiKeyHeaderName req = Sent r ->
        apiKeys <> [] /\
        ((ToBoolean (providedKey apiKeyHeaderName req) = false /\
          r = sendError 401 "Unauthorized"
                (Some ("Missing API key in header " ++ apiKeyHeaderName)%string)) \/
         (ToBoolean (providedKey apiKeyHeaderName req) = true /\
          r = sendError 403 "Forbidden" (Some "Invalid API key")))).
Proof.
  intros apiKeys name req. rewrite apiKeyMiddleware_cases.
  destruct apiKeys as [ | key keys].
  - split; [split; auto |]. intros r H. discriminate H.
  - destruct (ToBoolean (providedKey name req)) eqn:Htruthy; cbn [negb].
    + destruct (includes_value (key :: keys) (providedKey name req)) eqn:Hinc;
        cbn [negb].
      * split; [| intros r H; discriminate H].
        split; [intros _ | reflexivity]. right.
        destruct (providedKey name req) as [ | | b | n | s | l | f];
          try discriminate.
        exists s. split; [reflexivity |]. split.
        -- apply ToBoolean_string. exact Htruthy.
        -- apply includes_In. exact Hinc.
      * split.
        -- split; [intros H; discriminate H |].
           intros [Hnil | (s & Hs & _ & Hin)]; [discriminate |].
           rewrite Hs in Hinc. apply includes_In in Hin.
           cbn [includes_value] in Hinc. congruence.
        -- intros r H. injection H as <-.
           split; [discriminate | right; auto].
    + split.
      * split; [intros H; discriminate H |].
        intros [Hnil | (s & Hs & Hne & _)]; [discriminate |].
        rewrite Hs in Htruthy. apply ToBoolean_string in Hne. congruence.
      * intros r H. injection H as <-.
        split; [discriminate | left; auto].
Qed.

(** X15.  A key written in the API_KEYS variable, commas between the keys,
    is accepted when a request presents it; with API_KEYS unset or empty
    every request is let through. *)
Theorem apiKeys_of_environment :
  (forall (apiKeyHeaderName : string) (req : Request),
      apiKeyMiddleware (apiKeys_of None) apiKeyHeaderName req = Next /\
      apiKeyMiddleware (apiKeys_of (Some EmptyString)) apiKeyHeaderName req = Next) /\
  (forall (l : list string) (key apiKeyHeaderName : string) (req : Request),
      Forall clean_entry l ->
      In key l ->
      headers req apiKeyHeaderName = JStr key ->
      apiKeyMiddleware (apiKeys_of (Some (String.concat "," l))) apiKeyHeaderName req
      = Next).
Proof.
  split; [intros name req; split; reflexivity |].
  intros l key name req Hall Hin Hheader.
  assert (Hne : l <> []) by (intros ->; destruct Hin).
  unfold apiKeys_of. rewrite (parseEnvList_concat l Hne Hall).
  apply (apiKeyMiddleware_accepts l name req key).
  - unfold providedKey. rewrite Hheader. reflexivity.
  - rewrite Forall_forall in Hall. apply (Hall key Hin).
  - exact Hin.
Qed.

(** Sample requests: one presenting "key-one", one presenting nothing. *)
Lemma apiKeyMiddleware_outcome_witness :
  apiKeyMiddleware ["key-one"; "key-two"] "x-api-key" sample_request_with_key = Next /\
  exists r, apiKeyMiddleware ["key-one"; "key-two"] "x-api-key" sample_request = Sent r /\
            status r = 401%nat.
Proof.
  split.
  - apply (proj1 (apiKeyMiddleware_outcome ["key-one"; "key-two"] "x-api-key"
                    sample_request_with_key)).
    right. exists "key-one".
    split; [reflexivity | split; [discriminate | left; reflexivity]].
  - eexists. split; [reflexivity |].
    destruct (proj2 (apiKeyMiddleware_outcome ["key-one"; "key-two"] "x-api-key"
                       sample_request) _ eq_refl) as (_ & [[_ Hr] | [Ht _]]).
    + reflexivity.
    + discriminate Ht.
Defined.

Lemma apiKeys_of_environment_witness :
  apiKeyMiddleware (apiKeys_of (Some "key-one,key-two")) "x-api-key"
                   sample_request_with_key = Next.
Proof.
  apply (proj2 apiKeys_of_environment ["key-one"; "key-two"] "key-one" "x-api-key"
               sample_request_with_key).
  - constructor; [apply clean_entry_examples |].
    constructor; [apply clean_entry_examples | constructor].
  - left. reflexivity.
  - reflexivity.
Defined.

(** X16.  The CORS callback allows a request exactly when it has no origin,
    or no origin is configured, or its origin is in the list; otherwise it
    reports "Not allowed by CORS".  With both environment variables unset
    every origin is allowed, and CORS_ALLOWED_ORIGINS, when not empty, is
    the one that is read. *)
Theorem corsOrigin_decision :
  forall (allowedOrigins : list string) (origin : option string),
    (corsOrigin allowedOrigins origin = Normal true <->
     origin = None \/ origin = Some EmptyString \/ allowedOrigins = [] \/
     exists o, origin = Some o /\ In o allowedOrigins) /\
    (corsOrigin allowedOrigins origin = Normal true \/
     corsOrigin allowedOrigins origin = Throw "Not allowed by CORS") /\
    corsOrigin (allowedOrigins_of None None) origin = Normal true /\
    (forall c rest other,
        allowedOrigins_of (Some (String c rest)) other
        = parseEnvList (Some (String c rest))) /\
    (forall other, allowedOrigins_of None other = parseEnvList other).
Proof.
  intros allowed origin. split; [| split; [| split; [| split]]].
  - unfold corsOrigin.
    destruct origin as [[ | c o] | ]; try (split; auto; fail).
    destruct allowed as [ | a l]; [split; auto |]. cbn [List.length Nat.eqb].
    destruct (includes (a :: l) (String c o)) eqn:Hinc.
    + apply includes_In in Hinc. split; [| reflexivity].
      intros _. right. right. right. exists (String c o). auto.
    + split; [discriminate |].
      intros [H | [H | [H | (o' & Ho & Hin)]]]; try discriminate.
      injection Ho as <-. apply includes_In in Hin. congruence.
  - unfold corsOrigin.
    destruct origin as [[ | c o] | ]; auto.
    destruct (Nat.eqb _ _); auto. destruct (includes _ _); auto.
  - destruct origin as [[ | c o] | ]; reflexivity.
  - reflexivity.
  - reflexivity.
Qed.

(* ================================================================== *)
(** ** Route handlers: properties *)

Lemma abind_eval_Normal {A B} (x : A) (f : A -> Action B) :
  abind (eval (Normal x)) f = f x.
Proof. reflexivity. Qed.

Lemma abind_eval_Throw {A B} (e : string) (f : A -> Action B) :
  abind (eval (Throw e)) f = eval (Throw e).
Proof. reflexivity. Qed.

Lemma outcome_abind {A B} (lib : H3Lib) (a : Action A) (f : A -> Action B) :
  outcome lib (abind a f) = cbind (outcome lib a) (fun x => outcome lib (f x)).
Proof.
  unfold outcome, abind. rewrite result_pbind.
  destruct (result lib a) as [[x | e] | e]; reflexivity.
Qed.

Lemma calls_abind {A B} (lib : H3Lib) (a : Action A) (f : A -> Action B) :
  calls lib (abind a f) =
  calls lib a ++ match outcome lib a with
                 | Normal x => calls lib (f x)
                 | Throw _ => []
                 end.
Proof.
  unfold outcome, abind. rewrite calls_pbind.
  destruct (result lib a) as [[x | e] | e]; reflexivity.
Qed.

Lemma outcome_perform {A} (lib : H3Lib) (p : Prog A) :
  outcome lib (perform p) = result lib p.
Proof.
  unfold outcome, perform. rewrite result_pbind.
  destruct (result lib p); reflexivity.
Qed.

Lemma calls_perform {A} (lib : H3Lib) (p : Prog A) :
  calls lib (perform p) = calls lib p.
Proof.
  unfold perform. rewrite calls_pbind.
  destruct (result lib p); rewrite ?calls_Ret; apply app_nil_r.
Qed.

Lemma outcome_reply {A} (lib : H3Lib) (wrap : A -> Json) (p : Prog A) :
  outcome lib (reply wrap p) =
  cbind (result lib p) (fun a => Normal (send (wrap a))).
Proof. unfold reply. rewrite outcome_abind, outcome_perform. reflexivity. Qed.

Lemma respond_reply {A} (lib : H3Lib) (wrap : A -> Json) (p : Prog A) :
  respond lib (reply wrap p) =
  match result lib p with
  | Normal a => send (wrap a)
  | Throw e => internal_error e
  end.
Proof.
  unfold respond. rewrite outcome_reply. destruct (result lib p); reflexivity.
Qed.

Lemma handler_calls_reply {A} (lib : H3Lib) (wrap : A -> Json) (p : Prog A) :
  handler_calls lib (reply wrap p) = calls lib p.
Proof.
  unfold handler_calls, reply. rewrite calls_abind, calls_perform, outcome_perform.
  destruct (result lib p); apply app_nil_r.
Qed.

(** The check of a hash, followed by the rest of a handler: the call of
    [isValidCell] comes first, and the rest sees its verdict. *)
Lemma hash_check {A} (lib : H3Lib) (h : JsValue) (f : ValidationResult -> Action A) :
  let a := abind (perform (validateCellHash h)) f in
  match lib (isValidCell h) with
  | Normal ok =>
      let v := if ok then valid else invalid hash_error in
      outcome lib a = outcome lib (f v) /\
      calls lib a = isValidCell h :: calls lib (f v)
  | Throw e => outcome lib a = Throw e /\ calls lib a = [isValidCell h]
  end.
Proof.
  cbv zeta. rewrite outcome_abind, calls_abind, outcome_perform, calls_perform.
  unfold validateCellHash.
  rewrite result_pbind, calls_pbind, result_call, calls_call.
  destruct (lib (isValidCell h)) as [[ | ] | e]; split; reflexivity.
Qed.

Lemma orderly_error (calls_made : list H3Call) (code : nat) (e m : string) :
  (code = 400%nat /\ (calls_made = [] \/ exists h, calls_made = [isValidCell h]))
  \/ code = 500%nat ->
  orderly calls_made (sendError code e (Some m)).
Proof.
  intros H. unfold orderly. cbn [status json sendError].
  split; [| split; [| split]].
  - destruct H as [[-> _] | ->]; auto.
  - split.
    + destruct H as [[-> _] | ->]; discriminate.
    + intros Hn. exfalso. apply (Hn e (Some m)). reflexivity.
  - intros _. exists e, m. reflexivity.
  - destruct H as [[_ H] | ->]; [intros _; exact H | discriminate].
Qed.

(** The ways a handler ends: an exception, a refusal, or the reply with
    what service code returns.  [pre] holds the calls made before. *)
Lemma orderly_thrown (lib : H3Lib) (pre : list H3Call) (e : string) :
  orderly (pre ++ handler_calls lib (eval (Throw e)))
          (respond lib (eval (Throw e))).
Proof. apply orderly_error. right. reflexivity. Qed.

Lemma orderly_refusal (lib : H3Lib) (pre : list H3Call) (e m : string) :
  pre = [] \/ (exists h, pre = [isValidCell h]) ->
  orderly (pre ++ handler_calls lib (answer (sendError 400 e (Some m))))
          (respond lib (answer (sendError 400 e (Some m)))).
Proof.
  intros Hpre. apply orderly_error. left. split; [reflexivity |].
  unfold handler_calls, answer, eval. rewrite calls_Ret, app_nil_r. exact Hpre.
Qed.

Lemma orderly_reply {A} (lib : H3Lib) (pre : list H3Call) (wrap : A -> Json)
      (p : Prog A) :
  (forall a e m, wrap a <> JsonError e m) ->
  orderly (pre ++ handler_calls lib (reply wrap p)) (respond lib (reply wrap p)).
Proof.
  intros Hwrap. rewrite respond_reply.
  destruct (result lib p) as [a | err].
  - unfold orderly. cbn [status json send].
    split; [auto |]. split; [| split]; try (intros H; congruence).
    split; [intros _; apply Hwrap | reflexivity].
  - apply orderly_error. right. reflexivity.
Qed.

Lemma orderly_hash_check (lib : H3Lib) (h : JsValue)
      (f : ValidationResult -> Action Response) (pre : list H3Call) :
  pre = [] ->
  (forall v, v = valid \/ v = invalid hash_error ->
             orderly ([isValidCell h] ++ handler_calls lib (f v)) (respond lib (f v))) ->
  orderly (pre ++ handler_calls lib (abind (perform (validateCellHash h)) f))
          (respond lib (abind (perform (validateCellHash h)) f)).
Proof.
  intros -> Hrest. pose proof (hash_check lib h f) as H. cbv zeta in H.
  unfold respond, handler_calls in *. cbn [app].
  destruct (lib (isValidCell h)) as [ok | e].
  - destruct H as [-> ->]. apply (Hrest (if ok then valid else invalid hash_error)).
    destruct ok; auto.
  - destruct H as [-> ->]. apply orderly_error. right. reflexivity.
Qed.

Section HandlerFacts.

Variable parseFloat_of_string : string -> JS.number.
Variable parseInt_of_string : string -> JS.number.
Variable StringToNumber : string -> JS.number.
Variable NumberToString : JS.number -> string.

Local Abbreviation parseFloat' := (parseFloat parseFloat_of_string NumberToString).
Local Abbreviation parseInt' := (parseInt parseInt_of_string NumberToString).
Local Abbreviation validateCoordinates' :=
  (validateCoordinates StringToNumber NumberToString).
Local Abbreviation validateResolution' :=
  (validateResolution StringToNumber NumberToString).
Local Abbreviation validateKValue' :=
  (validateKValue StringToNumber NumberToString).
Local Abbreviation validatePolygon' :=
  (validatePolygon StringToNumber NumberToString).
Local Abbreviation handlers :=
  (api_handlers parseFloat_of_string parseInt_of_string StringToNumber NumberToString).

(** What [validatePolygon] completes with: [valid], a reason, or
    [TypeError]. *)
Lemma validatePolygon_cases (polygon : JsValue) :
  validatePolygon' polygon = Normal valid \/
  (exists m, validatePolygon' polygon = Normal (invalid m)) \/
  validatePolygon' polygon = Throw TypeError.
Proof.
  destruct (validatePolygon_outcome StringToNumber NumberToString polygon)
    as [[(r & Hr & [-> | (m & -> & _)]) | H] _]; eauto.
Qed.

(** A parse returns when its argument converts. *)
Lemma parseFloat_returns (v : JsValue) :
  coercible v = true -> exists x, parseFloat' v = Normal x.
Proof.
  intros H. unfold parseFloat.
  destruct (ToString_outcome NumberToString v) as [Hok _].
  destruct (Hok H) as [s ->]. eexists. reflexivity.
Qed.

Lemma parseInt_returns (v : JsValue) :
  coercible v = true -> exists x, parseInt' v = Normal x.
Proof.
  intros H. unfold parseInt.
  destruct (ToString_outcome NumberToString v) as [Hok _].
  destruct (Hok H) as [s ->]. eexists. reflexivity.
Qed.

(** Follow a handler down to each of its ends. *)
Ltac handler_step :=
  first
    [ rewrite abind_eval_Normal; cbv beta
    | rewrite abind_eval_Throw
    | rewrite validateCoordinates_numbers
    | rewrite validateResolution_number
    | rewrite validateKValue_number
    | match goal with
      | |- context [eval (parseFloat ?r ?n ?v)] =>
          destruct (parseFloat r n v) as [? | ?] eqn:?
      | |- context [eval (parseInt ?r ?n ?v)] =>
          destruct (parseInt r n v) as [? | ?] eqn:?
      | |- context [eval (get_property ?b ?k)] =>
          destruct (get_property b k) as [? | ?] eqn:?
      | |- context [eval (validatePolygon ?S ?N ?p)] =>
          destruct (validatePolygon_cases p) as [-> | [[? ->] | ->]]
      | |- context [if negb (isValid (if ?c then _ else _)) then _ else _] =>
          destruct c eqn:?; cbn [negb isValid valid invalid error orb]
      | |- context [if negb (isValid valid) then _ else _] =>
          cbn [negb isValid valid invalid error orb]
      | |- context [if negb (isValid (invalid _)) then _ else _] =>
          cbn [negb isValid valid invalid error orb]
      | |- context [if ?c then _ else _] => destruct c eqn:?; cbv iota
      end ].

Ltac orderly_end :=
  lazymatch goal with
  | |- orderly (_ ++ handler_calls _ (eval (Throw _))) _ => apply orderly_thrown
  | |- orderly (_ ++ handler_calls _ (answer _)) _ =>
      apply orderly_refusal;
      first [left; reflexivity | right; eexists; reflexivity]
  | |- orderly (_ ++ handler_calls _ (reply _ _)) _ =>
      apply orderly_reply; intros; discriminate
  end.

Ltac orderly_tac := repeat handler_step; orderly_end.

Lemma handlers_orderly_each (lib : H3Lib) (req : Request) :
  Forall (fun handler : Handler =>
            orderly ([] ++ handler_calls lib (handler req)) (respond lib (handler req)))
         handlers.
Proof.
  unfold api_handlers. repeat apply Forall_cons; [.. | apply Forall_nil].
  - unfold zoneHandler. orderly_tac.
  - unfold centerHandler. cbv zeta.
    apply orderly_hash_check; [reflexivity |].
    intros v [-> | ->]; orderly_tac.
  - unfold boundaryHandler. cbv zeta.
    apply orderly_hash_check; [reflexivity |].
    intros v [-> | ->]; orderly_tac.
  - unfold neighborsHandler. cbv zeta.
    handler_step; handler_step; [| orderly_end].
    apply orderly_hash_check; [reflexivity |].
    intros v [-> | ->]; orderly_tac.
  - unfold infoHandler. cbv zeta.
    apply orderly_hash_check; [reflexivity |].
    intros v [-> | ->]; orderly_tac.
  - unfold areaHandler. cbv zeta. orderly_tac.
  - unfold radiusHandler. cbv zeta. orderly_tac.
  - unfold polygonHandler. orderly_tac.
  - unfold resolutionsHandler.
    unfold orderly. cbn. split; [auto |].
    split; [split; [intros _ e m H; discriminate H | reflexivity] |].
    split; intros H; congruence.
Qed.

(** With a library that answers and a request whose values convert, no
    handler ends in an exception. *)
Lemma respond_hash_check (lib : H3Lib) (h : JsValue)
      (f : ValidationResult -> Action Response) (ok : bool) :
  lib (isValidCell h) = Normal ok ->
  respond lib (abind (perform (validateCellHash h)) f) =
  respond lib (f (if ok then valid else invalid hash_error)) /\
  handler_calls lib (abind (perform (validateCellHash h)) f) =
  isValidCell h :: handler_calls lib (f (if ok then valid else invalid hash_error)).
Proof.
  intros Hok. pose proof (hash_check lib h f) as H. cbv zeta in H.
  rewrite Hok in H. destruct H as [Ho Hc].
  unfold respond, handler_calls. rewrite Ho, Hc. split; reflexivity.
Qed.

Ltac converts Hq Hb :=
  first [ reflexivity | apply Hq | apply Hb ].

Ltac reach_step Hq Hb :=
  first
    [ rewrite abind_eval_Normal; cbv beta
    | rewrite validateCoordinates_numbers
    | rewrite validateResolution_number
    | rewrite validateKValue_number
    | match goal with
      | |- context [eval (parseFloat ?r ?n ?v)] =>
          let x := fresh "x" in
          let H := fresh "H" in
          destruct (parseFloat_returns v) as [x H]; [converts Hq Hb | rewrite H]
      | |- context [eval (parseInt ?r ?n ?v)] =>
          let x := fresh "x" in
          let H := fresh "H" in
          destruct (parseInt_returns v) as [x H]; [converts Hq Hb | rewrite H]
      | |- context [eval (validatePolygon ?S ?N ?p)] =>
          let H := fresh "H" in
          let Hok := fresh "Hok" in
          destruct (validatePolygon_outcome S N p) as [_ Hok];
          destruct (validatePolygon_cases p) as [H | [[? H] | H]];
          [ | | exfalso; apply Hok; [converts Hq Hb | exact H]];
          rewrite H
      | |- context [if negb (isValid (if ?c then _ else _)) then _ else _] =>
          destruct c eqn:?; cbn [negb isValid valid invalid error orb]
      | |- context [if negb (isValid valid) then _ else _] =>
          cbn [negb isValid valid invalid error orb]
      | |- context [if negb (isValid (invalid _)) then _ else _] =>
          cbn [negb isValid valid invalid error orb]
      | |- context [if ?c then _ else _] => destruct c eqn:?; cbv iota
      end ].

Lemma handlers_answer_each (lib : H3Lib) (req : Request) :
  never_throws lib ->
  convertible_request req ->
  Forall (fun handler : Handler => status (respond lib (handler req)) <> 500%nat)
         handlers.
Proof.
  intros Hlib (Hq & fields & Hbody & Hb).
  assert (Hreply : forall A (wrap : A -> Json) (p : Prog A),
             status (respond lib (reply wrap p)) <> 500%nat).
  { intros A wrap p. rewrite respond_reply.
    destruct (never_throws_result lib p Hlib) as [a ->]. discriminate. }
  assert (Hcheck : forall h (f : ValidationResult -> Action Response),
             (forall v, status (respond lib (f v)) <> 500%nat) ->
             status (respond lib (abind (perform (validateCellHash h)) f)) <> 500%nat).
  { intros h f Hf. destruct (Hlib (isValidCell h)) as [ok Hok].
    rewrite (proj1 (respond_hash_check lib h f ok Hok)). apply Hf. }
  unfold api_handlers. repeat apply Forall_cons; [.. | apply Forall_nil].
  - unfold zoneHandler. repeat reach_step Hq Hb; (apply Hreply || discriminate).
  - unfold centerHandler. cbv zeta. apply Hcheck. intros v.
    repeat reach_step Hq Hb; (apply Hreply || discriminate).
  - unfold boundaryHandler. cbv zeta. apply Hcheck. intros v.
    repeat reach_step Hq Hb; (apply Hreply || discriminate).
  - unfold neighborsHandler. cbv zeta. do 2 reach_step Hq Hb.
    apply Hcheck. intros v.
    repeat reach_step Hq Hb; (apply Hreply || discriminate).
  - unfold infoHandler. cbv zeta. apply Hcheck. intros v.
    repeat reach_step Hq Hb; (apply Hreply || discriminate).
  - unfold areaHandler. cbv zeta.
    repeat reach_step Hq Hb; (apply Hreply || discriminate).
  - unfold radiusHandler. cbv zeta.
    repeat reach_step Hq Hb; (apply Hreply || discriminate).
  - unfold polygonHandler. rewrite Hbody. cbn [get_property].
    repeat reach_step Hq Hb; (apply Hreply || discriminate).
  - discriminate.
Qed.



Lemma getZone_first_call (lib : H3Lib) (lat lng resolution : JS.number) :
  exists rest,
    calls lib (getZone lat lng resolution) = latLngToCell lat lng resolution :: rest /\
    forall c, In c rest -> resolution_argument c = None.
Proof.
  unfold getZone. rewrite calls_pbind, calls_call, result_call.
  eexists. split; [reflexivity |].
  intros c Hin.
  destruct (lib (latLngToCell lat lng resolution)) as [hash | e]; [| destruct Hin].
  rewrite calls_pbind, calls_call, result_call in Hin.
  destruct Hin as [<- | Hin]; [reflexivity |].
  destruct (lib (cellToLatLng hash)) as [center | e]; [| destruct Hin].
  rewrite app_nil_l, calls_pbind, calls_call, result_call in Hin.
  destruct Hin as [<- | Hin]; [reflexivity |].
  destruct (lib (getResolution hash)); destruct Hin.
Qed.

Lemma is_cellToLatLng_no_resolution (c : H3Call) :
  is_cellToLatLng c -> resolution_argument c = None.
Proof. intros [h ->]. reflexivity. Qed.

Lemma getNeighbors_calls_shape (lib : H3Lib) (hash : string) (k : JS.number) :
  exists rest,
    calls lib (getNeighbors hash (Some k)) = gridDisk hash k :: rest /\
    forall h k', ~ In (gridDisk h k') rest.
Proof.
  unfold getNeighbors. cbv zeta. rewrite calls_pbind, calls_call, result_call.
  eexists. split; [reflexivity |].
  intros h k' Hin.
  destruct (lib (gridDisk hash k)) as [disk | e]; [| destruct Hin].
  rewrite calls_pbind in Hin. apply in_app_or in Hin. destruct Hin as [Hin | Hin].
  - destruct (mapP_formatNeighborInfo lib disk) as [Hall _].
    rewrite Forall_forall in Hall. destruct (Hall _ Hin) as [h' Hc]. discriminate Hc.
  - destruct (result lib (mapP formatNeighborInfo disk)); [| destruct Hin].
    rewrite calls_pbind, calls_call, result_call in Hin.
    destruct Hin as [Hc | Hin]; [discriminate Hc |].
    destruct (lib (getResolution hash)); destruct Hin.
Qed.

(** Run a handler along the values the hypotheses give. *)
Ltac known :=
  repeat first
    [ rewrite abind_eval_Normal; cbv beta
    | rewrite abind_eval_Throw
    | match goal with
      | H : _ = Normal _ |- _ => rewrite H
      | H : _ = Throw _ |- _ => rewrite H
      | H : ToBoolean _ = _ |- _ => rewrite H
      end ];
  cbn [negb orb isValid valid invalid error].

(** X18.  A latitude that does not parse is refused by the JavaScript
    server with 400, before any library call; the TypeScript handler lets
    it through, and when longitude and resolution pass it calls
    [latLngToCell] with [NaN]. *)
Theorem zoneHandler_NaN_latitude :
  forall (lib : H3Lib) (req : Request) (lng resolution : JS.number),
    parseFloat' (JStr (params req "lat")) = Normal JS.NaN ->
    parseFloat' (JStr (params req "lng")) = Normal lng ->
    parseInt' (JStr (params req "resolution")) = Normal resolution ->
    respond lib (zoneHandler_js parseFloat_of_string parseInt_of_string
                                StringToNumber NumberToString req)
    = sendError 400 "Invalid coordinates" (Some coordinates_error) /\
    handler_calls lib
      (zoneHandler_js parseFloat_of_string parseInt_of_string
                      StringToNumber NumberToString req) = [] /\
    (validateCoordinates' (JNum (JS.of_Z 0)) (JNum lng) = Normal valid ->
     validateResolution' (JNum resolution) = Normal valid ->
     exists rest,
       handler_calls lib
         (zoneHandler parseFloat_of_string parseInt_of_string
                      StringToNumber NumberToString req)
       = latLngToCell JS.NaN lng resolution :: rest).
Proof.
  intros lib req lng resolution Hlat Hlng Hres.
  unfold zoneHandler_js, zoneHandler.
  rewrite Hlat, Hlng, Hres, !abind_eval_Normal.
  change (isValidCoordinate StringToNumber NumberToString (JNum JS.NaN) (JNum lng))
    with (Normal (A := bool) false).
  rewrite abind_eval_Normal. cbn [negb].
  split; [reflexivity | split; [reflexivity |]].
  change (validateCoordinates' (JNum JS.NaN) (JNum lng))
    with (validateCoordinates' (JNum (JS.of_Z 0)) (JNum lng)).
  intros Hc Hr. known. rewrite handler_calls_reply.
  destruct (getZone_first_call lib JS.NaN lng resolution) as (rest & -> & _).
  exists rest. reflexivity.
Qed.

(** X19.  When both coordinates parse to numbers and the resolution parses
    to an integer or to [NaN], the zone handlers of the two servers take
    the same decision: same status, same library calls, and the same
    response unless it is a refusal (whose wording differs). *)
Theorem zone_handlers_agree_on_numbers :
  forall (lib : H3Lib) (req : Request) (lat lng resolution : JS.number),
    parseFloat' (JStr (params req "lat")) = Normal lat ->
    parseFloat' (JStr (params req "lng")) = Normal lng ->
    parseInt' (JStr (params req "resolution")) = Normal resolution ->
    lat <> JS.NaN ->
    lng <> JS.NaN ->
    resolution = JS.NaN \/ JS.isInteger resolution = true ->
    let ts := zoneHandler parseFloat_of_string parseInt_of_string
                          StringToNumber NumberToString req in
    let js := zoneHandler_js parseFloat_of_string parseInt_of_string
                             StringToNumber NumberToString req in
    status (respond lib ts) = status (respond lib js) /\
    handler_calls lib ts = handler_calls lib js /\
    (status (respond lib ts) <> 400%nat -> respond lib ts = respond lib js).
Proof.
  intros lib req lat lng resolution Hplat Hplng Hpres Hlat Hlng Hres ts js.
  subst ts js. unfold zoneHandler, zoneHandler_js.
  rewrite Hplat, Hplng, Hpres, !abind_eval_Normal.
  destruct (validateCoordinates_agrees_on_numbers StringToNumber NumberToString
              lat lng Hlat Hlng) as (r & b & -> & -> & <-).
  destruct (validateResolution_agrees_on_integers StringToNumber NumberToString
              resolution Hres) as (r' & -> & ->).
  rewrite !abind_eval_Normal.
  destruct (isValid r) eqn:Hc; cbn [negb].
  - rewrite ?abind_eval_Normal. destruct (isValid r') eqn:Hr; cbn [negb].
    + repeat split; reflexivity.
    + repeat split; try reflexivity. intros H. exfalso. apply H. reflexivity.
  - repeat split; try reflexivity. intros H. exfalso. apply H. reflexivity.
Qed.

Lemma k_or_default_is_double (k : JS.number) :
  JS.is_double k = true -> JS.is_double (k_or_default k) = true.
Proof.
  intros Hk. unfold k_or_default. destruct (ToBoolean (JNum k)); [exact Hk | reflexivity].
Qed.

(** X20.  In the neighbours handler a [k] that is missing, does not parse,
    or is 0 counts as 1, so it is never refused; and whatever the request,
    the handler asks the library only for disks around the validated hash
    with a ring count that is an integer from 1 to 10. *)
Theorem neighborsHandler_ring_count :
  forall (lib : H3Lib) (req : Request),
    let handler := neighborsHandler parseInt_of_string StringToNumber
                                    NumberToString req in
    (forall parsed,
        parseInt' (query req "k") = Normal parsed ->
        ToBoolean (JNum parsed) = false ->
        lib (isValidCell (JStr (params req "hash"))) = Normal true ->
        exists rest,
          handler_calls lib handler =
          isValidCell (JStr (params req "hash"))
          :: gridDisk (params req "hash") (JS.of_Z 1) :: rest) /\
    ((forall s, JS.is_double (parseInt_of_string s) = true) ->
     forall h k,
       In (gridDisk h k) (handler_calls lib handler) ->
       h = params req "hash" /\
       lib (isValidCell (JStr h)) = Normal true /\
       exists z, JS.int_value k = Some z /\ 1 <= z <= 10).
Proof.
  intros lib req handler. subst handler. unfold neighborsHandler. cbv zeta. split.
  - intros parsed Hparse Hfalsy Hcell.
    rewrite Hparse, abind_eval_Normal.
    rewrite (proj2 (respond_hash_check lib _ _ true Hcell)).
    unfold k_or_default. rewrite Hfalsy.
    change (validateKValue' (JNum (JS.of_Z 1))) with (Normal valid).
    rewrite abind_eval_Normal. cbn [negb isValid valid].
    rewrite handler_calls_reply.
    destruct (getNeighbors_calls_shape lib (params req "hash") (JS.of_Z 1))
      as (rest & -> & _).
    exists rest. reflexivity.
  - intros Hdouble h k.
    unfold parseInt at 1.
    destruct (ToString NumberToString (query req "k")) as [s | e]; cbind_reduce;
      [| intros []].
    rewrite abind_eval_Normal.
    pose proof (hash_check lib (JStr (params req "hash"))
                  (fun hashValidation =>
                     if negb (isValid hashValidation)
                     then answer (sendError 400 "Invalid H3 hash" (error hashValidation))
                     else
                       abind (eval (validateKValue'
                                      (JNum (k_or_default (parseInt_of_string s)))))
                             (fun kValidation =>
                                if negb (isValid kValidation)
                                then answer (sendError 400 "Invalid k value"
                                               (error kValidation))
                                else reply JsonNeighbors
                                       (getNeighbors (params req "hash")
                                          (Some (k_or_default (parseInt_of_string s)))))))
      as Hcheck.
    cbv zeta in Hcheck. unfold handler_calls.
    destruct (lib (isValidCell (JStr (params req "hash")))) as [ok | e] eqn:Hcell;
      destruct Hcheck as [_ ->]; [| intros [Hc | []]; discriminate Hc].
    intros [Hc | Hin]; [discriminate Hc |].
    destruct ok; cbn [negb isValid valid invalid] in Hin; [| destruct Hin].
    rewrite validateKValue_number in Hin. rewrite abind_eval_Normal in Hin.
    destruct (JS.lt (k_or_default (parseInt_of_string s)) (JS.of_Z 1)
              || JS.gt (k_or_default (parseInt_of_string s)) (JS.of_Z 10)
              || negb (JS.isInteger (k_or_default (parseInt_of_string s)))) eqn:Hk;
      cbn [negb isValid valid invalid] in Hin; [destruct Hin |].
    change (calls lib (reply JsonNeighbors
                         (getNeighbors (params req "hash")
                            (Some (k_or_default (parseInt_of_string s))))))
      with (handler_calls lib
              (reply JsonNeighbors
                 (getNeighbors (params req "hash")
                    (Some (k_or_default (parseInt_of_string s)))))) in Hin.
    rewrite handler_calls_reply in Hin.
    destruct (getNeighbors_calls_shape lib (params req "hash")
                (k_or_default (parseInt_of_string s))) as (rest & Hcalls & Hrest).
    rewrite Hcalls in Hin.
    destruct Hin as [Hc | Hin]; [| destruct (Hrest _ _ Hin)].
    injection Hc as <- <-.
    split; [reflexivity |]. split; [exact Hcell |].
    destruct (validateKValue_valid_integer StringToNumber NumberToString
                (JNum (k_or_default (parseInt_of_string s)))
                (k_or_default_is_double _ (Hdouble s)))
      as (x & z & Hx & Hz & Hr).
    { rewrite validateKValue_number, Hk. reflexivity. }
    injection Hx as <-. exists z. auto.
Qed.

(** X21.  The polygon handler answers "Missing parameters" whenever the
    [polygon] or the [resolution] of the body is falsy, without calling the
    library; the number 0 is falsy although [validateResolution] accepts it,
    while the string "0" of a query is not.  A request whose body is
    [undefined] or [null] is answered 500, without a library call. *)
Theorem polygonHandler_missing_parameters :
  forall (lib : H3Lib) (req : Request),
    let handler := polygonHandler parseInt_of_string StringToNumber
                                  NumberToString req in
    (forall fields,
        body req = JObj fields ->
        ToBoolean (lookup_field "polygon" fields) = false \/
        ToBoolean (lookup_field "resolution" fields) = false ->
        respond lib handler =
        sendError 400 "Missing parameters"
          (Some "Required: polygon (array of [lat, lng] coordinates), resolution") /\
        handler_calls lib handler = []) /\
    (body req = JUndefined \/ body req = JNull ->
     status (respond lib handler) = 500%nat /\
     handler_calls lib handler = []) /\
    ToBoolean (JNum (JS.of_Z 0)) = false /\
    validateResolution' (JNum (JS.of_Z 0)) = Normal valid /\
    ToBoolean (JStr "0") = true.
Proof.
  intros lib req handler. subst handler. unfold polygonHandler.
  split; [| split; [| repeat split; reflexivity]].
  - intros fields -> Hfalsy. cbn [get_property]. rewrite !abind_eval_Normal.
    assert (Hcond : negb (ToBoolean (lookup_field "polygon" fields))
                    || negb (ToBoolean (lookup_field "resolution" fields)) = true).
    { destruct Hfalsy as [-> | ->]; [reflexivity | apply orb_true_r]. }
    rewrite Hcond. split; reflexivity.
  - intros [-> | ->]; split; reflexivity.
Qed.

(** X22.  Whatever the request, the zone, area, radius and polygon handlers
    hand the library only resolutions that are integers from 0 to 15: every
    [latLngToCell] and [polygonToCells] call they make carries one. *)
Theorem handlers_pass_valid_resolution :
  (forall s, JS.is_double (parseInt_of_string s) = true) ->
  forall (lib : H3Lib) (req : Request) (c : H3Call) (res : JS.number),
    In c (handler_calls lib
            (zoneHandler parseFloat_of_string parseInt_of_string
                         StringToNumber NumberToString req)) \/
    In c (handler_calls lib
            (areaHandler parseFloat_of_string parseInt_of_string
                         StringToNumber NumberToString req)) \/
    In c (handler_calls lib
            (radiusHandler parseFloat_of_string parseInt_of_string
                           StringToNumber NumberToString req)) \/
    In c (handler_calls lib
            (polygonHandler parseInt_of_string StringToNumber NumberToString req)) ->
    resolution_argument c = Some res ->
    exists z, JS.int_value res = Some z /\ 0 <= z <= 15.
Proof.
  intros Hdouble lib req c res Hin Harg.
  assert (Hparsed : forall v x, parseInt' v = Normal x -> JS.is_double x = true).
  { intros v x. unfold parseInt.
    destruct (ToString NumberToString v) as [s | e]; cbind_reduce; [| discriminate].
    intros H. apply Normal_inj in H. subst x. apply Hdouble. }
  assert (Hvalid : forall x,
             JS.is_double x = true ->
             JS.lt x (JS.of_Z 0) || JS.gt x (JS.of_Z 15) || negb (JS.isInteger x) = false ->
             resolution_argument c = Some x ->
             exists z, JS.int_value res = Some z /\ 0 <= z <= 15).
  { intros x Hx Hv Hc. rewrite Hc in Harg. injection Harg as <-.
    apply (validateResolution_valid_integer StringToNumber NumberToString);
      [exact Hx | rewrite validateResolution_number, Hv; reflexivity]. }
  assert (Henum : forall A (finish : list string -> list NeighborInfo.t -> A)
                         polygon x,
             JS.is_double x = true ->
             JS.lt x (JS.of_Z 0) || JS.gt x (JS.of_Z 15) || negb (JS.isInteger x) = false ->
             In c (calls lib
                     (zones <- call (polygonToCells polygon x) ;;
                      infos <- mapP formatNeighborInfo zones ;;
                      Ret (finish zones infos))%prog) ->
             exists z, JS.int_value res = Some z /\ 0 <= z <= 15).
  { intros A finish polygon x Hx Hv Hc.
    destruct (calls_enumerate lib (polygonToCells polygon x)
                (fun zones => zones) finish) as (rest & Hcalls & Hrest).
    rewrite Hcalls in Hc. destruct Hc as [<- | Hc].
    - apply (Hvalid x Hx Hv). reflexivity.
    - rewrite Forall_forall in Hrest.
      rewrite (is_cellToLatLng_no_resolution c (Hrest c Hc)) in Harg.
      discriminate Harg. }
  destruct Hin as [Hin | [Hin | [Hin | Hin]]]; revert Hin.
  - unfold zoneHandler.
    repeat handler_step; try (intros []);
      rewrite handler_calls_reply.
    match goal with
    | |- In c (calls lib (getZone ?lat ?lng ?r)) -> _ =>
        destruct (getZone_first_call lib lat lng r) as (rest & Hcalls & Hrest)
    end.
    rewrite Hcalls. intros [<- | Hin].
    + eapply Hvalid; [eapply Hparsed; eassumption | eassumption | reflexivity].
    + rewrite (Hrest c Hin) in Harg. discriminate Harg.
  - unfold areaHandler. cbv zeta.
    repeat handler_step; try (intros []);
      rewrite handler_calls_reply.
    unfold getZonesInArea. cbv zeta. intros Hin.
    eapply Henum; [eapply Hparsed; eassumption | eassumption | exact Hin].
  - unfold radiusHandler. cbv zeta.
    repeat handler_step; try (intros []);
      rewrite handler_calls_reply.
    intros Hin. apply getZonesInRadius_calls_shape in Hin.
    destruct Hin as [-> | [[h ->] | Hc]].
    + eapply Hvalid; [eapply Hparsed; eassumption | eassumption | reflexivity].
    + discriminate Harg.
    + rewrite (is_cellToLatLng_no_resolution c Hc) in Harg. discriminate Harg.
  - unfold polygonHandler.
    repeat handler_step; try (intros []);
      rewrite handler_calls_reply.
    unfold getZonesInPolygon. intros Hin.
    eapply Henum; [eapply Hparsed; eassumption | eassumption | exact Hin].
Qed.

(** X23.  The radius handler does not check the radius: once the four
    parameters are present and coordinates and resolution pass, it calls
    the library, and a radius that is zero or negative is answered like any
    other, with [estimatedK] 1. *)
Theorem radiusHandler_accepts_nonpositive_radius :
  forall (lib : H3Lib) (req : Request) (lat lng radius resolution : JS.number),
    let handler := radiusHandler parseFloat_of_string parseInt_of_string
                                 StringToNumber NumberToString req in
    ToBoolean (query req "lat") = true ->
    ToBoolean (query req "lng") = true ->
    ToBoolean (query req "radius") = true ->
    ToBoolean (query req "resolution") = true ->
    parseFloat' (query req "lat") = Normal lat ->
    parseFloat' (query req "lng") = Normal lng ->
    parseFloat' (query req "radius") = Normal radius ->
    parseInt' (query req "resolution") = Normal resolution ->
    validateCoordinates' (JNum lat) (JNum lng) = Normal valid ->
    validateResolution' (JNum resolution) = Normal valid ->
    (exists rest,
        handler_calls lib handler = latLngToCell lat lng resolution :: rest) /\
    (JS.le radius (JS.of_Z 0) = true ->
     never_throws lib ->
     exists r,
       respond lib handler = send (JsonRadius r) /\
       ZonesInRadiusResponse.estimatedK r = JS.of_Z 1).
Proof.
  intros lib req lat lng radius resolution handler
         H1 H2 H3 H4 Hlat Hlng Hradius Hres Hc Hr.
  subst handler. unfold radiusHandler. cbv zeta.
  rewrite H1, H2, H3, H4. cbn [negb orb].
  rewrite Hlat, abind_eval_Normal, Hlng, abind_eval_Normal,
    Hradius, abind_eval_Normal, Hres, abind_eval_Normal,
    Hc, abind_eval_Normal.
  cbn [negb isValid valid]. rewrite Hr, abind_eval_Normal. cbn [negb isValid valid].
  split.
  - rewrite handler_calls_reply. unfold getZonesInRadius. cbv zeta.
    rewrite calls_pbind, calls_call. eexists. reflexivity.
  - intros Hle Hlib. rewrite respond_reply.
    destruct (never_throws_result lib
                (getZonesInRadius
                   {| Coordinates.lat := lat; Coordinates.lng := lng |}
                   radius resolution) Hlib) as [r Hres'].
    rewrite Hres'. exists r. split; [reflexivity |].
    revert Hres'. unfold getZonesInRadius.
    run_step. run_step. run_map.
    intros H. apply Normal_inj in H. subst r.
    cbn [ZonesInRadiusResponse.estimatedK].
    apply Math_max_1_nonpositive, Math_ceil_nonpositive, div_1000_nonpositive.
    apply le_zero_nonpositive. exact Hle.
Qed.

(** X24.  The area handler does not check how the two corners lie to each
    other: once the five parameters are present, both corners pass and the
    resolution passes, its first library call is [polygonToCells] on the
    ring of the parsed corners, whether or not the minima are below the
    maxima. *)
Theorem areaHandler_passes_any_box :
  forall (lib : H3Lib) (req : Request)
         (minLat minLng maxLat maxLng resolution : JS.number),
    let handler := areaHandler parseFloat_of_string parseInt_of_string
                               StringToNumber NumberToString req in
    ToBoolean (query req "minLat") = true ->
    ToBoolean (query req "minLng") = true ->
    ToBoolean (query req "maxLat") = true ->
    ToBoolean (query req "maxLng") = true ->
    ToBoolean (query req "resolution") = true ->
    parseFloat' (query req "minLat") = Normal minLat ->
    parseFloat' (query req "minLng") = Normal minLng ->
    parseFloat' (query req "maxLat") = Normal maxLat ->
    parseFloat' (query req "maxLng") = Normal maxLng ->
    parseInt' (query req "resolution") = Normal resolution ->
    validateCoordinates' (JNum minLat) (JNum minLng) = Normal valid ->
    validateCoordinates' (JNum maxLat) (JNum maxLng) = Normal valid ->
    validateResolution' (JNum resolution) = Normal valid ->
    exists rest,
      handler_calls lib handler =
      polygonToCells
        (JArr [ JArr [JNum minLat; JNum minLng]; JArr [JNum minLat; JNum maxLng];
                JArr [JNum maxLat; JNum maxLng]; JArr [JNum maxLat; JNum minLng];
                JArr [JNum minLat; JNum minLng] ])
        resolution :: rest.
Proof.
  intros lib req minLat minLng maxLat maxLng resolution handler
         H1 H2 H3 H4 H5 Ha Hb Hc Hd He Hmin Hmax Hr.
  subst handler. unfold areaHandler. cbv zeta.
  rewrite H1, H2, H3, H4, H5. cbn [negb orb].
  rewrite Ha, abind_eval_Normal, Hb, abind_eval_Normal, Hc, abind_eval_Normal,
    Hd, abind_eval_Normal, He, abind_eval_Normal.
  rewrite Hmin, abind_eval_Normal, Hmax, abind_eval_Normal.
  cbn [negb orb isValid valid]. rewrite Hr, abind_eval_Normal.
  cbn [negb isValid valid]. rewrite handler_calls_reply.
  unfold getZonesInArea. cbv zeta.
  rewrite calls_pbind, calls_call. eexists. reflexivity.
Qed.

End HandlerFacts.

(* ------------------------------------------------------------------ *)
(** *** The handlers on the sample requests *)

Lemma corsOrigin_decision_witness :
  corsOrigin ["https://a.example"] (Some "https://a.example") = Normal true.
Proof.
  apply (proj1 (corsOrigin_decision ["https://a.example"] (Some "https://a.example"))).
  right. right. right. exists "https://a.example".
  split; [reflexivity | left; reflexivity].
Defined.


Lemma zoneHandler_NaN_latitude_witness :
  exists rest,
    handler_calls sample_lib
      (zoneHandler sample_parseFloat sample_parseInt
         sample_StringToNumber sample_NumberToString sample_request_bad_latitude)
    = latLngToCell JS.NaN (JS.of_Z (-122)) (JS.of_Z 9) :: rest.
Proof.
  apply (proj2 (proj2 (zoneHandler_NaN_latitude
                         sample_parseFloat sample_parseInt
                         sample_StringToNumber sample_NumberToString
                         sample_lib sample_request_bad_latitude
                         (JS.of_Z (-122)) (JS.of_Z 9)
                         eq_refl eq_refl eq_refl)));
    reflexivity.
Defined.

Lemma zone_handlers_agree_on_numbers_witness :
  status (respond sample_lib
            (zoneHandler sample_parseFloat sample_parseInt
               sample_StringToNumber sample_NumberToString sample_request))
  = status (respond sample_lib
              (zoneHandler_js sample_parseFloat sample_parseInt
                 sample_StringToNumber sample_NumberToString sample_request)).
Proof.
  apply (zone_handlers_agree_on_numbers
           sample_parseFloat sample_parseInt
           sample_StringToNumber sample_NumberToString
           sample_lib sample_request
           (JS.of_Z 37) (JS.of_Z (-122)) (JS.of_Z 9) eq_refl eq_refl eq_refl).
  - discriminate.
  - discriminate.
  - right. reflexivity.
Defined.

Lemma neighborsHandler_ring_count_witness :
  exists rest,
    handler_calls sample_lib
      (neighborsHandler sample_parseInt sample_StringToNumber sample_NumberToString
         sample_request)
    = isValidCell (JStr sample_hash) :: gridDisk sample_hash (JS.of_Z 1) :: rest.
Proof.
  apply (proj1 (neighborsHandler_ring_count
                  sample_parseInt sample_StringToNumber sample_NumberToString
                  sample_lib sample_request) JS.NaN);
    reflexivity.
Defined.

Lemma polygonHandler_missing_parameters_witness :
  respond sample_lib
    (polygonHandler sample_parseInt sample_StringToNumber sample_NumberToString
       sample_polygon_request)
  = sendError 400 "Missing parameters"
      (Some "Required: polygon (array of [lat, lng] coordinates), resolution").
Proof.
  apply (proj1 (polygonHandler_missing_parameters
                  sample_parseInt sample_StringToNumber sample_NumberToString
                  sample_lib sample_polygon_request)
               [("polygon", sample_triangle); ("resolution", JNum (JS.of_Z 0))]
               eq_refl).
  right. reflexivity.
Defined.

Lemma sample_parseInt_is_double (s : string) :
  JS.is_double (sample_parseInt s) = true.
Proof.
  unfold sample_parseInt. destruct (String.eqb s "9"); reflexivity.
Qed.

Lemma handlers_pass_valid_resolution_witness :
  exists z, JS.int_value (JS.of_Z 9) = Some z /\ 0 <= z <= 15.
Proof.
  apply (handlers_pass_valid_resolution
           sample_parseFloat sample_parseInt sample_StringToNumber
           sample_NumberToString sample_parseInt_is_double
           sample_lib sample_request
           (latLngToCell (JS.of_Z 37) (JS.of_Z (-122)) (JS.of_Z 9)) (JS.of_Z 9)).
  - left. vm_compute. left. reflexivity.
  - reflexivity.
Defined.

Lemma radiusHandler_accepts_nonpositive_radius_witness :
  exists r,
    respond sample_lib
      (radiusHandler sample_parseFloat sample_parseInt
         sample_StringToNumber sample_NumberToString sample_radius_request)
    = send (JsonRadius r) /\
    ZonesInRadiusResponse.estimatedK r = JS.of_Z 1.
Proof.
  apply (proj2 (radiusHandler_accepts_nonpositive_radius
                  sample_parseFloat sample_parseInt
                  sample_StringToNumber sample_NumberToString
                  sample_lib sample_radius_request
                  (JS.of_Z 37) (JS.of_Z (-122)) (JS.of_Z (-500)) (JS.of_Z 9)
                  eq_refl eq_refl eq_refl eq_refl
                  eq_refl eq_refl eq_refl eq_refl eq_refl eq_refl)).
  - reflexivity.
  - exact sample_lib_never_throws.
Defined.

Lemma areaHandler_passes_any_box_witness :
  exists rest,
    handler_calls sample_lib
      (areaHandler sample_parseFloat sample_parseInt
         sample_StringToNumber sample_NumberToString sample_inverted_box_request)
    = polygonToCells
        (JArr [ JArr [JNum (JS.of_Z 37); JNum (JS.of_Z 37)];
                JArr [JNum (JS.of_Z 37); JNum (JS.of_Z 0)];
                JArr [JNum (JS.of_Z 0); JNum (JS.of_Z 0)];
                JArr [JNum (JS.of_Z 0); JNum (JS.of_Z 37)];
                JArr [JNum (JS.of_Z 37); JNum (JS.of_Z 37)] ])
        (JS.of_Z 9) :: rest.
Proof.
  apply (areaHandler_passes_any_box
           sample_parseFloat sample_parseInt
           sample_StringToNumber sample_NumberToString
           sample_lib sample_inverted_box_request
           (JS.of_Z 37) (JS.of_Z 37) (JS.of_Z 0) (JS.of_Z 0) (JS.of_Z 9));
    reflexivity.
Defined.
